(** * Video generation service: manifest normalisation and job orchestration

    A shallow embedding of [index.js]: [transformManifest], the Express
    handler of [POST /generate-video] and the background render task it
    starts; of the sequences [Main.tsx] gives to the series; and of the
    grouping of the visual components in [Scene.tsx].

    Conventions of the embedding
    - a request body is a parsed JSON document: [value];
    - a JavaScript number is [NaN], an infinity or an exact rational
      ([Fin q]); IEEE rounding and the sign of zero are not modelled;
    - a JavaScript exception is an [outcome] [Throw e];
    - the two conversions between numbers and strings and [parseInt] belong
      to the JavaScript runtime and are taken as a parameter ([JSRuntime]);
    - the collaborators (Supabase, Deepgram, Remotion, the file system, the
      clock) answer through an [env] that fixes the outcome of every call;
    - a run of the task is a function of the state that returns the new
      state, the log of the calls made and the outcome; the promise of the
      render callback is not awaited, so its rejection is lost;
    - the two [while] loops of [Scene.tsx] run on fuel, and
      [Scene_elements_terminates] shows that the fuel they get is enough. *)

From Stdlib Require Import QArith Qround.
From stdpp Require Import base option list strings gmap pretty sorting.

Local Open Scope string_scope.
Local Open Scope Z_scope.

(** ** JavaScript values *)

Inductive number : Type :=
| NaN
| Inf (negative : bool)
| Fin (q : Q).

#[warnings="-register-all"]
Inductive value : Type :=
| JUndefined
| JNull
| JBool (b : bool)
| JNum (n : number)
| JStr (s : string)
| JArr (l : list value)
| JObj (o : list (string * value)).

Inductive js_error : Type :=
| TypeError_read_of_nullish (prop : string)
| TypeError_not_a_function (callee : string)
| TypeError_to_primitive
| CollaboratorError (who : string).

Inductive outcome (A : Type) : Type :=
| Ret (a : A)
| Throw (e : js_error).
Arguments Ret {A} a.
Arguments Throw {A} e.

Definition obind {A B} (m : outcome A) (k : A → outcome B) : outcome B :=
  match m with
  | Ret a => k a
  | Throw e => Throw e
  end.

Declare Scope js_scope.
Delimit Scope js_scope with js.
Notation "x ←! m ; k" := (obind m (fun x => k))
  (at level 100, m at next level, right associativity) : js_scope.

Definition returns {A} (m : outcome A) : Prop := ∃ a, m = Ret a.
Definition throws {A} (m : outcome A) : Prop := ∃ e, m = Throw e.

(** The primitives of the runtime that the service relies on and that this
    development does not define. *)
Class JSRuntime : Type := {
  number_to_string : number → string;   (* Number::toString *)
  string_to_number : string → number;   (* StringToNumber *)
  parseInt : string → number
}.

Definition num_of_Z (z : Z) : number := Fin (inject_Z z).
Definition num_of_nat (n : nat) : number := num_of_Z (Z.of_nat n).

(** ToBoolean *)
Definition truthy (v : value) : bool :=
  match v with
  | JUndefined | JNull => false
  | JBool b => b
  | JNum NaN => false
  | JNum (Inf _) => true
  | JNum (Fin q) => negb (Qeq_bool q 0)
  | JStr s => negb (String.eqb s "")
  | JArr _ | JObj _ => true
  end.

(** [a || b] *)
Definition js_or (a b : value) : value := if truthy a then a else b.

Inductive js_type : Type :=
| TyUndefined | TyObject | TyBoolean | TyNumber | TyString.

Definition typeof (v : value) : js_type :=
  match v with
  | JUndefined => TyUndefined
  | JNull | JArr _ | JObj _ => TyObject
  | JBool _ => TyBoolean
  | JNum _ => TyNumber
  | JStr _ => TyString
  end.

Definition js_type_eqb (a b : js_type) : bool :=
  match a, b with
  | TyUndefined, TyUndefined | TyObject, TyObject | TyBoolean, TyBoolean
  | TyNumber, TyNumber | TyString, TyString => true
  | _, _ => false
  end.

Fixpoint own_property (prop : string) (o : list (string * value)) : option value :=
  match o with
  | [] => None
  | (k, v) :: rest => if String.eqb k prop then Some v else own_property prop rest
  end.

Definition has_own (prop : string) (o : list (string * value)) : bool :=
  match own_property prop o with Some _ => true | None => false end.

(** [{...o, prop: v}]: an existing key keeps its place. *)
Fixpoint set_property (prop : string) (v : value) (o : list (string * value))
  : list (string * value) :=
  match o with
  | [] => [(prop, v)]
  | (k, w) :: rest =>
      if String.eqb k prop then (k, v) :: rest
      else (k, w) :: set_property prop v rest
  end.

(** [v.prop], for the property names the service reads ([meta], [scenes],
    [components], [visuals], [type], [rationale], [id], [start],
    [start_time], [duration], [narration], [text], [audioUrl], [layout],
    [fps]): none of them is defined by a built-in prototype, so only an
    object can answer with something else than [undefined]. *)
Definition get (v : value) (prop : string) : outcome value :=
  match v with
  | JUndefined | JNull => Throw (TypeError_read_of_nullish prop)
  | JObj o => Ret (default JUndefined (own_property prop o))
  | _ => Ret JUndefined
  end.

(** [v?.prop] *)
Definition get_opt (v : value) (prop : string) : value :=
  match v with
  | JUndefined | JNull => JUndefined
  | JObj o => default JUndefined (own_property prop o)
  | _ => JUndefined
  end.

(** [{...v}] of an object. *)
Definition spread (v : value) : list (string * value) :=
  match v with
  | JObj o => o
  | _ => []
  end.

Fixpoint map_indexed {A B} (f : A → nat → outcome B) (l : list A) (idx : nat)
  : outcome (list B) :=
  match l with
  | [] => Ret []
  | x :: rest =>
      (y ←! f x idx;
       ys ←! map_indexed f rest (S idx);
       Ret (y :: ys))%js
  end.

(** [v.map(f)]: only an array has a callable [map]. *)
Definition js_map {B} (f : value → nat → outcome B) (v : value) : outcome (list B) :=
  match v with
  | JArr l => map_indexed f l 0%nat
  | JUndefined | JNull => Throw (TypeError_read_of_nullish "map")
  | _ => Throw (TypeError_not_a_function "map")
  end.

Section Runtime.
Context `{JSRuntime}.

(** ToString, with [Array.prototype.join] for arrays. An object parsed from
    JSON has no callable [toString] of its own: with an own [toString] key
    the conversion fails, without one [Object.prototype.toString] answers. *)
Fixpoint to_string (v : value) : outcome string :=
  match v with
  | JUndefined => Ret "undefined"
  | JNull => Ret "null"
  | JBool b => Ret (if b then "true" else "false")
  | JNum n => Ret (number_to_string n)
  | JStr s => Ret s
  | JArr l =>
      (fix join_comma (l : list value) : outcome string :=
         match l with
         | [] => Ret ""
         | x :: rest =>
             (s ←! match x with
                   | JUndefined | JNull => Ret ""
                   | _ => to_string x
                   end;
              match rest with
              | [] => Ret s
              | _ => (t ←! join_comma rest; Ret (s ++ "," ++ t))
              end)%js
         end) l
  | JObj o =>
      if has_own "toString" o then Throw TypeError_to_primitive
      else Ret "[object Object]"
  end.

(** [l.join(sep)] *)
Fixpoint join (sep : string) (l : list value) : outcome string :=
  match l with
  | [] => Ret ""
  | x :: rest =>
      (s ←! match x with
            | JUndefined | JNull => Ret ""
            | _ => to_string x
            end;
       match rest with
       | [] => Ret s
       | _ => (t ←! join sep rest; Ret (s ++ sep ++ t))
       end)%js
  end.

(** ToPrimitive *)
Definition to_primitive (v : value) : outcome value :=
  match v with
  | JArr _ | JObj _ => (s ←! to_string v; Ret (JStr s))%js
  | _ => Ret v
  end.

(** ToNumber *)
Definition to_number (v : value) : outcome number :=
  (p ←! to_primitive v;
   Ret match p with
       | JUndefined => NaN
       | JNull => num_of_Z 0
       | JBool b => num_of_Z (if b then 1 else 0)
       | JNum n => n
       | JStr s => string_to_number s
       | JArr _ | JObj _ => NaN
       end)%js.

Definition number_add (a b : number) : number :=
  match a, b with
  | NaN, _ | _, NaN => NaN
  | Inf s, Inf t => if Bool.eqb s t then Inf s else NaN
  | Inf s, Fin _ | Fin _, Inf s => Inf s
  | Fin x, Fin y => Fin (x + y)
  end.

Definition Qnegative (q : Q) : bool := negb (Qle_bool 0 q).

Definition number_mul (a b : number) : number :=
  match a, b with
  | NaN, _ | _, NaN => NaN
  | Inf s, Inf t => Inf (xorb s t)
  | Inf s, Fin q | Fin q, Inf s =>
      if Qeq_bool q 0 then NaN else Inf (xorb s (Qnegative q))
  | Fin x, Fin y => Fin (x * y)
  end.

(** [a + b] *)
Definition js_add (a b : value) : outcome value :=
  (pa ←! to_primitive a;
   pb ←! to_primitive b;
   match pa, pb with
   | JStr _, _ | _, JStr _ =>
       sa ←! to_string pa;
       sb ←! to_string pb;
       Ret (JStr (sa ++ sb))
   | _, _ =>
       na ←! to_number pa;
       nb ←! to_number pb;
       Ret (JNum (number_add na nb))
   end)%js.

(** [a * b] *)
Definition js_mul (a b : value) : outcome number :=
  (na ←! to_number a;
   nb ←! to_number b;
   Ret (number_mul na nb))%js.

Definition Math_floor (n : number) : number :=
  match n with
  | Fin q => num_of_Z (Qfloor q)
  | _ => n
  end.

(** [Math.max(a, b)] *)
Definition Math_max (a b : number) : number :=
  match a, b with
  | NaN, _ | _, NaN => NaN
  | Inf false, _ | _, Inf false => Inf false
  | Inf true, x | x, Inf true => x
  | Fin x, Fin y => if Qle_bool x y then Fin y else Fin x
  end.

(** [Math.round] of a finite number: ties go up. *)
Definition Math_round (q : Q) : Z := Qfloor (q + (1 # 2))%Q.


(** ** The normalised manifest *)

Record Narration : Type := {
  narration_text : value;
  narration_audioUrl : value
}.

Record Visuals : Type := {
  visuals_layout : value;
  visuals_components : list value
}.

Record Scene : Type := {
  scene_id : value;
  scene_start : value;
  scene_duration : value;
  scene_narration : Narration;
  scene_visuals : Visuals
}.

Record Manifest : Type := {
  manifest_meta : value;
  manifest_scenes : list Scene
}.

Definition default_meta : value :=
  JObj [("loan_id", JStr "unknown");
        ("version", JStr "1.0");
        ("theme", JStr "institutional-dark");
        ("resolution", JStr "1920x1080");
        ("fps", JNum (num_of_Z 30))].

(** [v === s] for a string literal [s] *)
Definition strict_eq_string (v : value) (s : string) : bool :=
  match v with
  | JStr t => String.eqb t s
  | _ => false
  end.

(** The callback of [rawComponents.map]. *)
Definition transformComponent (component : value) : outcome value :=
  (ty ←! get component "type";
   if strict_eq_string ty "recommendation" then
     rationale ←! get component "rationale";
     match rationale with
     | JArr l =>
         joined ←! join ". " l;
         Ret (JObj (set_property "rationale" (JStr joined) (spread component)))
     | _ => Ret component
     end
   else Ret component)%js.

(** The callback of [scenes.map]. *)
Definition transformScene (scene : value) (idx : nat) : outcome Scene :=
  (c ←! get scene "components";
   rawComponents ←! (if truthy c then Ret c
                     else v ←! get scene "visuals";
                          Ret (js_or (get_opt v "components") (JArr [])));
   transformedComponents ←! js_map (fun component _ => transformComponent component)
                                   rawComponents;
   i ←! get scene "id";
   st ←! get scene "start";
   start ←! (if truthy st then Ret st
             else st' ←! get scene "start_time"; Ret (js_or st' (JNum (num_of_Z 0))));
   d ←! get scene "duration";
   n ←! get scene "narration";
   text ←! (if js_type_eqb (typeof n) TyString then get scene "narration"
            else n' ←! get scene "narration"; Ret (js_or (get_opt n' "text") (JStr "")));
   n'' ←! get scene "narration";
   audioUrl ←! (if js_type_eqb (typeof n'') TyObject
                then n3 ←! get scene "narration"; get n3 "audioUrl"
                else Ret JNull);
   v ←! get scene "visuals";
   Ret {| scene_id := js_or i (JStr ("scene_" ++ number_to_string (num_of_nat idx)));
          scene_start := start;
          scene_duration := js_or d (JNum (num_of_Z 10));
          scene_narration := {| narration_text := text; narration_audioUrl := audioUrl |};
          scene_visuals := {| visuals_layout := js_or (get_opt v "layout") (JStr "centered");
                              visuals_components := transformedComponents |} |})%js.

Definition transformManifest (aiManifest : value) : outcome (option Manifest) :=
  if negb (truthy aiManifest) then Ret None
  else
    (s ←! get aiManifest "scenes";
     let scenes := js_or s (JArr []) in
     m ←! get aiManifest "meta";
     scs ←! js_map transformScene scenes;
     Ret (Some {| manifest_meta := js_or m default_meta; manifest_scenes := scs |}))%js.

(** ** Render planning *)

(** [scenes.reduce((acc, s) => acc + s.duration, acc0)] *)
Fixpoint reduce_durations (acc : value) (scenes : list Scene) : outcome value :=
  match scenes with
  | [] => Ret acc
  | s :: rest => (acc' ←! js_add acc (scene_duration s); reduce_durations acc' rest)%js
  end.

Record Plan : Type := {
  plan_fps : value;
  totalDurationInSeconds : value;
  durationInFrames : number
}.

Definition plan_render (m : Manifest) : outcome Plan :=
  (f ←! get (manifest_meta m) "fps";
   let fps := js_or f (JNum (num_of_Z 30)) in
   total ←! reduce_durations (JNum (num_of_Z 0)) (manifest_scenes m);
   prod ←! js_mul total fps;
   Ret {| plan_fps := fps;
          totalDurationInSeconds := total;
          durationInFrames := Math_max (num_of_Z 1) (Math_floor prod) |})%js.


End Runtime.

(** ** The collaborators

    Every call that leaves the process is answered by the environment. A
    call made once per scene is keyed by the scene index, a request to the
    database by its rank among the requests of the run, a reading of the
    clock by its rank among the readings. *)

Inductive upload_result : Type := UploadStored | UploadError | UploadThrows.
Inductive remove_result : Type := RemoveDone | RemoveError | RemoveThrows.
Inductive pipeline_result : Type := PipelineDone | PipelineFails (file_left : bool).
Inductive render_result : Type := RenderDone | RenderFails (output_left : bool).

Record env : Type := {
  env_dirname : string;                       (* __dirname *)
  env_randomUUID : string;                    (* crypto.randomUUID() *)
  env_RENDER_EXTERNAL_URL : option string;    (* process.env *)
  env_REMOTION_CONCURRENCY : option string;   (* process.env *)
  env_listBuckets : outcome (option (list string));
  env_createBucket : outcome unit;
  env_db : nat → outcome value;               (* [data] of the n-th response *)
  env_bundle : outcome string;
  env_speak : nat → outcome unit;             (* deepgram.speak.request *)
  env_getStream : nat → outcome bool;         (* is there a stream? *)
  env_pipeline : nat → pipeline_result;       (* createWriteStream + pipeline *)
  env_readFile : string → outcome unit;
  env_upload : string → string → upload_result;
  env_publicUrl : string → string → string;
  env_selectComposition : outcome unit;
  env_render_progress : list Q;               (* arguments of onProgress *)
  env_render : render_result;
  env_now : nat → Z;                          (* Date.now() *)
  env_unlink_fails : string → bool;
  env_remove : remove_result
}.

(** ** Requests to the database *)

Record job_fields : Type := {
  f_video_url : option string;
  f_status : option string;
  f_progress : option Z;
  f_progress_label : option string;
  f_isReady : option bool;
  f_storage_metadata : option (value * number)   (* duration, frames *)
}.

Inductive db_request : Type :=
| VideosUpsert (id : string) (manifest_id : value) (status : string)
               (progress : Z) (progress_label : string)
| VideosUpdate (id : string) (fields : job_fields)
| VideosSelectManifestId (id : string)
| ManifestsSelectAnalysisId (id : value)
| ArtifactsUpdate (analysis_id : value) (video_url : string) (video_status : string).

(** The calls a run makes, in the order it makes them. A call of the loop
    over the scenes carries the index of the scene it is made for. *)
Inductive event : Type :=
| E_randomUUID
| E_respond (status : Z) (body : value)
| E_listBuckets
| E_createBucket (name : string)
| E_db (req : db_request)
| E_bundle (entry : string)
| E_speak (scene_index : nat) (text model : string)
| E_getStream (scene_index : nat)
| E_pipeline (scene_index : nat) (path : string)
| E_readFile (scene_index : nat) (path : string)
| E_uploadAudio (scene_index : nat) (bucket name contentType : string)
| E_uploadVideo (bucket name contentType : string)
| E_remove (bucket : string) (names : list string)
| E_selectComposition (serveUrl id : string) (manifest : Manifest) (analysis : value)
| E_renderMedia (frames : number) (outputLocation : string) (manifest : Manifest)
                (analysis : value) (concurrency : number)
| E_unlink (path : string).

(** ** State of a run: the outside world and the variables of the task *)

Record task : Type := {
  files : gset string;                 (* local files *)
  objects : gset (string * string);    (* bucket, name *)
  db_requests : nat;
  clock_reads : nat;
  scenes : list Scene;                 (* transformedManifest.scenes *)
  audioFiles : list string;
  supabaseAudioPaths : list string;
  lastUpdate : Z
}.

Definition with_files (f : gset string) (t : task) : task :=
  {| files := f; objects := objects t; db_requests := db_requests t;
     clock_reads := clock_reads t; scenes := scenes t; audioFiles := audioFiles t;
     supabaseAudioPaths := supabaseAudioPaths t; lastUpdate := lastUpdate t |}.
Definition with_objects (o : gset (string * string)) (t : task) : task :=
  {| files := files t; objects := o; db_requests := db_requests t;
     clock_reads := clock_reads t; scenes := scenes t; audioFiles := audioFiles t;
     supabaseAudioPaths := supabaseAudioPaths t; lastUpdate := lastUpdate t |}.
Definition with_db_requests (n : nat) (t : task) : task :=
  {| files := files t; objects := objects t; db_requests := n;
     clock_reads := clock_reads t; scenes := scenes t; audioFiles := audioFiles t;
     supabaseAudioPaths := supabaseAudioPaths t; lastUpdate := lastUpdate t |}.
Definition with_clock_reads (n : nat) (t : task) : task :=
  {| files := files t; objects := objects t; db_requests := db_requests t;
     clock_reads := n; scenes := scenes t; audioFiles := audioFiles t;
     supabaseAudioPaths := supabaseAudioPaths t; lastUpdate := lastUpdate t |}.
Definition with_scenes (l : list Scene) (t : task) : task :=
  {| files := files t; objects := objects t; db_requests := db_requests t;
     clock_reads := clock_reads t; scenes := l; audioFiles := audioFiles t;
     supabaseAudioPaths := supabaseAudioPaths t; lastUpdate := lastUpdate t |}.
Definition with_audioFiles (l : list string) (t : task) : task :=
  {| files := files t; objects := objects t; db_requests := db_requests t;
     clock_reads := clock_reads t; scenes := scenes t; audioFiles := l;
     supabaseAudioPaths := supabaseAudioPaths t; lastUpdate := lastUpdate t |}.
Definition with_supabaseAudioPaths (l : list string) (t : task) : task :=
  {| files := files t; objects := objects t; db_requests := db_requests t;
     clock_reads := clock_reads t; scenes := scenes t; audioFiles := audioFiles t;
     supabaseAudioPaths := l; lastUpdate := lastUpdate t |}.
Definition with_lastUpdate (z : Z) (t : task) : task :=
  {| files := files t; objects := objects t; db_requests := db_requests t;
     clock_reads := clock_reads t; scenes := scenes t; audioFiles := audioFiles t;
     supabaseAudioPaths := supabaseAudioPaths t; lastUpdate := z |}.

(** ** A monad for the task: state, log of the calls made, exceptions *)

Record result (A : Type) : Type := {
  r_state : task;
  r_log : list event;
  r_out : outcome A
}.
Arguments r_state {A} r.
Arguments r_log {A} r.
Arguments r_out {A} r.
Arguments Build_result {A} r_state r_log r_out.

Definition M (A : Type) : Type := task → result A.

Definition ret {A} (a : A) : M A :=
  fun t => {| r_state := t; r_log := []; r_out := Ret a |}.

Definition throw {A} (err : js_error) : M A :=
  fun t => {| r_state := t; r_log := []; r_out := Throw err |}.

(** The run [r], then the run [r'] that started where [r] ended. *)
Definition after {A B} (r : result A) (r' : result B) : result B :=
  {| r_state := r_state r'; r_log := r_log r ++ r_log r'; r_out := r_out r' |}.

Definition bind {A B} (m : M A) (k : A → M B) : M B :=
  fun t =>
    let r := m t in
    match r_out r with
    | Ret a => after r (k a (r_state r))
    | Throw err => {| r_state := r_state r; r_log := r_log r; r_out := Throw err |}
    end.

(** [try { m } catch (err) { h err }] *)
Definition try_catch {A} (m : M A) (h : js_error → M A) : M A :=
  fun t =>
    let r := m t in
    match r_out r with
    | Ret _ => r
    | Throw err => after r (h err (r_state r))
    end.

(** [try { m } finally { fin }] *)
Definition try_finally {A} (m : M A) (fin : M unit) : M A :=
  fun t =>
    let r := m t in
    let rf := fin (r_state r) in
    {| r_state := r_state rf;
       r_log := r_log r ++ r_log rf;
       r_out := match r_out rf with
                | Throw err => Throw err
                | Ret _ => r_out r
                end |}.

Definition lift {A} (o : outcome A) : M A :=
  fun t => {| r_state := t; r_log := []; r_out := o |}.

Definition emit (ev : event) : M unit :=
  fun t => {| r_state := t; r_log := [ev]; r_out := Ret tt |}.

Definition read {A} (f : task → A) : M A :=
  fun t => {| r_state := t; r_log := []; r_out := Ret (f t) |}.

Definition modify (f : task → task) : M unit :=
  fun t => {| r_state := f t; r_log := []; r_out := Ret tt |}.

Declare Scope task_scope.
Delimit Scope task_scope with task.
Notation "x ⇐ m ; k" := (bind m (fun x => k))
  (at level 100, m at next level, right associativity) : task_scope.
Notation "m ;;; k" := (bind m (fun _ => k))
  (at level 100, right associativity) : task_scope.

(** [for (let i = start; i < start + n; i++) body i] *)
Fixpoint for_loop (n : nat) (i : nat) (body : nat → M unit) : M unit :=
  match n with
  | O => ret tt
  | S n' => (body i;;; for_loop n' (S i) body)%task
  end.

(** [for (const x of l) body x] *)
Fixpoint for_of {A} (l : list A) (body : A → M unit) : M unit :=
  match l with
  | [] => ret tt
  | x :: rest => (body x;;; for_of rest body)%task
  end.


(** ** The calls to the collaborators *)

Section Service.
Context `{JSRuntime}.
Variable e : env.

Definition db (req : db_request) : M value :=
  fun t => {| r_state := with_db_requests (S (db_requests t)) t;
              r_log := [E_db req];
              r_out := env_db e (db_requests t) |}.

Definition Date_now : M Z :=
  fun t => {| r_state := with_clock_reads (S (clock_reads t)) t;
              r_log := [];
              r_out := Ret (env_now e (clock_reads t)) |}.

Definition randomUUID : M string :=
  fun t => {| r_state := t; r_log := [E_randomUUID]; r_out := Ret (env_randomUUID e) |}.

Definition fs_existsSync (path : string) : M bool :=
  read (fun t => bool_decide (path ∈ files t)).

Definition fs_unlinkSync (path : string) : M unit :=
  fun t =>
    if bool_decide (path ∈ files t) && negb (env_unlink_fails e path)
    then {| r_state := with_files (files t ∖ {[path]}) t;
            r_log := [E_unlink path]; r_out := Ret tt |}
    else {| r_state := t; r_log := [E_unlink path];
            r_out := Throw (CollaboratorError "unlinkSync") |}.

Definition fs_readFileSync (i : nat) (path : string) : M unit :=
  fun t => {| r_state := t; r_log := [E_readFile i path];
              r_out := if bool_decide (path ∈ files t) then env_readFile e path
                       else Throw (CollaboratorError "readFileSync") |}.

(** [fs.createWriteStream(path)] and [pipeline(stream, file)] *)
Definition pipeline_to_file (i : nat) (path : string) : M unit :=
  fun t =>
    match env_pipeline e i with
    | PipelineDone =>
        {| r_state := with_files ({[path]} ∪ files t) t;
           r_log := [E_pipeline i path]; r_out := Ret tt |}
    | PipelineFails file_left =>
        {| r_state := if file_left then with_files ({[path]} ∪ files t) t else t;
           r_log := [E_pipeline i path];
           r_out := Throw (CollaboratorError "pipeline") |}
    end.

Definition speak_request (i : nat) (text : string) : M unit :=
  fun t => {| r_state := t; r_log := [E_speak i text "aura-2-odysseus-en"];
              r_out := env_speak e i |}.

Definition getStream (i : nat) : M bool :=
  fun t => {| r_state := t; r_log := [E_getStream i]; r_out := env_getStream e i |}.

(** [storage.from(bucket).upload(name, ...)]: the result tells whether the
    response carries an [error]. *)
Definition storage_upload (ev : event) (bucket name : string) : M bool :=
  fun t =>
    match env_upload e bucket name with
    | UploadStored =>
        {| r_state := with_objects ({[(bucket, name)]} ∪ objects t) t;
           r_log := [ev]; r_out := Ret false |}
    | UploadError => {| r_state := t; r_log := [ev]; r_out := Ret true |}
    | UploadThrows =>
        {| r_state := t; r_log := [ev]; r_out := Throw (CollaboratorError "upload") |}
    end.

Definition storage_remove (bucket : string) (names : list string) : M bool :=
  fun t =>
    match env_remove e with
    | RemoveDone =>
        {| r_state := with_objects
                        (objects t ∖ list_to_set ((fun n => (bucket, n)) <$> names)) t;
           r_log := [E_remove bucket names]; r_out := Ret false |}
    | RemoveError => {| r_state := t; r_log := [E_remove bucket names]; r_out := Ret true |}
    | RemoveThrows =>
        {| r_state := t; r_log := [E_remove bucket names];
           r_out := Throw (CollaboratorError "remove") |}
    end.

Definition listBuckets : M (option (list string)) :=
  fun t => {| r_state := t; r_log := [E_listBuckets]; r_out := env_listBuckets e |}.

Definition createBucket (name : string) : M unit :=
  fun t => {| r_state := t; r_log := [E_createBucket name]; r_out := env_createBucket e |}.

Definition bundle (entry : string) : M string :=
  fun t => {| r_state := t; r_log := [E_bundle entry]; r_out := env_bundle e |}.

Definition selectComposition (serveUrl id : string) (m : Manifest) (analysis : value)
  : M unit :=
  fun t => {| r_state := t; r_log := [E_selectComposition serveUrl id m analysis];
              r_out := env_selectComposition e |}.

(** [renderMedia]: the engine calls [onProgress] with each value of
    [env_render_progress] and does not look at the promise it returns, then
    ends; a finished render leaves the output file. *)
Definition renderMedia (frames : number) (outputLocation : string) (m : Manifest)
    (analysis : value) (concurrency : number) (onProgress : Q → M unit) : M unit :=
  (emit (E_renderMedia frames outputLocation m analysis concurrency);;;
   for_of (env_render_progress e)
          (fun progress => try_catch (onProgress progress) (fun _ => ret tt));;;
   fun t =>
     match env_render e with
     | RenderDone =>
         {| r_state := with_files ({[outputLocation]} ∪ files t) t;
            r_log := []; r_out := Ret tt |}
     | RenderFails output_left =>
         {| r_state := if output_left
                       then with_files ({[outputLocation]} ∪ files t) t else t;
            r_log := []; r_out := Throw (CollaboratorError "renderMedia") |}
     end)%task.

(** ** The background render *)

Record job : Type := {
  videoId : string;
  outputLocation : string;
  manifest_id : value;
  analysis : value;
  meta : value                  (* transformedManifest.meta *)
}.

Definition PORT : Z := 3001.
Definition BUCKET_NAME : string := "narration-audio".
Definition outputDir : string := env_dirname e ++ "/public/videos".
Definition audioDir : string := env_dirname e ++ "/public/audio".

Definition nat_to_string (n : nat) : string := number_to_string (num_of_nat n).

Definition audioFileName (j : job) (i : nat) : string :=
  videoId j ++ "_scene_" ++ nat_to_string i ++ ".mp3".
Definition audioPath (j : job) (i : nat) : string :=
  audioDir ++ "/" ++ audioFileName j i.

Definition transformedManifest (j : job) (t : task) : Manifest :=
  {| manifest_meta := meta j; manifest_scenes := scenes t |}.

Definition set_audioUrl (url : value) (s : Scene) : Scene :=
  {| scene_id := scene_id s; scene_start := scene_start s;
     scene_duration := scene_duration s;
     scene_narration := {| narration_text := narration_text (scene_narration s);
                           narration_audioUrl := url |};
     scene_visuals := scene_visuals s |}.

(** The receiver of [.substring(0, 30)] in the log line of the loop. *)
Definition substring_receiver (v : value) : outcome string :=
  match v with
  | JStr s => Ret s
  | JUndefined | JNull => Throw (TypeError_read_of_nullish "substring")
  | _ => Throw (TypeError_not_a_function "substring")
  end.

(** [Math.round((i / totalScenes) * 25) + 5] *)
Definition audioProgress (i totalScenes : nat) : Z :=
  Math_round (inject_Z (Z.of_nat i) / inject_Z (Z.of_nat totalScenes) * 25) + 5.

(** The guard of the synthesis *)
Definition needs_audio (s : Scene) : bool :=
  truthy (narration_text (scene_narration s))
  && negb (truthy (narration_audioUrl (scene_narration s))).

(** The [try] block of one scene. *)
Definition synthesize_scene (j : job) (i : nat) (scene : Scene) : M unit :=
  (text ⇐ lift (substring_receiver (narration_text (scene_narration scene)));
   speak_request i text;;;
   stream ⇐ getStream i;
   if stream : bool then
     pipeline_to_file i (audioPath j i);;;
     fs_readFileSync i (audioPath j i);;;
     uploadError ⇐ storage_upload
                     (E_uploadAudio i BUCKET_NAME (audioFileName j i) "audio/mpeg")
                     BUCKET_NAME (audioFileName j i);
     if uploadError : bool then throw (CollaboratorError "uploadError")
     else
       let publicUrl := env_publicUrl e BUCKET_NAME (audioFileName j i) in
       modify (fun t => with_scenes (alter (set_audioUrl (JStr publicUrl)) i (scenes t)) t);;;
       modify (fun t => with_audioFiles (audioFiles t ++ [audioPath j i]) t);;;
       modify (fun t => with_supabaseAudioPaths
                          (supabaseAudioPaths t ++ [audioFileName j i]) t)
   else ret tt)%task.

(** The body of the loop over the scenes. *)
Definition scene_step (j : job) (totalScenes : nat) (i : nat) : M unit :=
  (scene ⇐ read (fun t => scenes t !! i);
   db (VideosUpdate (videoId j)
         {| f_video_url := None; f_status := None;
            f_progress := Some (audioProgress i totalScenes);
            f_progress_label :=
              Some ("Generating Audio (" ++ nat_to_string (i + 1) ++ "/"
                    ++ nat_to_string totalScenes ++ ")");
            f_isReady := None; f_storage_metadata := None |});;;
   match scene with
   | None => throw (TypeError_read_of_nullish "narration")
   | Some scene =>
       if needs_audio scene
       then try_catch (synthesize_scene j i scene) (fun _ => ret tt)
       else ret tt
   end)%task.

(** The callback given to [renderMedia]. *)
Definition onProgress (j : job) (progress : Q) : M unit :=
  (now ⇐ Date_now;
   last ⇐ read lastUpdate;
   if 1000 <? now - last then
     db (VideosUpdate (videoId j)
           {| f_video_url := None; f_status := None;
              f_progress := Some (30 + Math_round (progress * 60));
              f_progress_label :=
                Some ("Rendering (" ++ number_to_string (num_of_Z (Math_round (progress * 100)))
                      ++ "%)");
              f_isReady := None; f_storage_metadata := None |});;;
     now' ⇐ Date_now;
     modify (with_lastUpdate now')
   else ret tt)%task.

Definition ensure_bucket : M unit :=
  try_catch
    (buckets ⇐ listBuckets;
     if bool_decide (BUCKET_NAME ∈ default [] buckets) then ret tt
     else createBucket BUCKET_NAME)%task
    (fun _ => ret tt).

(** [process.env.RENDER_EXTERNAL_URL || `http://localhost:${PORT}`] *)
Definition publicHost : string :=
  let localhost := "http://localhost:" ++ number_to_string (num_of_Z PORT) in
  match env_RENDER_EXTERNAL_URL e with
  | Some url => if String.eqb url "" then localhost else url
  | None => localhost
  end.

Definition localVideoUrl (j : job) : string :=
  publicHost ++ "/videos/" ++ videoId j ++ ".mp4".

(** [process.env.REMOTION_CONCURRENCY ? parseInt(...) : 4] *)
Definition concurrency : number :=
  match env_REMOTION_CONCURRENCY e with
  | Some c => if String.eqb c "" then num_of_Z 4 else parseInt c
  | None => num_of_Z 4
  end.

(** The upload of the video: the URL the job ends with. *)
Definition publish_video (j : job) : M string :=
  let fileName := videoId j ++ ".mp4" in
  try_catch
    (uploadError ⇐ storage_upload (E_uploadVideo "videos" fileName "video/mp4")
                     "videos" fileName;
     if uploadError : bool then ret (localVideoUrl j)
     else ret (env_publicUrl e "videos" fileName))%task
    (fun _ => ret (localVideoUrl j)).

Definition completed_fields (videoUrl : string) (p : Plan) : job_fields :=
  {| f_video_url := Some videoUrl; f_status := Some "completed";
     f_progress := Some 100; f_progress_label := Some "Finished";
     f_isReady := Some true;
     f_storage_metadata := Some (totalDurationInSeconds p, durationInFrames p) |}.

Definition sync_artifacts (j : job) (videoUrl : string) : M unit :=
  (if truthy (manifest_id j) then
     videoData ⇐ db (VideosSelectManifestId (videoId j));
     if truthy (get_opt videoData "manifest_id") then
       id ⇐ lift (get videoData "manifest_id");
       manifestData ⇐ db (ManifestsSelectAnalysisId id);
       db (ArtifactsUpdate (get_opt manifestData "analysis_id") videoUrl "completed");;;
       ret tt
     else ret tt
   else ret tt)%task.

(** The [try] block of the background render, in four parts: up to the
    bundle, the loop over the scenes, the render, the publication. *)
Definition plan_and_bundle (j : job) : M (Plan * string) :=
  (ensure_bucket;;;
   m ⇐ read (transformedManifest j);
   p ⇐ lift (plan_render m);
   (if truthy (manifest_id j)
    then db (VideosUpsert (videoId j) (manifest_id j) "processing" 5 "Bundling project");;;
         ret tt
    else ret tt);;;
   bundled ⇐ bundle (env_dirname e ++ "/remotion/index.tsx");
   ret (p, bundled))%task.

Definition generate_audio (j : job) : M unit :=
  (totalScenes ⇐ read (fun t => length (scenes t));
   for_loop totalScenes 0 (scene_step j totalScenes))%task.

Definition render_video (j : job) (p : Plan) (bundled : string) : M unit :=
  (m ⇐ read (transformedManifest j);
   selectComposition bundled "LoanBriefing" m (analysis j);;;
   now ⇐ Date_now;
   modify (with_lastUpdate now);;;
   m' ⇐ read (transformedManifest j);
   renderMedia (durationInFrames p) (outputLocation j) m' (analysis j) concurrency
               (onProgress j))%task.

Definition publish (j : job) (p : Plan) : M unit :=
  (db (VideosUpdate (videoId j)
         {| f_video_url := None; f_status := None; f_progress := Some 95;
            f_progress_label := Some "Uploading to storage";
            f_isReady := None; f_storage_metadata := None |});;;
   videoUrl ⇐ publish_video j;
   db (VideosUpdate (videoId j) (completed_fields videoUrl p));;;
   sync_artifacts j videoUrl)%task.

Definition render_job (j : job) : M unit :=
  (pb ⇐ plan_and_bundle j;
   generate_audio j;;;
   render_video j (fst pb) (snd pb);;;
   publish j (fst pb))%task.

Definition failed_fields : job_fields :=
  {| f_video_url := None; f_status := Some "failed"; f_progress := None;
     f_progress_label := None; f_isReady := None; f_storage_metadata := None |}.

(** The [catch] block. *)
Definition mark_failed (j : job) : M unit :=
  (db (VideosUpdate (videoId j) failed_fields);;; ret tt)%task.

Definition unlink_if_exists (path : string) : M unit :=
  (there ⇐ fs_existsSync path;
   if there : bool then try_catch (fs_unlinkSync path) (fun _ => ret tt)
   else ret tt)%task.

(** The [finally] block. *)
Definition cleanup (j : job) : M unit :=
  (unlink_if_exists (outputLocation j);;;
   localPaths ⇐ read audioFiles;
   for_of localPaths unlink_if_exists;;;
   names ⇐ read supabaseAudioPaths;
   if (0 <? length names)%nat then
     try_catch
       (deleteError ⇐ storage_remove BUCKET_NAME names;
        if deleteError : bool then throw (CollaboratorError "deleteError") else ret tt)
       (fun _ => ret tt)
   else ret tt)%task.

Definition background_render (j : job) : M unit :=
  (modify (with_audioFiles []);;;
   modify (with_supabaseAudioPaths []);;;
   try_finally
     (try_catch (render_job j) (fun _ => mark_failed j))
     (cleanup j))%task.

(** ** The handler of [POST /generate-video] *)

Definition error_body (msg : string) : value := JObj [("error", JStr msg)].

(** The handler up to the point where it starts the background render:
    [Some j] is the job it starts, [None] a request it answered with an
    error. The template literal of the log line converts [manifest_id] to a
    string before the response is sent; the scenes of the normalised
    manifest become the [scenes] of the state, which the task mutates. *)
Definition generate_video (body : value) : M (option job) :=
  (manifest ⇐ lift (get body "manifest");
   analysis ⇐ lift (get body "analysis");
   manifest_id ⇐ lift (get body "manifest_id");
   if negb (truthy manifest) then
     emit (E_respond 400 (error_body "Missing manifest"));;; ret None
   else
     transformed ⇐ lift (transformManifest manifest);
     match transformed with
     | None => emit (E_respond 400 (error_body "Invalid or empty manifest"));;; ret None
     | Some m =>
         if (length (manifest_scenes m) =? 0)%nat then
           emit (E_respond 400 (error_body "Invalid or empty manifest"));;; ret None
         else
           id ⇐ randomUUID;
           _ ⇐ lift (to_string manifest_id);
           emit (E_respond 200 (JObj [("videoId", JStr id);
                                      ("status", JStr "processing")]));;;
           modify (with_scenes (manifest_scenes m));;;
           ret (Some {| videoId := id;
                        outputLocation := outputDir ++ "/" ++ id ++ ".mp4";
                        manifest_id := manifest_id;
                        analysis := analysis;
                        meta := manifest_meta m |})
     end)%task.

(** A request from its arrival to the end of the work it started. *)
Definition handle_request (body : value) : M unit :=
  (started ⇐ generate_video body;
   match started with
   | Some j => background_render j
   | None => ret tt
   end)%task.

End Service.

(** ** What a run shows *)

(** The scene a call of the loop over the scenes belongs to. *)
Definition scene_event_index (ev : event) : option nat :=
  match ev with
  | E_speak i _ _ | E_getStream i | E_pipeline i _ | E_readFile i _
  | E_uploadAudio i _ _ _ => Some i
  | _ => None
  end.

(** The progress a request to the database carries. *)
Definition progress_of (ev : event) : option Z :=
  match ev with
  | E_db (VideosUpsert _ _ _ progress _) => Some progress
  | E_db (VideosUpdate _ fields) => f_progress fields
  | _ => None
  end.

Definition progress_written (log : list event) : list Z := omap progress_of log.

(** The status a request to the database writes. *)
Definition status_of (ev : event) : option string :=
  match ev with
  | E_db (VideosUpsert _ _ status _ _) => Some status
  | E_db (VideosUpdate _ fields) => f_status fields
  | _ => None
  end.

Definition job_store_reliable (e : env) : Prop := ∀ n, returns (env_db e n).

(** A scene with a text to speak and no audio yet. *)
Definition wants_speech (s : Scene) (txt : string) : Prop :=
  narration_text (scene_narration s) = JStr txt
  ∧ txt ≠ ""
  ∧ truthy (narration_audioUrl (scene_narration s)) = false.

Section Observations.
Context `{JSRuntime}.
Variable e : env.
Variable j : job.

(** Every step of the synthesis of scene [i] succeeds. *)
Definition audio_ready (i : nat) (s : Scene) : bool :=
  needs_audio s
  && match narration_text (scene_narration s) with JStr _ => true | _ => false end
  && match env_speak e i with Ret _ => true | Throw _ => false end
  && match env_getStream e i with Ret true => true | _ => false end
  && match env_pipeline e i with PipelineDone => true | PipelineFails _ => false end
  && match env_readFile e (audioPath e j i) with Ret _ => true | Throw _ => false end
  && match env_upload e BUCKET_NAME (audioFileName j i) with
     | UploadStored => true
     | _ => false
     end.

Definition audio_result (i : nat) (s : Scene) : Scene :=
  if audio_ready i s
  then set_audioUrl (JStr (env_publicUrl e BUCKET_NAME (audioFileName j i))) s
  else s.

(** The scenes after the loop, from scene [i] on. *)
Fixpoint with_audio (i : nat) (l : list Scene) : list Scene :=
  match l with
  | [] => []
  | s :: rest => audio_result i s :: with_audio (S i) rest
  end.

(** The [try] and [catch] blocks of the background render. *)
Definition guarded_render_job : M unit :=
  try_catch (render_job e j) (fun _ => mark_failed e j).

End Observations.

(** The state in which the [try] block starts. *)
Definition fresh_task (t : task) : task :=
  with_supabaseAudioPaths [] (with_audioFiles [] t).

(** The calls made for scene [i] are made for a scene of [l0] that wants
    speech. *)
Definition justified (l0 : list Scene) (ev : event) : Prop :=
  ∀ i, scene_event_index ev = Some i → ∃ s txt, l0 !! i = Some s ∧ wants_speech s txt.

(** A scene that still passes the guard has the text it had in [l0], where
    it passed the guard too. *)
Definition guard_stable (l0 : list Scene) (t : task) : Prop :=
  ∀ k s, scenes t !! k = Some s → needs_audio s = true →
         ∃ s0, l0 !! k = Some s0 ∧ needs_audio s0 = true
               ∧ narration_text (scene_narration s0) = narration_text (scene_narration s).

(** Progress values in order, all between [lo] and [hi]. *)
Definition band (lo hi : Z) (l : list Z) : Prop :=
  StronglySorted Z.le l ∧ Forall (fun x => lo ≤ x ≤ hi) l.

(** The progress a request of the render callback carries. *)
Definition renderProgress (progress : Q) : Z := 30 + Math_round (progress * 60).

(** [emits lo hi m]: the progress values a run of [m] writes are in order
    and between [lo] and [hi]. *)
Definition emits {A} (lo hi : Z) (m : M A) : Prop :=
  ∀ t, band lo hi (progress_written (r_log (m t))).

(** A call that writes no progress. *)
Definition no_progress (ev : event) : Prop := progress_of ev = None.

(** Every object of the audio bucket was there before or is tracked. *)
Definition remote_tracked (before : gset (string * string)) (t : task) : Prop :=
  ∀ name, (BUCKET_NAME, name) ∈ objects t →
          (BUCKET_NAME, name) ∈ before ∨ name ∈ supabaseAudioPaths t.

(** ** Statements about runs *)

(** [keeps I P m]: a run of [m] from a state where [I] holds ends in a state
    where [I] holds, and every call it logs satisfies [P]. *)
Definition keeps {A} (I : task → Prop) (P : event → Prop) (m : M A) : Prop :=
  ∀ t, I t → I (r_state (m t)) ∧ Forall P (r_log (m t)).

(** [wp m t Q]: the run of [m] from [t] satisfies [Q]. *)
Definition wp {A} (m : M A) (t : task) (Q : result A → Prop) : Prop := Q (m t).

(** ** The inputs that normalisation accepts *)

(** ToString returns for [v]: no object with a [toString] key of its own is
    reached. *)
Fixpoint printable (v : value) : bool :=
  match v with
  | JArr l => forallb printable l
  | JObj o => negb (has_own "toString" o)
  | _ => true
  end.

(** The callback of [rawComponents.map] returns for [component]. *)
Definition component_normalises (component : value) : bool :=
  match component with
  | JUndefined | JNull => false
  | _ =>
      if strict_eq_string (get_opt component "type") "recommendation" then
        match get_opt component "rationale" with
        | JArr l => forallb printable l
        | _ => true
        end
      else true
  end.

(** [scene.components || scene.visuals?.components || []] *)
Definition rawComponents (scene : value) : value :=
  if truthy (get_opt scene "components") then get_opt scene "components"
  else js_or (get_opt (get_opt scene "visuals") "components") (JArr []).

(** The callback of [scenes.map] returns for [scene]. *)
Definition scene_normalises (scene : value) : bool :=
  match scene with
  | JUndefined | JNull => false
  | _ =>
      match rawComponents scene with
      | JArr l => forallb component_normalises l
      | _ => false
      end
      && match get_opt scene "narration" with
         | JNull => false
         | _ => true
         end
  end.

Definition manifest_normalises (aiManifest : value) : bool :=
  negb (truthy aiManifest)
  || match js_or (get_opt aiManifest "scenes") (JArr []) with
     | JArr l => forallb scene_normalises l
     | _ => false
     end.

(** ** What the handler and the background render show *)

(** The response a call sends. *)
Definition response_of (ev : event) : option (Z * value) :=
  match ev with
  | E_respond status body => Some (status, body)
  | _ => None
  end.

Definition responses (log : list event) : list (Z * value) := omap response_of log.

(** [{ videoId, status: 'processing' }] *)
Definition accepted_body (id : string) : value :=
  JObj [("videoId", JStr id); ("status", JStr "processing")].

(** The row of the table [videos] a request addresses. *)
Definition videos_row (ev : event) : option string :=
  match ev with
  | E_db (VideosUpsert id _ _ _ _) | E_db (VideosUpdate id _)
  | E_db (VideosSelectManifestId id) => Some id
  | _ => None
  end.

(** A request that only updates the row of a job. *)
Definition update_only (ev : event) : Prop :=
  match ev with
  | E_db (VideosUpdate _ _) => True
  | E_db _ => False
  | _ => True
  end.

(** The bucket is created only under its name, after a listing that
    returned without it. *)
Definition bucket_missing (e : env) : Prop :=
  ∃ buckets, env_listBuckets e = Ret buckets ∧ BUCKET_NAME ∉ default [] buckets.

Definition creation_justified (e : env) (ev : event) : Prop :=
  match ev with
  | E_createBucket name => name = BUCKET_NAME ∧ bucket_missing e
  | _ => True
  end.

(** The scenes [l] are the scenes [l0] but for the audio URL the synthesis
    of a scene has set. *)
Definition audio_only `{JSRuntime} (e : env) (j : job) (l0 l : list Scene) : Prop :=
  length l = length l0
  ∧ ∀ i s', l !! i = Some s' →
      ∃ s, l0 !! i = Some s
           ∧ (s' = s
              ∨ (needs_audio s = true
                 ∧ s' = set_audioUrl
                          (JStr (env_publicUrl e BUCKET_NAME (audioFileName j i))) s)).

(** The two lists of the cleanup go together and hold names of the job. *)
Definition tracks_own `{JSRuntime} (e : env) (j : job) (t : task) : Prop :=
  audioFiles t = (fun name => audioDir e ++ "/" ++ name) <$> supabaseAudioPaths t
  ∧ Forall (fun name => ∃ i, name = audioFileName j i) (supabaseAudioPaths t).

(** Nothing that was there at the start is gone. *)
Definition nothing_deleted (files0 : gset string) (objects0 : gset (string * string))
    (t : task) : Prop :=
  files0 ⊆ files t ∧ objects0 ⊆ objects t.

(** The last write of the render callback was made at a reading of the
    clock. *)
Definition written_at_reading (e : env) (t : task) : Prop :=
  ∃ k, (k < clock_reads t)%nat ∧ lastUpdate t = env_now e k.

(** A call that is no request to the database. *)
Definition no_request (ev : event) : Prop :=
  match ev with
  | E_db _ => False
  | _ => True
  end.

(** ** The composition ([Main.tsx])

    What [Main] gives to [Series]: one sequence for each scene, with its
    key, its length in frames and the source of its [Audio], when it has
    one. A [manifest] that is [null] (the default of [Root.tsx]) renders
    nothing. *)

Record Sequence : Type := {
  sequence_key : value;
  sequence_durationInFrames : number;
  sequence_scene : Scene;
  sequence_audio : option value
}.

Section Composition.
Context `{JSRuntime}.

(** The callback of [manifest.scenes.map]. *)
Definition scene_sequence (fps : value) (scene : Scene) (index : nat) : outcome Sequence :=
  (prod ←! js_mul (scene_duration scene) fps;
   Ret {| sequence_key := js_or (scene_id scene) (JNum (num_of_nat index));
          sequence_durationInFrames := Math_max (num_of_Z 1) (Math_floor prod);
          sequence_scene := scene;
          sequence_audio :=
            let audioUrl := narration_audioUrl (scene_narration scene) in
            if truthy audioUrl then Some audioUrl else None |})%js.

Definition Main (manifest : option Manifest) : outcome (option (list Sequence)) :=
  match manifest with
  | None => Ret None
  | Some m =>
      (f ←! get (manifest_meta m) "fps";
       let fps := js_or f (JNum (num_of_Z 30)) in
       sequences ←! map_indexed (scene_sequence fps) (manifest_scenes m) 0;
       Ret (Some sequences))%js
  end.

End Composition.


(** ** The layout of a scene ([Scene.tsx])

    The elements the component pushes for the visual components of a scene:
    a row for each run of [data_card] components, a fragment for any other
    component. Each component goes to [renderComponent] with an index. *)

Inductive element : Type :=
| DataCards (key : nat) (cards : list (value * nat))
| Fragment (key : nat) (component : value).

(** [component.type === 'data_card'] *)
Definition is_data_card (component : value) : outcome bool :=
  (ty ←! get component "type"; Ret (strict_eq_string ty "data_card"))%js.

(** The inner [while]: [None] when the fuel runs out before the loop ends. *)
Fixpoint collect_data_cards (fuel : nat) (components dataCards : list value) (j : nat)
  : option (outcome (list value * nat)) :=
  match fuel with
  | O => None
  | S fuel =>
      match components !! j with
      | None => Some (Ret (dataCards, j))
      | Some component =>
          match is_data_card component with
          | Throw err => Some (Throw err)
          | Ret true =>
              collect_data_cards fuel components (dataCards ++ [component]) (S j)
          | Ret false => Some (Ret (dataCards, j))
          end
      end
  end.

(** The outer [while]. *)
Fixpoint group_components (fuel : nat) (components : list value)
    (groupedElements : list element) (i : nat) : option (outcome (list element)) :=
  match fuel with
  | O => None
  | S fuel =>
      match components !! i with
      | None => Some (Ret groupedElements)
      | Some currentComp =>
          match is_data_card currentComp with
          | Throw err => Some (Throw err)
          | Ret true =>
              match collect_data_cards (S (length components)) components
                      [currentComp] (S i) with
              | None => None
              | Some (Throw err) => Some (Throw err)
              | Some (Ret (dataCards, j)) =>
                  group_components fuel components
                    (groupedElements
                     ++ [DataCards i (imap (fun cardIdx card => (card, i + cardIdx)%nat)
                                           dataCards)])
                    j
              end
          | Ret false =>
              group_components fuel components
                (groupedElements ++ [Fragment i currentComp]) (S i)
          end
      end
  end.

(** [scene?.visuals?.components || []], grouped. *)
Definition Scene_elements (scene : Scene) : option (outcome (list element)) :=
  let components := visuals_components (scene_visuals scene) in
  group_components (S (length components)) components [] 0.

(** The calls of [renderComponent] an element makes. *)
Definition rendered (el : element) : list (value * nat) :=
  match el with
  | DataCards _ cards => cards
  | Fragment key component => [(component, key)]
  end.

(** The components [l], each with its index, from [i] on. *)
Definition indexed (i : nat) (l : list value) : list (value * nat) :=
  imap (fun k component => (component, i + k)%nat) l.

(** A row holds data cards, the first of which gives the key; a fragment
    holds a component that is no data card. *)
Definition well_grouped (el : element) : Prop :=
  match el with
  | DataCards key cards =>
      (∃ card, head cards = Some (card, key))
      ∧ Forall (fun c => is_data_card c.1 = Ret true) cards
  | Fragment _ component => is_data_card component = Ret false
  end.

Definition is_row (el : element) : bool :=
  match el with
  | DataCards _ _ => true
  | Fragment _ _ => false
  end.

(** No row follows a row. *)
Fixpoint rows_apart (l : list element) : Prop :=
  match l with
  | [] => True
  | el :: rest =>
      match rest with
      | next :: _ => is_row el && is_row next = false
      | [] => True
      end
      ∧ rows_apart rest
  end.

Section RuntimeLayout.
Context `{JSRuntime}.

(** The rationale the [recommendation] case of [renderComponent] prints. *)
Definition rationale_text (component : value) : outcome string :=
  (rationale ←! get component "rationale";
   match rationale with
   | JStr s => Ret s
   | JArr l => join ". " l
   | _ => Ret ""
   end)%js.

End RuntimeLayout.

(** ** Data of the examples *)

(** A runtime for the examples: an integer prints in decimal (other numbers
    as their integer part), no string reads as a number. The theorems hold
    for every runtime. *)
Definition example_runtime : JSRuntime :=
  {| number_to_string := fun n =>
       match n with
       | NaN => "NaN"
       | Inf negative => if negative then "-Infinity" else "Infinity"
       | Fin q => pretty (Qfloor q)
       end;
     string_to_number := fun _ => NaN;
     parseInt := fun _ => NaN |}.



Definition negative_duration_scene : value :=
  JObj [("duration", JNum (num_of_Z (-5))); ("narration", JStr "Hello")].

Definition partial_meta_manifest : value :=
  JObj [("meta", JObj [("theme", JStr "light")]);
        ("scenes", JArr [JObj [("narration", JStr "Hello")]])].

Definition zero_duration_scene : value :=
  JObj [("duration", JNum (num_of_Z 0)); ("narration", JStr "Hello")].

Definition plain_scene : value := JObj [("narration", JStr "Hello")].

Definition no_meta_manifest : value := JObj [("scenes", JArr [plain_scene])].

Definition null_narration_fields : list (string * value) :=
  [("scenes", JArr [plain_scene; JObj [("narration", JNull)]])].

Definition empty_manifest_body : value :=
  JObj [("manifest", JObj [("scenes", JArr [])])].

(** The scene [{narration: "Hello"}] at index [idx], normalised. *)
Definition normalized_scene (idx : string) (seconds : Z) : Scene :=
  {| scene_id := JStr ("scene_" ++ idx); scene_start := JNum (num_of_Z 0);
     scene_duration := JNum (num_of_Z seconds);
     scene_narration := {| narration_text := JStr "Hello"; narration_audioUrl := JNull |};
     scene_visuals := {| visuals_layout := JStr "centered"; visuals_components := [] |} |}.

Definition spoken_scene (txt : string) (url : value) : Scene :=
  {| scene_id := JStr "s"; scene_start := JNum (num_of_Z 0);
     scene_duration := JNum (num_of_Z 5);
     scene_narration := {| narration_text := JStr txt; narration_audioUrl := url |};
     scene_visuals := {| visuals_layout := JStr "centered"; visuals_components := [] |} |}.

(** An environment in which every call succeeds, but for: the speech of the
    scenes [silent] says are refused, the uploads to the two buckets, the
    deletions of local files and the batch removal, which answer as given. *)
Definition example_env (silent : nat → bool) (audio video : upload_result)
    (unlink_fails : bool) (removal : remove_result) : env :=
  {| env_dirname := "/app";
     env_randomUUID := "job-1";
     env_RENDER_EXTERNAL_URL := None;
     env_REMOTION_CONCURRENCY := None;
     env_listBuckets := Ret (Some ["narration-audio"]);
     env_createBucket := Ret tt;
     env_db := fun _ => Ret JNull;
     env_bundle := Ret "bundle";
     env_speak := fun i => if silent i then Throw (CollaboratorError "speak") else Ret tt;
     env_getStream := fun _ => Ret true;
     env_pipeline := fun _ => PipelineDone;
     env_readFile := fun _ => Ret tt;
     env_upload := fun bucket _ => if String.eqb bucket "videos" then video else audio;
     env_publicUrl := fun bucket name => "https://storage/" ++ bucket ++ "/" ++ name;
     env_selectComposition := Ret tt;
     env_render_progress := [0; 1 # 2; 1]%Q;
     env_render := RenderDone;
     env_now := fun n => 2000 * Z.of_nat n;
     env_unlink_fails := fun _ => unlink_fails;
     env_remove := removal |}.

Definition calm_env : env :=
  example_env (fun _ => false) UploadStored UploadStored false RemoveDone.

(** The speech of the first scene is refused. *)
Definition first_scene_silent_env : env :=
  example_env (fun i => Nat.eqb i 0) UploadStored UploadStored false RemoveDone.

(** The upload of the video answers with an error. *)
Definition video_upload_error_env : env :=
  example_env (fun _ => false) UploadStored UploadError false RemoveDone.

(** No local file can be deleted and the batch removal answers with an error. *)
Definition stubborn_env : env :=
  example_env (fun _ => false) UploadStored UploadStored true RemoveError.

(** The upload of a scene's audio answers with an error. *)
Definition audio_upload_error_env : env :=
  example_env (fun _ => false) UploadError UploadStored false RemoveDone.

Definition job1 : job :=
  {| videoId := "job-1"; outputLocation := "/app/public/videos/job-1.mp4";
     manifest_id := JStr "m1"; analysis := JNull; meta := default_meta |}.

Definition task1 : task :=
  {| files := ∅; objects := ∅; db_requests := 0; clock_reads := 0;
     scenes := [spoken_scene "Hello" JNull; spoken_scene "World" JNull];
     audioFiles := []; supabaseAudioPaths := []; lastUpdate := 0 |}.

Definition plan1 : Plan :=
  {| plan_fps := JNum (num_of_Z 30);
     totalDurationInSeconds := JNum (num_of_Z 10);
     durationInFrames := num_of_Z 300 |}.

(** The sum of the durations, in the order of the scenes. *)
Definition Qsum (ds : list Q) : Q := foldr Qplus 0%Q ds.

(** Data of the examples for the composition, the layout and the handler. *)

Definition recommendation_fields : list (string * value) :=
  [("type", JStr "recommendation"); ("decision", JStr "approve");
   ("rationale", JArr [JStr "Strong cash flow"; JStr "Low leverage"])].

Definition hologram : value := JObj [("type", JStr "hologram")].

Definition data_card (title : string) : value :=
  JObj [("type", JStr "data_card"); ("title", JStr title)].

Definition dashboard_components : list value :=
  [JObj [("type", JStr "title"); ("text", JStr "Overview")];
   data_card "Revenue"; data_card "EBITDA"; hologram; data_card "Leverage"].


Definition dashboard_scene : Scene :=
  {| scene_id := JStr "scene_0"; scene_start := JNum (num_of_Z 0);
     scene_duration := JNum (num_of_Z 10);
     scene_narration := {| narration_text := JStr "Hello"; narration_audioUrl := JNull |};
     scene_visuals := {| visuals_layout := JStr "centered";
                         visuals_components := dashboard_components |} |}.

Definition dashboard_elements : list element :=
  [Fragment 0 (JObj [("type", JStr "title"); ("text", JStr "Overview")]);
   DataCards 1 [(data_card "Revenue", 1%nat); (data_card "EBITDA", 2%nat)];
   Fragment 3 hologram;
   DataCards 4 [(data_card "Leverage", 4%nat)]].

Definition accepted_request : value :=
  JObj [("manifest", no_meta_manifest); ("manifest_id", JStr "m1")].

Definition unprintable_request : value :=
  JObj [("manifest", no_meta_manifest);
        ("manifest_id", JObj [("toString", JNum (num_of_Z 1))])].

Definition no_meta_normalised : Manifest :=
  {| manifest_meta := default_meta; manifest_scenes := [normalized_scene "0" 10] |}.

Definition anonymous_job : job :=
  {| videoId := "job-1"; outputLocation := "/app/public/videos/job-1.mp4";
     manifest_id := JNull; analysis := JNull; meta := default_meta |}.

(** [calm_env] with a clock that stands still. *)
Definition frozen_clock_env : env :=
  {| env_dirname := env_dirname calm_env;
     env_randomUUID := env_randomUUID calm_env;
     env_RENDER_EXTERNAL_URL := env_RENDER_EXTERNAL_URL calm_env;
     env_REMOTION_CONCURRENCY := env_REMOTION_CONCURRENCY calm_env;
     env_listBuckets := env_listBuckets calm_env;
     env_createBucket := env_createBucket calm_env;
     env_db := env_db calm_env;
     env_bundle := env_bundle calm_env;
     env_speak := env_speak calm_env;
     env_getStream := env_getStream calm_env;
     env_pipeline := env_pipeline calm_env;
     env_readFile := env_readFile calm_env;
     env_upload := env_upload calm_env;
     env_publicUrl := env_publicUrl calm_env;
     env_selectComposition := env_selectComposition calm_env;
     env_render_progress := env_render_progress calm_env;
     env_render := env_render calm_env;
     env_now := fun _ => 0;
     env_unlink_fails := env_unlink_fails calm_env;
     env_remove := env_remove calm_env |}.

(** The series of the manifest the loop leaves when the speech of the first
    scene is refused. *)
Definition half_spoken_series : list Sequence :=
  let scene (txt : string) (url : value) (key : string) :=
    {| sequence_key := JStr key;
       sequence_durationInFrames := num_of_Z 150;
       sequence_scene := spoken_scene txt url;
       sequence_audio := if truthy url then Some url else None |} in
  [scene "Hello" JNull "s";
   scene "World" (JStr "https://storage/narration-audio/job-1_scene_1.mp3") "s"].

(** ** Facts about the runtime layer *)

Lemma obind_Ret_inv {A B} (m : outcome A) (k : A → outcome B) (b : B) :
  obind m k = Ret b → ∃ a, m = Ret a ∧ k a = Ret b.
Proof. destruct m as [a|err]; simpl; [eauto | discriminate]. Qed.

Lemma obind_throws {A B} (m : outcome A) (k : A → outcome B) :
  throws m → throws (obind m k).
Proof. intros [err ->]. by exists err. Qed.

Lemma returns_or_throws {A} (m : outcome A) : returns m ∨ throws m.
Proof. destruct m as [a|err]; [left; by exists a | right; by exists err]. Qed.

Lemma returns_not_throws {A} (m : outcome A) : returns m → throws m → False.
Proof. intros [a ->] [err Herr]. discriminate. Qed.

(** Reading a property of anything but [null] and [undefined] returns. *)
Lemma get_truthy (v : value) (prop : string) :
  truthy v = true → get v prop = Ret (get_opt v prop).
Proof. by destruct v. Qed.

Lemma get_object (o : list (string * value)) (prop : string) :
  get (JObj o) prop = Ret (default JUndefined (own_property prop o)).
Proof. reflexivity. Qed.

Lemma get_Ret_inv (v : value) (prop : string) (w : value) :
  get v prop = Ret w → w = get_opt v prop ∧ ∀ prop', get v prop' = Ret (get_opt v prop').
Proof. destruct v; simpl; intros; by simplify_eq. Qed.

(** Only an object has a [type] that is a string: the spread of
    [transformComponent] is the spread of an object. *)
Lemma typed_component_is_object (component ty : value) (s : string) :
  get component "type" = Ret ty →
  strict_eq_string ty s = true →
  ∃ o, component = JObj o.
Proof. destruct component; simpl; intros; simplify_eq; eauto; done. Qed.

Lemma map_indexed_throws {A B} (f : A → nat → outcome B) (l : list A) (k i : nat) (x : A) :
  l !! k = Some x → throws (f x (i + k)%nat) → throws (map_indexed f l i).
Proof.
  revert k i. induction l as [|y l IH]; intros k i Hk Hthrow; [done|].
  simpl. destruct k as [|k]; simpl in Hk.
  - simplify_eq. rewrite Nat.add_0_r in Hthrow. by apply obind_throws.
  - destruct (f y i) as [b|err]; [|by exists err]. simpl.
    assert (throws (map_indexed f l (S i))) as [err ->]; [|by exists err].
    apply (IH k); [done|]. by replace (S i + k)%nat with (i + S k)%nat by lia.
Qed.

Lemma map_indexed_length {A B} (f : A → nat → outcome B) (l : list A) (i : nat) (l' : list B) :
  map_indexed f l i = Ret l' → length l' = length l.
Proof.
  revert i l'. induction l as [|x l IH]; intros i l' Hmap; simpl in Hmap.
  - by simplify_eq.
  - apply obind_Ret_inv in Hmap as (y & _ & Hmap).
    apply obind_Ret_inv in Hmap as (ys & Hys & Hmap). simplify_eq.
    simpl. f_equal. by eapply IH.
Qed.

Section RuntimeFacts.
Context `{JSRuntime}.

(** The log line of the render plan prints the frame rate after the
    product has converted it to a number: the template literal cannot throw
    where the product did not. *)
Lemma to_number_to_string (v : value) (n : number) :
  to_number v = Ret n → returns (to_string v).
Proof.
  unfold to_number, to_primitive. intros Hn.
  destruct v; try (by eexists).
  - destruct (to_string (JArr l)) as [s|err]; [by exists s | done].
  - destruct (to_string (JObj o)) as [s|err]; [by exists s | done].
Qed.

Lemma js_add_numbers (x y : Q) :
  js_add (JNum (Fin x)) (JNum (Fin y)) = Ret (JNum (Fin (x + y))).
Proof. reflexivity. Qed.

Lemma js_mul_numbers (x y : Q) :
  js_mul (JNum (Fin x)) (JNum (Fin y)) = Ret (Fin (x * y)).
Proof. reflexivity. Qed.

Lemma Math_max_integers (a b : Z) :
  Math_max (num_of_Z a) (num_of_Z b) = num_of_Z (Z.max a b).
Proof.
  unfold Math_max, num_of_Z.
  destruct (Qle_bool (inject_Z a) (inject_Z b)) eqn:Hle.
  - apply Qle_bool_iff in Hle. rewrite <- Zle_Qle in Hle. by rewrite Z.max_r.
  - assert (¬ a ≤ b) as Hgt.
    { intros Hab. rewrite Zle_Qle in Hab. apply Qle_bool_iff in Hab. congruence. }
    rewrite Z.max_l; [done | lia].
Qed.

Lemma reduce_durations_numbers (scs : list Scene) (ds : list Q) (acc : Q) :
  Forall2 (fun s d => scene_duration s = JNum (Fin d)) scs ds →
  reduce_durations (JNum (Fin acc)) scs = Ret (JNum (Fin (fold_left Qplus ds acc))).
Proof.
  intros Hds. revert acc. induction Hds as [|s d scs ds Hd _ IH]; intros acc; [done|].
  simpl. rewrite Hd, js_add_numbers. simpl. apply IH.
Qed.

End RuntimeFacts.

Lemma fold_left_Qplus (ds : list Q) (acc : Q) :
  (fold_left Qplus ds acc == acc + Qsum ds)%Q.
Proof.
  revert acc. induction ds as [|d ds IH]; intros acc; simpl.
  - unfold Qsum; simpl. ring.
  - rewrite IH. unfold Qsum; simpl. ring.
Qed.

(** ** Normalisation and planning *)

Section Normalisation.
Context `{JSRuntime}.


(** The frame rate read when [meta] has none: 30. *)
Lemma total_frames_default_rate (m : Manifest) (ds : list Q) :
  Forall2 (fun s d => scene_duration s = JNum (Fin d)) (manifest_scenes m) ds →
  get (manifest_meta m) "fps" = Ret JUndefined →
  ∃ p, plan_render m = Ret p
       ∧ durationInFrames p = num_of_Z (Z.max 1 (Qfloor (Qsum ds * 30))).
Proof.
  intros Hds Hfps. unfold plan_render. rewrite Hfps. cbn [obind].
  change (num_of_Z 0) with (Fin (inject_Z 0)).
  rewrite (reduce_durations_numbers _ ds) by done. cbn [obind].
  change (js_or JUndefined (JNum (num_of_Z 30))) with (JNum (Fin (inject_Z 30))).
  rewrite js_mul_numbers. cbn [obind].
  eexists; split; [reflexivity|]. cbn [durationInFrames Math_floor].
  rewrite Math_max_integers. do 2 f_equal.
  apply Qfloor_comp. rewrite fold_left_Qplus. unfold inject_Z. ring.
Qed.

Lemma transformScene_duration (scene : value) (idx : nat) (s : Scene) :
  transformScene scene idx = Ret s →
  scene_duration s = js_or (get_opt scene "duration") (JNum (num_of_Z 10)).
Proof.
  unfold transformScene. intros Hs.
  apply obind_Ret_inv in Hs as (c & Hc & Hs).
  apply get_Ret_inv in Hc as [_ Hget].
  repeat (apply obind_Ret_inv in Hs as (? & ? & Hs)).
  match goal with
  | Hd : get scene "duration" = Ret _ |- _ => rewrite Hget in Hd
  end.
  by simplify_eq.
Qed.

(** C8, as the code has it. The normalised duration of a scene is its raw
    duration when that is truthy, and 10 otherwise: 10 for an absent, null
    or zero duration, the number itself for any other number, a negative
    one included. *)
Theorem normalized_duration (scene : value) (idx : nat) (s : Scene) :
  transformScene scene idx = Ret s →
  (truthy (get_opt scene "duration") = false →
   scene_duration s = JNum (num_of_Z 10))
  ∧ (∀ q, get_opt scene "duration" = JNum (Fin q) → ¬ (q == 0)%Q →
          scene_duration s = JNum (Fin q)).
Proof.
  intros Hs. rewrite (transformScene_duration _ _ _ Hs). unfold js_or. split.
  - by intros ->.
  - intros q -> Hq. simpl.
    destruct (Qeq_bool q 0) eqn:Heq; [|done]. by apply Qeq_bool_iff in Heq.
Qed.

(** C9, as the code has it. A raw manifest without [meta] gets the default
    object as a whole; a [meta] that the input supplies is kept as it is,
    without a default for the fields it omits; the frame rate alone falls
    back to 30 when the render is planned. *)
Theorem meta_defaults (aiManifest : value) (m : Manifest) :
  transformManifest aiManifest = Ret (Some m) →
  manifest_meta m = (if truthy (get_opt aiManifest "meta")
                     then get_opt aiManifest "meta" else default_meta)
  ∧ get default_meta "version" = Ret (JStr "1.0")
  ∧ get default_meta "theme" = Ret (JStr "institutional-dark")
  ∧ get default_meta "resolution" = Ret (JStr "1920x1080")
  ∧ get default_meta "fps" = Ret (JNum (num_of_Z 30))
  ∧ (∀ p, plan_render m = Ret p →
          plan_fps p = js_or (get_opt (manifest_meta m) "fps") (JNum (num_of_Z 30))).
Proof.
  unfold transformManifest. intros Hm.
  destruct (truthy aiManifest) eqn:Htruthy; simpl in Hm; [|done].
  rewrite !(get_truthy _ _ Htruthy) in Hm. simpl in Hm.
  apply obind_Ret_inv in Hm as (scs & _ & Hm). simplify_eq. simpl.
  repeat split; try done.
  intros p Hp. unfold plan_render in Hp. simpl in Hp.
  apply obind_Ret_inv in Hp as (f & Hf & Hp).
  apply get_Ret_inv in Hf as [-> _].
  repeat (apply obind_Ret_inv in Hp as (? & _ & Hp)). by simplify_eq.
Qed.

Lemma transformScene_null_narration (o : list (string * value)) (idx : nat) :
  own_property "narration" o = Some JNull →
  throws (transformScene (JObj o) idx).
Proof.
  intros Hnull. unfold transformScene. rewrite !get_object, Hnull. simpl.
  match goal with
  | |- throws (obind ?rc _) => destruct rc as [rawComponents|err]; [|by exists err]
  end.
  simpl.
  destruct (js_map _ rawComponents) as [components|err]; [|by exists err].
  simpl. destruct (truthy _); simpl; by eexists.
Qed.

(** Normalisation stops at a scene whose narration is [null]. *)
Lemma transformManifest_null_narration (fields o : list (string * value)) (l : list value) :
  own_property "scenes" fields = Some (JArr l) →
  JObj o ∈ l →
  own_property "narration" o = Some JNull →
  throws (transformManifest (JObj fields)).
Proof.
  intros Hscenes Hin Hnull. unfold transformManifest. simpl.
  rewrite Hscenes. simpl.
  apply list_elem_of_lookup in Hin as [k Hk].
  destruct (map_indexed_throws transformScene l k 0 (JObj o) Hk) as [err ->];
    [|by exists err].
  by apply transformScene_null_narration.
Qed.

End Normalisation.

(** ** Runs of the task monad *)

Lemma bind_Ret {A B} (m : M A) (k : A → M B) (t : task) (a : A) :
  r_out (m t) = Ret a → bind m k t = after (m t) (k a (r_state (m t))).
Proof. unfold bind. by intros ->. Qed.

Lemma bind_Throw {A B} (m : M A) (k : A → M B) (t : task) (err : js_error) :
  r_out (m t) = Throw err →
  bind m k t = {| r_state := r_state (m t); r_log := r_log (m t); r_out := Throw err |}.
Proof. unfold bind. by intros ->. Qed.

Lemma try_catch_Ret {A} (m : M A) (h : js_error → M A) (t : task) (a : A) :
  r_out (m t) = Ret a → try_catch m h t = m t.
Proof. unfold try_catch. by intros ->. Qed.

Section Keeps.
Context (I : task → Prop) (P : event → Prop).

Lemma keeps_ret {A} (a : A) : keeps I P (ret a).
Proof. intros t Ht. by split; [|constructor]. Qed.

Lemma keeps_throw {A} (err : js_error) : keeps I P (@throw A err).
Proof. intros t Ht. by split; [|constructor]. Qed.

Lemma keeps_lift {A} (o : outcome A) : keeps I P (lift o).
Proof. intros t Ht. by split; [|constructor]. Qed.

Lemma keeps_read {A} (f : task → A) : keeps I P (read f).
Proof. intros t Ht. by split; [|constructor]. Qed.

Lemma keeps_emit (ev : event) : P ev → keeps I P (emit ev).
Proof. intros Hev t Ht. split; [done|]. by repeat constructor. Qed.

Lemma keeps_modify (f : task → task) : (∀ t, I t → I (f t)) → keeps I P (modify f).
Proof. intros Hf t Ht. split; [by apply Hf | constructor]. Qed.

Lemma keeps_bind {A B} (m : M A) (k : A → M B) :
  keeps I P m → (∀ a, keeps I P (k a)) → keeps I P (bind m k).
Proof.
  intros Hm Hk t Ht. destruct (Hm t Ht) as [Ht' Hlog]. unfold bind.
  destruct (r_out (m t)) as [a|err]; [|done].
  destruct (Hk a _ Ht') as [Ht'' Hlog']. split; [done|].
  simpl. by apply Forall_app.
Qed.

Lemma keeps_try_catch {A} (m : M A) (h : js_error → M A) :
  keeps I P m → (∀ err, keeps I P (h err)) → keeps I P (try_catch m h).
Proof.
  intros Hm Hh t Ht. destruct (Hm t Ht) as [Ht' Hlog]. unfold try_catch.
  destruct (r_out (m t)) as [a|err]; [done|].
  destruct (Hh err _ Ht') as [Ht'' Hlog']. split; [done|].
  simpl. by apply Forall_app.
Qed.

Lemma keeps_try_finally {A} (m : M A) (fin : M unit) :
  keeps I P m → keeps I P fin → keeps I P (try_finally m fin).
Proof.
  intros Hm Hfin t Ht. destruct (Hm t Ht) as [Ht' Hlog].
  destruct (Hfin _ Ht') as [Ht'' Hlog']. split; [done|].
  simpl. by apply Forall_app.
Qed.

Lemma keeps_for_loop (n i : nat) (body : nat → M unit) :
  (∀ k, keeps I P (body k)) → keeps I P (for_loop n i body).
Proof.
  intros Hbody. revert i. induction n as [|n IH]; intros i; simpl.
  - apply keeps_ret.
  - apply keeps_bind; [apply Hbody | intros _; apply IH].
Qed.

Lemma keeps_for_of {A} (l : list A) (body : A → M unit) :
  (∀ x, keeps I P (body x)) → keeps I P (for_of l body).
Proof.
  intros Hbody. induction l as [|x l IH]; simpl.
  - apply keeps_ret.
  - apply keeps_bind; [apply Hbody | intros _; apply IH].
Qed.

End Keeps.

Ltac head_of m :=
  lazymatch m with
  | ?f _ => head_of f
  | _ => m
  end.

(** The shape of a program decides most [keeps] goals; the calls to the
    collaborators are left to the tactic given as argument. *)
Ltac keeps_step leaf :=
  lazymatch goal with
  | |- keeps _ _ (bind _ _) => apply keeps_bind; [|intros ?]
  | |- keeps _ _ (try_catch _ _) => apply keeps_try_catch; [|intros ?]
  | |- keeps _ _ (try_finally _ _) => apply keeps_try_finally
  | |- keeps _ _ (ret _) => apply keeps_ret
  | |- keeps _ _ (throw _) => apply keeps_throw
  | |- keeps _ _ (lift _) => apply keeps_lift
  | |- keeps _ _ (read _) => apply keeps_read
  | |- keeps _ _ (for_of _ _) => apply keeps_for_of; intros ?
  | |- keeps _ _ (for_loop _ _ _) => apply keeps_for_loop; intros ?
  | |- keeps _ _ (if ?b then _ else _) => destruct b
  | |- keeps _ _ (match ?x with _ => _ end) => destruct x
  | |- keeps _ _ _ => leaf
  end.

(** A call to a collaborator: one event, and a state that differs in the
    outside world only. *)
Ltac keeps_call :=
  let t := fresh "t" in
  let Ht := fresh "Ht" in
  lazymatch goal with
  | |- keeps _ _ ?m => let h := head_of m in try unfold h
  end;
  intros t Ht;
  repeat match goal with
         | |- context [match ?x with _ => _ end] => destruct x
         end;
  simpl; (split; [first [exact Ht | done] | repeat constructor; done]).

Lemma wp_bind {A B} (m : M A) (k : A → M B) (t : task) (Q : result B → Prop) :
  wp m t (fun r => match r_out r with
                   | Ret a => wp (k a) (r_state r) (fun r' => Q (after r r'))
                   | Throw err => Q (Build_result (r_state r) (r_log r) (Throw err))
                   end) →
  wp (bind m k) t Q.
Proof. unfold wp, bind. by destruct (r_out (m t)). Qed.

Lemma wp_try_catch {A} (m : M A) (h : js_error → M A) (t : task) (Q : result A → Prop) :
  wp m t (fun r => match r_out r with
                   | Ret _ => Q r
                   | Throw err => wp (h err) (r_state r) (fun r' => Q (after r r'))
                   end) →
  wp (try_catch m h) t Q.
Proof. unfold wp, try_catch. by destruct (r_out (m t)). Qed.

Lemma wp_try_finally {A} (m : M A) (fin : M unit) (t : task) (Q : result A → Prop) :
  wp m t (fun r =>
    wp fin (r_state r) (fun rf =>
      Q (Build_result (r_state rf) (r_log r ++ r_log rf)
           match r_out rf with Throw err => Throw err | Ret _ => r_out r end))) →
  wp (try_finally m fin) t Q.
Proof. done. Qed.

Lemma wp_mono {A} (m : M A) (t : task) (Q Q' : result A → Prop) :
  wp m t Q → (∀ r, Q r → Q' r) → wp m t Q'.
Proof. unfold wp. auto. Qed.

(** Split on the answer of a collaborator: the scrutinee of an innermost
    [match] of the goal. *)
Ltac split_answer :=
  match goal with
  | |- context [match ?x with _ => _ end] =>
      lazymatch x with
      | context [match _ with _ => _ end] => fail
      | _ => destruct x eqn:?
      end
  end.

Ltac wp_simpl :=
  cbn [r_out r_state r_log after app
       files objects db_requests clock_reads scenes audioFiles supabaseAudioPaths
       lastUpdate with_files with_objects with_db_requests with_clock_reads
       with_scenes with_audioFiles with_supabaseAudioPaths with_lastUpdate].

(** A call: the run is the record the call builds; split on the answer of
    the collaborator. *)
Ltac wp_call :=
  lazymatch goal with
  | |- wp ?m ?t ?Q =>
      change (Q (m t)); cbv beta;
      unfold read, ret, throw, lift, emit, modify; cbv beta; wp_simpl;
      repeat (split_answer; wp_simpl)
  end.

(** One step of a run: open the bind or the [try], or unfold the
    definition at the head. *)
Ltac wp_head :=
  lazymatch goal with
  | |- wp (bind _ _) _ _ => apply wp_bind
  | |- wp (try_catch _ _) _ _ => apply wp_try_catch
  | |- wp (try_finally _ _) _ _ => apply wp_try_finally
  | |- wp (if ?b then _ else _) _ _ => destruct b eqn:?
  | |- wp (match ?x with _ => _ end) _ _ => destruct x eqn:?
  | |- wp (for_of _ _) _ _ => fail "a loop"
  | |- wp (for_loop _ _ _) _ _ => fail "a loop"
  | |- wp (fun _ => _) ?t ?Q => wp_call
  | |- wp ?m ?t ?Q =>
      let h := head_of m in
      let m' := eval unfold h in m in
      change (wp m' t Q);
      lazymatch m' with
      | fun _ => _ => wp_call
      | _ => idtac
      end
  end.

(** ** The guard of the synthesis *)

Lemma needs_audio_wants_speech (s : Scene) (txt : string) :
  needs_audio s = true →
  narration_text (scene_narration s) = JStr txt →
  wants_speech s txt.
Proof.
  unfold needs_audio, wants_speech. intros Hneeds Htext. rewrite Htext in *.
  apply andb_prop in Hneeds as [Htxt Hurl]. simpl in Htxt.
  split_and!; [done | | by destruct (truthy _)].
  intros ->. done.
Qed.

Lemma wants_speech_needs_audio (s : Scene) (txt : string) :
  wants_speech s txt → needs_audio s = true.
Proof.
  unfold needs_audio. intros (-> & Htxt & ->). simpl.
  destruct (String.eqb_spec txt ""); [done | reflexivity].
Qed.

Lemma guard_stable_alter (l0 : list Scene) (t : task) (i : nat) (s : Scene) (url : value) :
  guard_stable l0 t →
  scenes t !! i = Some s →
  needs_audio s = true →
  guard_stable l0 (with_scenes (alter (set_audioUrl url) i (scenes t)) t).
Proof.
  intros Hstable Hi Hneeds k s' Hk Hneeds'. simpl in Hk.
  destruct (decide (i = k)) as [<-|Hne].
  - rewrite list_lookup_alter_eq, Hi in Hk. simpl in Hk. simplify_eq.
    destruct (Hstable i s Hi Hneeds) as (s0 & ? & ? & ?). by exists s0.
  - rewrite list_lookup_alter_ne in Hk by done. by apply Hstable.
Qed.

Section Guard.
Context `{JSRuntime}.
Variable e : env.
Variable j : job.
Variable l0 : list Scene.

Lemma synthesize_scene_justified (i : nat) (s : Scene) (t : task) :
  guard_stable l0 t →
  scenes t !! i = Some s →
  needs_audio s = true →
  wp (try_catch (synthesize_scene e j i s) (fun _ => ret tt)) t
     (fun r => guard_stable l0 (r_state r) ∧ Forall (justified l0) (r_log r)).
Proof.
  intros Hstable Hi Hneeds.
  destruct (narration_text (scene_narration s)) as [| | | |txt| |] eqn:Htext;
    try (unfold wp, synthesize_scene, try_catch; rewrite Htext; simpl;
         split; [done | constructor]).
  assert (∀ ev, scene_event_index ev = Some i → justified l0 ev) as Hev.
  { intros ev Hindex k Hk. rewrite Hindex in Hk. simplify_eq.
    destruct (Hstable k s Hi Hneeds) as (s0 & Hs0 & Hneeds0 & Htext0).
    exists s0, txt. split; [done|].
    apply needs_audio_wants_speech; [done | congruence]. }
  pose proof (guard_stable_alter l0 t i s
                (JStr (env_publicUrl e BUCKET_NAME (audioFileName j i)))
                Hstable Hi Hneeds) as Halter.
  unfold synthesize_scene. rewrite Htext.
  repeat wp_head;
    (split; [first [exact Hstable | exact Halter]
            | repeat constructor; apply Hev; reflexivity]).
Qed.

Lemma scene_step_justified (totalScenes i : nat) :
  keeps (guard_stable l0) (justified l0) (scene_step e j totalScenes i).
Proof.
  intros t Hstable.
  change (wp (scene_step e j totalScenes i) t
            (fun r => guard_stable l0 (r_state r) ∧ Forall (justified l0) (r_log r))).
  assert (∀ req, justified l0 (E_db req)) as Hdb by (by intros req k).
  unfold scene_step. do 4 wp_head;
    try (by split; [exact Hstable | repeat constructor]).
  eapply wp_mono.
  - apply (synthesize_scene_justified i s); [exact Hstable | done | done].
  - intros r [Hr Hlog]. split; [done | by constructor].
Qed.

Lemma background_render_justified :
  keeps (guard_stable l0) (justified l0) (background_render e j).
Proof.
  unfold background_render, render_job, plan_and_bundle, generate_audio, render_video,
    publish, publish_video, sync_artifacts, ensure_bucket, renderMedia, onProgress,
    mark_failed, cleanup, unlink_if_exists.
  repeat keeps_step ltac:(first [apply scene_step_justified | keeps_call]).
Qed.

End Guard.

(** ** The loop over the scenes when the database answers *)

Lemma alter_fixes {A} (f : A → A) (l : list A) (i : nat) (x : A) :
  l !! i = Some x → f x = x → alter f i l = l.
Proof.
  intros Hi Hf. apply list_eq. intros k. destruct (decide (i = k)) as [<-|Hne].
  - by rewrite list_lookup_alter_eq, Hi; simpl; rewrite Hf.
  - by rewrite list_lookup_alter_ne.
Qed.

Lemma alter_agrees {A} (f g : A → A) (l : list A) (i : nat) (x : A) :
  l !! i = Some x → f x = g x → alter f i l = alter g i l.
Proof.
  intros Hi Hfg. apply list_alter_ext; [|done]. intros y Hy. congruence.
Qed.

Section AudioLoop.
Context `{JSRuntime}.
Variable e : env.
Variable j : job.
Hypothesis Hdb : job_store_reliable e.

Lemma db_returns (n : nat) (err : js_error) :
  env_db e n = Throw err → False.
Proof. intros Herr. destruct (Hdb n) as [v Hv]. congruence. Qed.

Lemma synthesize_scene_spec (i : nat) (s : Scene) (t : task) :
  scenes t !! i = Some s →
  needs_audio s = true →
  wp (try_catch (synthesize_scene e j i s) (fun _ => ret tt)) t
     (fun r => r_out r = Ret tt
               ∧ scenes (r_state r) = alter (audio_result e j i) i (scenes t)
               ∧ ∀ txt, wants_speech s txt →
                        E_speak i txt "aura-2-odysseus-en" ∈ r_log r).
Proof.
  intros Hs Hneeds. unfold synthesize_scene.
  destruct (narration_text (scene_narration s)) as [| | | |text| |] eqn:Htext;
    cbn [substring_receiver].
  all: repeat wp_head.
  all: try match goal with
           | Hfile : bool_decide _ = false |- _ =>
               apply bool_decide_eq_false in Hfile; exfalso; apply Hfile; set_solver
           end.
  all: split_and!; [done | | intros txt (Htxt & _); rewrite Htext in Htxt;
                             simplify_eq; apply list_elem_of_here].
  all: first [apply (alter_agrees _ _ _ _ s Hs)
             | symmetry; apply (alter_fixes _ _ _ s Hs)].
  all: unfold audio_result, audio_ready; rewrite Hneeds, Htext.
  all: repeat match goal with
              | Heq : ?x = _ |- context [match ?x with _ => _ end] => rewrite Heq
              end.
  all: cbn [andb]; rewrite ?andb_false_r; done.
Qed.

Lemma scene_step_spec (totalScenes i : nat) (s : Scene) (t : task) :
  scenes t !! i = Some s →
  wp (scene_step e j totalScenes i) t
     (fun r => r_out r = Ret tt
               ∧ scenes (r_state r) = alter (audio_result e j i) i (scenes t)
               ∧ ∀ txt, wants_speech s txt →
                        E_speak i txt "aura-2-odysseus-en" ∈ r_log r).
Proof.
  intros Hs. unfold scene_step. wp_head. unfold wp at 1, read. wp_simpl.
  rewrite Hs. wp_head. wp_head.
  - eapply wp_mono; [by apply (synthesize_scene_spec i s)|].
    intros r (Hout & Hscenes & Hspeak). wp_simpl. split_and!; [done..|].
    intros txt Htxt. apply list_elem_of_further. by apply Hspeak.
  - wp_head. split_and!; [done | |].
    + symmetry. apply (alter_fixes _ _ _ s Hs).
      unfold audio_result, audio_ready.
      by match goal with Hneeds : needs_audio s = false |- _ => rewrite Hneeds end.
    + intros txt Htxt. apply wants_speech_needs_audio in Htxt. congruence.
  - by edestruct db_returns.
Qed.

Lemma with_audio_lookup (i k : nat) (l : list Scene) :
  with_audio e j i l !! k = audio_result e j (i + k) <$> l !! k.
Proof.
  revert i k. induction l as [|s l IH]; intros i k; [done|].
  destruct k as [|k]; simpl.
  - by rewrite Nat.add_0_r.
  - rewrite IH. by replace (S i + k)%nat with (i + S k)%nat by lia.
Qed.

Lemma with_audio_length (i : nat) (l : list Scene) :
  length (with_audio e j i l) = length l.
Proof. revert i. induction l as [|s l IH]; intros i; simpl; [done | by rewrite IH]. Qed.

Lemma audio_loop_spec (totalScenes : nat) (todo seen : list Scene) (t : task) :
  scenes t = (seen ++ todo)%list →
  wp (for_loop (length todo) (length seen) (scene_step e j totalScenes)) t
     (fun r => r_out r = Ret tt
               ∧ scenes (r_state r) = (seen ++ with_audio e j (length seen) todo)%list
               ∧ ∀ k s txt, todo !! k = Some s → wants_speech s txt →
                   E_speak (length seen + k) txt "aura-2-odysseus-en" ∈ r_log r).
Proof.
  revert seen t. induction todo as [|s todo IH]; intros seen t Hscenes.
  - unfold wp. simpl. split_and!; [done.. | by intros k s txt].
  - cbn [for_loop length]. apply wp_bind.
    assert (scenes t !! length seen = Some s) as Hs.
    { rewrite Hscenes. by apply list_lookup_middle. }
    eapply wp_mono; [by apply (scene_step_spec totalScenes (length seen) s)|].
    intros r (Hout & Hscenes' & Hspeak). rewrite Hout.
    assert (scenes (r_state r) = ((seen ++ [audio_result e j (length seen) s]) ++ todo)%list)
      as Hnext.
    { rewrite Hscenes', Hscenes, <- (Nat.add_0_r (length seen)), alter_app_r.
      by rewrite <- app_assoc. }
    pose proof (IH _ _ Hnext) as Hloop. rewrite length_app in Hloop.
    replace (length seen + length [audio_result e j (length seen) s])%nat
      with (S (length seen)) in Hloop by (simpl; lia).
    eapply wp_mono; [exact Hloop|].
    intros r' (Hout' & Hscenes'' & Hspeak'). wp_simpl.
    split_and!; [done | by rewrite Hscenes'', <- app_assoc |].
    intros k s' txt Hk Htxt. apply elem_of_app. destruct k as [|k].
    + left. simpl in Hk. simplify_eq. rewrite Nat.add_0_r. by apply Hspeak.
    + right. replace (length seen + S k)%nat with (S (length seen) + k)%nat by lia.
      by eapply Hspeak'.
Qed.

(** The loop ends normally and leaves [with_audio]. *)
Lemma generate_audio_spec (t : task) :
  wp (generate_audio e j) t
     (fun r => r_out r = Ret tt
               ∧ scenes (r_state r) = with_audio e j 0 (scenes t)
               ∧ ∀ k s txt, scenes t !! k = Some s → wants_speech s txt →
                   E_speak k txt "aura-2-odysseus-en" ∈ r_log r).
Proof.
  unfold generate_audio. apply wp_bind. unfold wp at 1, read. wp_simpl.
  eapply wp_mono; [by apply (audio_loop_spec _ (scenes t) [] t)|].
  intros r (Hout & Hscenes & Hspeak). by wp_simpl.
Qed.

End AudioLoop.

Ltac db_absurd Hdb :=
  match goal with
  | Herr : env_db _ _ = Throw _ |- _ => exfalso; exact (db_returns _ Hdb _ _ Herr)
  end.

(** ** The parts of the background render *)

Lemma wp_any {A} (m : M A) (t : task) (Q : result A → Prop) :
  (∀ r, Q r) → wp m t Q.
Proof. unfold wp. auto. Qed.

Lemma log_bind_l {A B} (m : M A) (k : A → M B) (t : task) (ev : event) :
  ev ∈ r_log (m t) → ev ∈ r_log (bind m k t).
Proof.
  intros Hev. unfold bind. destruct (r_out (m t)); [|done].
  simpl. apply elem_of_app. by left.
Qed.

Lemma log_bind_r {A B} (m : M A) (k : A → M B) (t : task) (a : A) (ev : event) :
  r_out (m t) = Ret a → ev ∈ r_log (k a (r_state (m t))) → ev ∈ r_log (bind m k t).
Proof.
  intros Hout Hev. rewrite (bind_Ret _ _ _ _ Hout). simpl. apply elem_of_app. by right.
Qed.

Lemma log_try_catch_l {A} (m : M A) (h : js_error → M A) (t : task) (ev : event) :
  ev ∈ r_log (m t) → ev ∈ r_log (try_catch m h t).
Proof.
  intros Hev. unfold try_catch. destruct (r_out (m t)); [done|].
  simpl. apply elem_of_app. by left.
Qed.

Lemma log_try_finally_l {A} (m : M A) (fin : M unit) (t : task) (ev : event) :
  ev ∈ r_log (m t) → ev ∈ r_log (try_finally m fin t).
Proof. intros Hev. simpl. apply elem_of_app. by left. Qed.

Section Parts.
Context `{JSRuntime}.
Variable e : env.
Variable j : job.

Lemma background_render_state (t : task) :
  r_state (background_render e j t)
  = r_state (cleanup e j (r_state (guarded_render_job e j (fresh_task t)))).
Proof. reflexivity. Qed.

Lemma background_render_log (t : task) :
  r_log (background_render e j t)
  = (r_log (guarded_render_job e j (fresh_task t))
     ++ r_log (cleanup e j (r_state (guarded_render_job e j (fresh_task t)))))%list.
Proof. reflexivity. Qed.

Lemma background_render_out (t : task) :
  r_out (background_render e j t)
  = match r_out (cleanup e j (r_state (guarded_render_job e j (fresh_task t)))) with
    | Throw err => Throw err
    | Ret _ => r_out (guarded_render_job e j (fresh_task t))
    end.
Proof. reflexivity. Qed.

Lemma ensure_bucket_spec (t : task) :
  wp (ensure_bucket e) t (fun r => r_out r = Ret tt ∧ r_state r = t).
Proof.
  unfold ensure_bucket. repeat wp_head.
  all: repeat match goal with u : () |- _ => destruct u end; done.
Qed.

Lemma plan_and_bundle_spec (t : task) (p : Plan) (bundled : string) :
  job_store_reliable e →
  plan_render (transformedManifest j t) = Ret p →
  env_bundle e = Ret bundled →
  wp (plan_and_bundle e j) t
     (fun r => r_out r = Ret (p, bundled) ∧ scenes (r_state r) = scenes t).
Proof.
  intros Hdb Hplan Hbundle. unfold plan_and_bundle. apply wp_bind.
  eapply wp_mono; [apply ensure_bucket_spec|]. intros r [-> ->].
  wp_head. unfold wp at 1, read. wp_simpl.
  wp_head. unfold wp at 1, lift. wp_simpl. rewrite Hplan.
  repeat wp_head; try db_absurd Hdb; by simplify_eq.
Qed.

Lemma onProgress_swallowed (progress : Q) (t : task) :
  r_out (try_catch (onProgress e j progress) (fun _ => ret tt) t) = Ret tt.
Proof.
  change (wp (try_catch (onProgress e j progress) (fun _ => ret tt)) t
            (fun r => r_out r = Ret tt)).
  unfold onProgress. by repeat wp_head.
Qed.

Lemma progress_callbacks_return (l : list Q) (t : task) :
  r_out (for_of l (fun progress =>
                     try_catch (onProgress e j progress) (fun _ => ret tt)) t) = Ret tt.
Proof.
  revert t. induction l as [|progress l IH]; intros t; [done|].
  cbn [for_of]. rewrite (bind_Ret _ _ _ tt) by apply onProgress_swallowed.
  apply IH.
Qed.

Lemma render_video_returns (t : task) (p : Plan) (bundled : string) :
  env_selectComposition e = Ret tt →
  env_render e = RenderDone →
  r_out (render_video e j p bundled t) = Ret tt.
Proof.
  intros Hselect Hrender.
  change (wp (render_video e j p bundled) t (fun r => r_out r = Ret tt)).
  unfold render_video, renderMedia, selectComposition. rewrite Hselect, Hrender.
  repeat wp_head.
  unfold wp at 1. rewrite progress_callbacks_return.
  by wp_head.
Qed.

Lemma render_video_selects (t : task) (p : Plan) (bundled : string) :
  E_selectComposition bundled "LoanBriefing" (transformedManifest j t) (analysis j)
  ∈ r_log (render_video e j p bundled t).
Proof.
  unfold render_video. eapply log_bind_r; [reflexivity|].
  apply log_bind_l. apply list_elem_of_here.
Qed.

Lemma get_Throw_opt (v : value) (prop : string) (err : js_error) :
  get v prop = Throw err → get_opt v prop = JUndefined.
Proof. by destruct v. Qed.

Lemma sync_artifacts_returns (t : task) (videoUrl : string) :
  job_store_reliable e →
  r_out (sync_artifacts e j videoUrl t) = Ret tt.
Proof.
  intros Hdb.
  change (wp (sync_artifacts e j videoUrl) t (fun r => r_out r = Ret tt)).
  unfold sync_artifacts. repeat wp_head; try db_absurd Hdb; try done.
  match goal with
  | Hget : get _ _ = Throw _, Htruthy : truthy _ = true |- _ =>
      apply get_Throw_opt in Hget; rewrite Hget in Htruthy; done
  end.
Qed.

Lemma publish_spec (t : task) (p : Plan) :
  job_store_reliable e →
  env_upload e "videos" (videoId j ++ ".mp4") ≠ UploadStored →
  wp (publish e j p) t
     (fun r => r_out r = Ret tt
               ∧ E_db (VideosUpdate (videoId j) (completed_fields (localVideoUrl e j) p))
                 ∈ r_log r
               ∧ last (omap status_of (r_log r)) = Some "completed").
Proof.
  intros Hdb Hfails. unfold publish, publish_video, sync_artifacts.
  repeat wp_head; try db_absurd Hdb; try done.
  all: try match goal with
           | Hget : get _ _ = Throw _, Htruthy : truthy _ = true |- _ =>
               apply get_Throw_opt in Hget; rewrite Hget in Htruthy; done
           end.
  all: split_and!; [done | set_solver | reflexivity].
Qed.

End Parts.

(** ** The cleanup *)

Section Cleanup.
Context `{JSRuntime}.
Variable e : env.
Variable j : job.

Lemma unlink_if_exists_spec (path : string) (t : task) :
  wp (unlink_if_exists e path) t
     (fun r => r_out r = Ret tt
               ∧ r_state r = with_files (files (r_state r)) t
               ∧ files (r_state r) ⊆ files t
               ∧ (env_unlink_fails e path = false → path ∉ files (r_state r))).
Proof.
  unfold unlink_if_exists. repeat wp_head.
  all: split_and!; [done | by destruct t | set_solver | intros Hok].
  - set_solver.
  - match goal with
    | Hthere : bool_decide _ = true, Hb : _ && _ = false |- _ =>
        rewrite Hthere, Hok in Hb; done
    end.
  - match goal with
    | Hthere : bool_decide _ = false |- _ => by apply bool_decide_eq_false in Hthere
    end.
Qed.

Lemma unlink_all_spec (paths : list string) (t : task) :
  wp (for_of paths (unlink_if_exists e)) t
     (fun r => r_out r = Ret tt
               ∧ r_state r = with_files (files (r_state r)) t
               ∧ files (r_state r) ⊆ files t
               ∧ ∀ path, path ∈ paths → env_unlink_fails e path = false →
                         path ∉ files (r_state r)).
Proof.
  revert t. induction paths as [|path paths IH]; intros t.
  - unfold wp. simpl. split_and!; [done | by destruct t | done | ].
    intros path Hin. by apply elem_of_nil in Hin.
  - cbn [for_of]. apply wp_bind.
    eapply wp_mono; [apply unlink_if_exists_spec|].
    intros r (Hout & Hstate & Hsub & Hgone). rewrite Hout.
    eapply wp_mono; [apply IH|].
    intros r' (Hout' & Hstate' & Hsub' & Hgone'). wp_simpl.
    split_and!; [done | | set_solver | ].
    + rewrite Hstate', Hstate. by destruct t.
    + intros p Hin Hok. apply elem_of_cons in Hin as [->|Hin].
      * specialize (Hgone Hok). set_solver.
      * by apply Hgone'.
Qed.

Lemma synthesize_scene_tracks (before : gset (string * string)) (i : nat) (s : Scene) :
  keeps (remote_tracked before) (fun _ => True)
        (try_catch (synthesize_scene e j i s) (fun _ => ret tt)).
Proof.
  intros t Ht.
  change (wp (try_catch (synthesize_scene e j i s) (fun _ => ret tt)) t
            (fun r => remote_tracked before (r_state r) ∧ Forall (fun _ => True) (r_log r))).
  repeat wp_head; (split; [|by repeat constructor]); try exact Ht.
  intros name Hname. cbn [objects supabaseAudioPaths] in *.
  apply elem_of_union in Hname as [Hname|Hname].
  - apply elem_of_singleton in Hname. simplify_eq. right.
    apply elem_of_app. right. apply list_elem_of_here.
  - destruct (Ht name Hname) as [?|?]; [by left|]. right.
    apply elem_of_app. by left.
Qed.

Lemma video_upload_tracks (before : gset (string * string)) (ev : event) (name : string) :
  keeps (remote_tracked before) (fun _ => True) (storage_upload e ev "videos" name).
Proof.
  intros t Ht. unfold storage_upload.
  destruct (env_upload e "videos" name); (split; [|by repeat constructor]); try exact Ht.
  intros name' Hname. cbn [r_state objects with_objects supabaseAudioPaths] in *.
  apply elem_of_union in Hname as [Hname|Hname]; [|by apply Ht].
  apply elem_of_singleton in Hname. discriminate Hname.
Qed.

Lemma guarded_render_job_tracks (before : gset (string * string)) :
  keeps (remote_tracked before) (fun _ => True) (guarded_render_job e j).
Proof.
  unfold guarded_render_job, render_job, plan_and_bundle, generate_audio, scene_step,
    render_video, publish, publish_video, sync_artifacts, ensure_bucket, renderMedia,
    onProgress, mark_failed.
  repeat first [apply synthesize_scene_tracks | apply video_upload_tracks
               | keeps_step keeps_call].
Qed.

Lemma cleanup_spec (t : task) :
  wp (cleanup e j) t
     (fun r => r_out r = Ret tt
               ∧ audioFiles (r_state r) = audioFiles t
               ∧ supabaseAudioPaths (r_state r) = supabaseAudioPaths t
               ∧ files (r_state r) ⊆ files t
               ∧ objects (r_state r) ⊆ objects t
               ∧ (env_unlink_fails e (outputLocation j) = false →
                  outputLocation j ∉ files (r_state r))
               ∧ (∀ path, path ∈ audioFiles t → env_unlink_fails e path = false →
                          path ∉ files (r_state r))
               ∧ (env_remove e = RemoveDone →
                  ∀ name, name ∈ supabaseAudioPaths t →
                          (BUCKET_NAME, name) ∉ objects (r_state r))).
Proof.
  unfold cleanup. apply wp_bind.
  eapply wp_mono; [apply unlink_if_exists_spec|].
  intros r (Hout & Hstate & Hsub & Hgone). rewrite Hout.
  apply wp_bind. unfold wp at 1, read. wp_simpl. apply wp_bind.
  eapply wp_mono; [apply unlink_all_spec|].
  intros r' (Hout' & Hstate' & Hsub' & Hgone'). rewrite Hout'.
  assert (audioFiles (r_state r) = audioFiles t) as Hfiles by (by rewrite Hstate).
  assert (r_state r' = with_files (files (r_state r')) t) as Hstate''.
  { rewrite Hstate', Hstate. by destruct t. }
  rewrite Hfiles in *. clear Hstate'.
  apply wp_bind. unfold wp at 1, read. wp_simpl.
  assert (supabaseAudioPaths (r_state r') = supabaseAudioPaths t) as ->
    by (by rewrite Hstate'').
  assert (objects (r_state r') = objects t) as Hobjects by (by rewrite Hstate'').
  repeat wp_head.
  all: rewrite ?Hobjects.
  all: split_and!;
    [done | by rewrite Hstate'' | by rewrite Hstate'' | set_solver | set_solver
    | intros Hok; specialize (Hgone Hok); set_solver
    | done | try done ].
  - intros _ name Hname. apply not_elem_of_difference. right.
    apply elem_of_list_to_set, list_elem_of_fmap. by exists name.
  - intros _ name Hname.
    destruct (supabaseAudioPaths t); [by apply elem_of_nil in Hname | done].
Qed.

Lemma cleanup_returns (t : task) : r_out (cleanup e j t) = Ret tt.
Proof. apply (cleanup_spec t). Qed.

End Cleanup.

(** ** The statuses a run writes *)

Lemma last_status_app_r (l1 l2 : list event) (status : string) :
  last (omap status_of l2) = Some status →
  last (omap status_of (l1 ++ l2)%list) = Some status.
Proof. intros Hlast. by rewrite omap_app, last_app, Hlast. Qed.

Lemma omap_status_silent (l : list event) :
  Forall (fun ev => status_of ev = None) l → omap status_of l = [].
Proof. induction 1 as [|ev l Hev _ IH]; simpl; [done | by rewrite Hev]. Qed.

Lemma last_status_app_silent (l1 l2 : list event) :
  Forall (fun ev => status_of ev = None) l2 →
  last (omap status_of (l1 ++ l2)%list) = last (omap status_of l1).
Proof.
  intros Hsilent. rewrite omap_app, (omap_status_silent l2 Hsilent).
  by rewrite app_nil_r.
Qed.

(** ** The background render as a whole *)

Section Orchestration.
Context `{JSRuntime}.
Variable e : env.
Variable j : job.

(** C1, as the code has it. Whatever happened in the [try] block, the
    background render ends with the cleanup: the rendered video and every
    tracked local audio file are gone unless their [unlinkSync] failed, and
    unless the batch removal failed the tracked remote audio objects are
    gone and the audio bucket holds nothing that was not there before. *)
Theorem cleanup_on_every_exit (t : task) :
  let r := background_render e j t in
  (env_unlink_fails e (outputLocation j) = false →
   outputLocation j ∉ files (r_state r))
  ∧ (∀ path, path ∈ audioFiles (r_state r) → env_unlink_fails e path = false →
             path ∉ files (r_state r))
  ∧ (env_remove e = RemoveDone →
     (∀ name, name ∈ supabaseAudioPaths (r_state r) →
              (BUCKET_NAME, name) ∉ objects (r_state r))
     ∧ (∀ name, (BUCKET_NAME, name) ∈ objects (r_state r) →
                (BUCKET_NAME, name) ∈ objects t)).
Proof.
  intros r. subst r. rewrite background_render_state.
  set (t' := r_state (guarded_render_job e j (fresh_task t))).
  destruct (cleanup_spec e j t')
    as (_ & Hlocal & Hremote & _ & Hsub & Hvideo & Haudio & Hobjects).
  rewrite Hlocal, Hremote. split_and!; [done | done |].
  intros Hremoved. split; [by apply Hobjects|].
  intros name Hname.
  assert (remote_tracked (objects t) (fresh_task t)) as Hstart.
  { intros name' Hname'. by left. }
  destruct (guarded_render_job_tracks e j (objects t) (fresh_task t) Hstart)
    as [Htracked _].
  destruct (Htracked name (Hsub _ Hname)) as [Hbefore|Hin]; [done|].
  by destruct (Hobjects Hremoved name Hin).
Qed.

Lemma cleanup_writes_no_status :
  keeps (fun _ => True) (fun ev => status_of ev = None) (cleanup e j).
Proof.
  unfold cleanup, unlink_if_exists. repeat keeps_step keeps_call.
Qed.

Lemma render_job_never_writes_failed :
  keeps (fun _ => True) (fun ev => status_of ev ≠ Some "failed") (render_job e j).
Proof.
  unfold render_job, plan_and_bundle, generate_audio, scene_step, synthesize_scene,
    render_video, publish, publish_video, sync_artifacts, ensure_bucket, renderMedia,
    onProgress.
  repeat keeps_step keeps_call.
Qed.

Lemma render_job_completes (t : task) (p : Plan) (bundled : string) :
  job_store_reliable e →
  plan_render (transformedManifest j t) = Ret p →
  env_bundle e = Ret bundled →
  env_selectComposition e = Ret tt →
  env_render e = RenderDone →
  env_upload e "videos" (videoId j ++ ".mp4") ≠ UploadStored →
  r_out (render_job e j t) = Ret tt
  ∧ E_db (VideosUpdate (videoId j) (completed_fields (localVideoUrl e j) p))
    ∈ r_log (render_job e j t)
  ∧ last (omap status_of (r_log (render_job e j t))) = Some "completed".
Proof.
  intros Hdb Hplan Hbundle Hselect Hrender Hfails. unfold render_job.
  destruct (plan_and_bundle_spec e j t p bundled Hdb Hplan Hbundle) as [Hout Hscenes].
  rewrite (bind_Ret _ _ _ _ Hout). cbn [fst snd].
  set (t1 := r_state (plan_and_bundle e j t)).
  destruct (generate_audio_spec e j Hdb t1) as (Hout1 & _ & _).
  rewrite (bind_Ret _ _ _ _ Hout1).
  set (t2 := r_state (generate_audio e j t1)).
  rewrite (bind_Ret _ _ _ tt) by (by apply render_video_returns).
  set (t3 := r_state (render_video e j p bundled t2)).
  destruct (publish_spec e j t3 p Hdb Hfails) as (Hout3 & Hcompleted & Hlast).
  cbn [after r_out r_log]. split_and!; [done | |].
  - rewrite !elem_of_app. auto.
  - by do 3 apply last_status_app_r.
Qed.

(** C5. When the render has succeeded and the upload of the video fails, by
    an exception or by a returned error, the job is written as completed
    with the local URL, and no request writes the status failed. *)
Theorem upload_failure_not_fatal (t : task) (p : Plan) (bundled : string) :
  job_store_reliable e →
  plan_render (transformedManifest j t) = Ret p →
  env_bundle e = Ret bundled →
  env_selectComposition e = Ret tt →
  env_render e = RenderDone →
  env_upload e "videos" (videoId j ++ ".mp4") ≠ UploadStored →
  let r := background_render e j t in
  r_out r = Ret tt
  ∧ E_db (VideosUpdate (videoId j) (completed_fields (localVideoUrl e j) p)) ∈ r_log r
  ∧ last (omap status_of (r_log r)) = Some "completed"
  ∧ Forall (fun ev => status_of ev ≠ Some "failed") (r_log r).
Proof.
  intros Hdb Hplan Hbundle Hselect Hrender Hfails r. subst r.
  destruct (render_job_completes (fresh_task t) p bundled)
    as (Hout & Hcompleted & Hlast); [done..|].
  pose proof (try_catch_Ret (render_job e j) (fun _ => mark_failed e j)
                (fresh_task t) tt Hout) as Hguarded.
  rewrite background_render_out, background_render_log.
  unfold guarded_render_job. rewrite Hguarded, cleanup_returns.
  split_and!; [done | | |].
  - apply elem_of_app. by left.
  - rewrite last_status_app_silent; [done|].
    by apply cleanup_writes_no_status.
  - apply Forall_app. split.
    + by apply render_job_never_writes_failed.
    + eapply Forall_impl; [by apply cleanup_writes_no_status|].
      intros ev Hev. by rewrite Hev.
Qed.

(** C3. A failure of the synthesis or of the upload of the audio of a scene
    stays in the loop: the composition is selected, so the render stage is
    reached, with a manifest in which every scene whose synthesis and upload
    succeeded carries its public URL and every other scene is as it was. *)
Theorem scene_audio_failure_absorbed (t : task) (p : Plan) (bundled : string) :
  job_store_reliable e →
  plan_render (transformedManifest j t) = Ret p →
  env_bundle e = Ret bundled →
  let after_audio := with_audio e j 0 (scenes t) in
  E_selectComposition bundled "LoanBriefing"
    {| manifest_meta := meta j; manifest_scenes := after_audio |} (analysis j)
  ∈ r_log (background_render e j t)
  ∧ length after_audio = length (scenes t)
  ∧ ∀ i s, scenes t !! i = Some s →
           after_audio !! i
           = Some (if audio_ready e j i s
                   then set_audioUrl (JStr (env_publicUrl e BUCKET_NAME (audioFileName j i))) s
                   else s).
Proof.
  intros Hdb Hplan Hbundle after_audio. split_and!.
  - rewrite background_render_log. apply elem_of_app. left.
    apply log_try_catch_l. unfold render_job.
    destruct (plan_and_bundle_spec e j (fresh_task t) p bundled Hdb Hplan Hbundle)
      as [Hout Hscenes].
    eapply log_bind_r; [exact Hout|]. cbn [fst snd].
    set (t1 := r_state (plan_and_bundle e j (fresh_task t))) in *.
    destruct (generate_audio_spec e j Hdb t1) as (Hout1 & Hscenes1 & _).
    eapply log_bind_r; [exact Hout1|]. apply log_bind_l.
    set (t2 := r_state (generate_audio e j t1)) in *.
    pose proof (render_video_selects e j t2 p bundled) as Hselects.
    unfold transformedManifest in Hselects.
    by rewrite Hscenes1, Hscenes in Hselects.
  - apply with_audio_length.
  - intros i s Hs. subst after_audio. by rewrite with_audio_lookup, Hs.
Qed.

(** C7. The calls of the synthesis (speech request, stream, local file,
    upload) are only ever made for a scene with a non-empty text and no
    audio yet; and when the database answers and the bundle is built, so
    that the loop runs, the speech of every such scene is requested. *)
Theorem synthesis_guard (t : task) :
  let log := r_log (background_render e j t) in
  (∀ ev i, ev ∈ log → scene_event_index ev = Some i →
           ∃ s txt, scenes t !! i = Some s ∧ wants_speech s txt)
  ∧ (job_store_reliable e →
     returns (plan_render (transformedManifest j t)) →
     returns (env_bundle e) →
     ∀ i s txt, scenes t !! i = Some s → wants_speech s txt →
                E_speak i txt "aura-2-odysseus-en" ∈ log).
Proof.
  intros log. subst log. split.
  - intros ev i Hev Hindex.
    assert (guard_stable (scenes t) t) as Hstable.
    { intros k s Hk Hneeds. by exists s. }
    destruct (background_render_justified e j (scenes t) t Hstable) as [_ Hlog].
    rewrite Forall_forall in Hlog. by apply (Hlog ev Hev i).
  - intros Hdb [p Hplan] [bundled Hbundle] i s txt Hs Htxt.
    rewrite background_render_log. apply elem_of_app. left.
    apply log_try_catch_l. unfold render_job.
    destruct (plan_and_bundle_spec e j (fresh_task t) p bundled Hdb Hplan Hbundle)
      as [Hout Hscenes].
    eapply log_bind_r; [exact Hout|]. cbn [fst snd].
    set (t1 := r_state (plan_and_bundle e j (fresh_task t))) in *.
    destruct (generate_audio_spec e j Hdb t1) as (Hout1 & _ & Hspeak).
    apply log_bind_l. apply (Hspeak i s txt); [|done].
    by rewrite Hscenes.
Qed.

End Orchestration.

(** ** The progress written *)

Lemma Math_round_mono (x y : Q) : (x <= y)%Q → Math_round x ≤ Math_round y.
Proof. intros Hxy. unfold Math_round. apply Qfloor_resp_le. by apply Qplus_le_l. Qed.

Lemma Math_round_bounds (x : Q) (lo hi : Z) :
  (inject_Z lo <= x)%Q → (x <= inject_Z hi)%Q → lo ≤ Math_round x ≤ hi.
Proof.
  intros Hlo Hhi. unfold Math_round. split.
  - rewrite <- (Qfloor_Z lo). apply Qfloor_resp_le.
    apply Qle_trans with x; [done|]. rewrite <- (Qplus_0_r x) at 1.
    by apply Qplus_le_r.
  - apply Z.lt_succ_r. rewrite Zlt_Qlt.
    apply Qle_lt_trans with (x + (1 # 2))%Q; [apply Qfloor_le|].
    apply Qle_lt_trans with (inject_Z hi + (1 # 2))%Q; [by apply Qplus_le_l|].
    rewrite <- Z.add_1_r, inject_Z_plus. by apply Qplus_lt_r.
Qed.

Lemma scene_fraction_le (i i' n : nat) :
  (i ≤ i')%nat → (0 < n)%nat →
  (inject_Z (Z.of_nat i) / inject_Z (Z.of_nat n) * 25
   <= inject_Z (Z.of_nat i') / inject_Z (Z.of_nat n) * 25)%Q.
Proof.
  intros Hi Hn. apply Qmult_le_compat_r; [|done].
  unfold Qdiv. apply Qmult_le_compat_r.
  - rewrite <- Zle_Qle. lia.
  - apply Qinv_le_0_compat. change 0%Q with (inject_Z 0). rewrite <- Zle_Qle. lia.
Qed.

Lemma scene_fraction_bounds (i n : nat) :
  (i < n)%nat →
  (inject_Z 0 <= inject_Z (Z.of_nat i) / inject_Z (Z.of_nat n) * 25)%Q
  ∧ (inject_Z (Z.of_nat i) / inject_Z (Z.of_nat n) * 25 <= inject_Z 25)%Q.
Proof.
  intros Hi.
  assert (0 < inject_Z (Z.of_nat n))%Q as Hn.
  { change 0%Q with (inject_Z 0). rewrite <- Zlt_Qlt. lia. }
  split.
  - apply Qmult_le_0_compat; [|done]. apply Qle_shift_div_l; [done|].
    rewrite Qmult_0_l. change 0%Q with (inject_Z 0). rewrite <- Zle_Qle. lia.
  - change (inject_Z 25) with (1 * 25)%Q. apply Qmult_le_compat_r; [|done].
    apply Qle_shift_div_r; [done|]. rewrite Qmult_1_l. rewrite <- Zle_Qle. lia.
Qed.

Lemma audioProgress_mono (i i' n : nat) :
  (i ≤ i')%nat → (0 < n)%nat → audioProgress i n ≤ audioProgress i' n.
Proof.
  intros Hi Hn. unfold audioProgress.
  pose proof (Math_round_mono _ _ (scene_fraction_le i i' n Hi Hn)). lia.
Qed.

Lemma audioProgress_bounds (i n : nat) :
  (i < n)%nat → 5 ≤ audioProgress i n ≤ 30.
Proof.
  intros Hi. unfold audioProgress.
  destruct (scene_fraction_bounds i n Hi) as [Hlo Hhi].
  pose proof (Math_round_bounds _ 0 25 Hlo Hhi). lia.
Qed.

Lemma renderProgress_mono (p p' : Q) :
  (p <= p')%Q → renderProgress p ≤ renderProgress p'.
Proof.
  intros Hp. unfold renderProgress.
  assert (Math_round (p * 60) ≤ Math_round (p' * 60)); [|lia].
  apply Math_round_mono. by apply Qmult_le_compat_r.
Qed.

Lemma renderProgress_bounds (p : Q) :
  (0 <= p)%Q → (p <= 1)%Q → 30 ≤ renderProgress p ≤ 90.
Proof.
  intros Hlo Hhi. unfold renderProgress.
  assert (0 ≤ Math_round (p * 60) ≤ 60); [|lia].
  apply Math_round_bounds.
  - by apply Qmult_le_0_compat.
  - change (inject_Z 60) with (1 * 60)%Q. by apply Qmult_le_compat_r.
Qed.

Lemma band_nil (lo hi : Z) : band lo hi [].
Proof. split; constructor. Qed.

Lemma band_singleton (lo hi x : Z) : lo ≤ x ≤ hi → band lo hi [x].
Proof. intros Hx. split; repeat constructor; lia. Qed.

Lemma band_weaken (lo hi lo' hi' : Z) (l : list Z) :
  lo' ≤ lo → hi ≤ hi' → band lo hi l → band lo' hi' l.
Proof.
  intros Hlo Hhi [Hsorted Hbounds]. split; [done|].
  eapply Forall_impl; [done|]. intros x Hx. simpl in Hx. lia.
Qed.

Lemma band_app (a b c : Z) (l1 l2 : list Z) :
  band a b l1 → band b c l2 → a ≤ b → b ≤ c → band a c (l1 ++ l2)%list.
Proof.
  intros [Hsorted1 Hbounds1] [Hsorted2 Hbounds2] Hab Hbc. split.
  - apply StronglySorted_app_2; [|done..].
    intros x1 x2 Hx1 Hx2. rewrite Forall_forall in Hbounds1, Hbounds2.
    specialize (Hbounds1 x1 Hx1). specialize (Hbounds2 x2 Hx2). simpl in *. lia.
  - apply Forall_app. split.
    + eapply Forall_impl; [done|]. intros x Hx. simpl in Hx. lia.
    + eapply Forall_impl; [done|]. intros x Hx. simpl in Hx. lia.
Qed.

Lemma progress_written_app (l1 l2 : list event) :
  progress_written (l1 ++ l2)%list = (progress_written l1 ++ progress_written l2)%list.
Proof. apply omap_app. Qed.

Lemma progress_written_silent (l : list event) :
  Forall (fun ev => progress_of ev = None) l → progress_written l = [].
Proof. induction 1 as [|ev l Hev _ IH]; simpl; [done | by rewrite Hev]. Qed.

Lemma emits_silent {A} (lo hi : Z) (m : M A) :
  keeps (fun _ => True) no_progress m → emits lo hi m.
Proof.
  intros Hm t. destruct (Hm t I) as [_ Hlog].
  rewrite (progress_written_silent _ Hlog). apply band_nil.
Qed.

Lemma emits_weaken {A} (lo hi lo' hi' : Z) (m : M A) :
  lo' ≤ lo → hi ≤ hi' → emits lo hi m → emits lo' hi' m.
Proof. intros Hlo Hhi Hm t. by eapply band_weaken. Qed.

Lemma emits_bind {A B} (a b c : Z) (m : M A) (k : A → M B) :
  emits a b m → (∀ x, emits b c (k x)) → a ≤ b → b ≤ c → emits a c (bind m k).
Proof.
  intros Hm Hk Hab Hbc t. unfold bind. specialize (Hm t).
  destruct (r_out (m t)) as [x|err]; simpl.
  - rewrite progress_written_app. by eapply band_app; [| apply Hk | |].
  - eapply band_weaken; [| |done]; lia.
Qed.

Lemma emits_try_catch {A} (a b c : Z) (m : M A) (h : js_error → M A) :
  emits a b m → (∀ err, emits b c (h err)) → a ≤ b → b ≤ c → emits a c (try_catch m h).
Proof.
  intros Hm Hh Hab Hbc t. unfold try_catch. specialize (Hm t).
  destruct (r_out (m t)) as [x|err]; simpl.
  - eapply band_weaken; [| |done]; lia.
  - rewrite progress_written_app. by eapply band_app; [| apply Hh | |].
Qed.

Lemma emits_try_finally {A} (a b c : Z) (m : M A) (fin : M unit) :
  emits a b m → emits b c fin → a ≤ b → b ≤ c → emits a c (try_finally m fin).
Proof.
  intros Hm Hfin Hab Hbc t. simpl. rewrite progress_written_app.
  by eapply band_app; [apply Hm | apply Hfin | |].
Qed.

Ltac band_leaf :=
  unfold band, progress_written; cbn [omap list_omap progress_of f_progress];
  split; repeat constructor; lia.

Section Progress.
Context `{JSRuntime}.
Variable e : env.
Variable j : job.

Lemma synthesize_scene_silent (i : nat) (s : Scene) :
  keeps (fun _ => True) no_progress
        (try_catch (synthesize_scene e j i s) (fun _ => ret tt)).
Proof. unfold synthesize_scene. repeat keeps_step keeps_call. Qed.

Lemma scene_step_progress (totalScenes i : nat) (t : task) :
  progress_written (r_log (scene_step e j totalScenes i t))
  = [audioProgress i totalScenes].
Proof.
  change (wp (scene_step e j totalScenes i) t
            (fun r => progress_written (r_log r) = [audioProgress i totalScenes])).
  unfold scene_step. repeat wp_head; reflexivity.
Qed.

Lemma audio_loop_progress (totalScenes n i : nat) (t : task) :
  (i + n ≤ totalScenes)%nat →
  band (audioProgress i totalScenes) 30
       (progress_written (r_log (for_loop n i (scene_step e j totalScenes) t))).
Proof.
  revert i t. induction n as [|n IH]; intros i t Hi; [apply band_nil|].
  cbn [for_loop]. unfold bind.
  pose proof (scene_step_progress totalScenes i t) as Hstep.
  pose proof (audioProgress_bounds i totalScenes ltac:(lia)) as Hbounds.
  destruct (r_out (scene_step e j totalScenes i t)); cbn [r_log after].
  - rewrite progress_written_app, Hstep.
    eapply (band_app _ (audioProgress i totalScenes)); [by apply band_singleton | | lia..].
    eapply band_weaken; [| |apply IH]; [|lia..].
    apply audioProgress_mono; lia.
  - rewrite Hstep. apply band_singleton. lia.
Qed.

Lemma generate_audio_emits : emits 5 30 (generate_audio e j).
Proof.
  intros t. unfold generate_audio, bind, read. simpl.
  eapply band_weaken; [| |apply (audio_loop_progress _ _ 0)]; [|lia..].
  destruct (scenes t) as [|s l]; [done|].
  apply audioProgress_bounds. simpl. lia.
Qed.

Lemma progress_callback_emits (progress : Q) :
  emits (renderProgress progress) (renderProgress progress)
        (try_catch (onProgress e j progress) (fun _ => ret tt)).
Proof.
  intros t.
  change (wp (try_catch (onProgress e j progress) (fun _ => ret tt)) t
            (fun r => band (renderProgress progress) (renderProgress progress)
                           (progress_written (r_log r)))).
  unfold onProgress. repeat wp_head; unfold renderProgress; band_leaf.
Qed.

Lemma progress_callbacks_emit (l : list Q) (lo : Q) :
  StronglySorted Qle l →
  Forall (fun p => (lo <= p)%Q ∧ (p <= 1)%Q) l →
  (0 <= lo)%Q →
  emits (renderProgress lo) 90
        (for_of l (fun progress =>
                     try_catch (onProgress e j progress) (fun _ => ret tt))).
Proof.
  intros Hsorted. revert lo. induction Hsorted as [|p l Hsorted IH Hp]; intros lo Hl Hlo.
  - intros t. apply band_nil.
  - apply Forall_cons in Hl as [[Hlop Hp1] Hl]. cbn [for_of].
    pose proof (renderProgress_bounds p ltac:(by eapply Qle_trans) Hp1).
    pose proof (renderProgress_mono lo p Hlop).
    apply (emits_bind _ (renderProgress p)); [| |lia..].
    + eapply emits_weaken; [| |apply progress_callback_emits]; lia.
    + intros _. apply IH; [|by eapply Qle_trans].
      rewrite Forall_forall in Hp, Hl. apply Forall_forall. intros q Hq.
      split; [by apply Hp | by apply Hl].
Qed.

(** A bind whose head writes no progress. *)
Ltac emits_silent_head :=
  lazymatch goal with
  | |- emits ?a ?c (bind _ _) =>
      apply (emits_bind a a c);
      [apply emits_silent; repeat keeps_step keeps_call | intros ? | lia | lia]
  end.

Lemma plan_and_bundle_emits : emits 5 5 (plan_and_bundle e j).
Proof.
  intros t.
  change (wp (plan_and_bundle e j) t (fun r => band 5 5 (progress_written (r_log r)))).
  repeat wp_head; band_leaf.
Qed.

Lemma publish_emits (p : Plan) : emits 95 100 (publish e j p).
Proof.
  intros t.
  change (wp (publish e j p) t (fun r => band 95 100 (progress_written (r_log r)))).
  repeat wp_head; band_leaf.
Qed.

Lemma render_video_emits (p : Plan) (bundled : string) :
  Sorted Qle (env_render_progress e) →
  Forall (fun progress => (0 <= progress)%Q ∧ (progress <= 1)%Q) (env_render_progress e) →
  emits 30 90 (render_video e j p bundled).
Proof.
  intros Hsorted Hrange. unfold render_video, renderMedia.
  do 6 emits_silent_head.
  apply (emits_bind 30 90 90); [| |lia..].
  - apply (progress_callbacks_emit _ 0); [|done..].
    by apply (@Sorted_StronglySorted _ Qle Qle_trans).
  - intros _. apply emits_silent. keeps_call.
Qed.

Lemma render_job_emits :
  Sorted Qle (env_render_progress e) →
  Forall (fun progress => (0 <= progress)%Q ∧ (progress <= 1)%Q) (env_render_progress e) →
  emits 5 100 (render_job e j).
Proof.
  intros Hsorted Hrange. unfold render_job.
  apply (emits_bind 5 5 100); [apply plan_and_bundle_emits | intros pb | lia..].
  apply (emits_bind 5 30 100); [apply generate_audio_emits | intros _ | lia..].
  apply (emits_bind 30 90 100); [by apply render_video_emits | intros _ | lia..].
  eapply emits_weaken; [| |apply publish_emits]; lia.
Qed.

(** C2. When the render engine reports fractions between 0 and 1 that never
    decrease, no request to the database carries a progress lower than the
    one written before it; all of them lie between 5 and 100. *)
Theorem progress_never_decreases (t : task) :
  Sorted Qle (env_render_progress e) →
  Forall (fun progress => (0 <= progress)%Q ∧ (progress <= 1)%Q) (env_render_progress e) →
  Sorted Z.le (progress_written (r_log (background_render e j t)))
  ∧ Forall (fun progress => 5 ≤ progress ≤ 100)
           (progress_written (r_log (background_render e j t))).
Proof.
  intros Hsorted Hrange.
  assert (emits 5 100 (background_render e j)) as Hemits.
  { unfold background_render. do 2 emits_silent_head.
    apply (emits_try_finally 5 100 100); [| |lia..].
    - apply (emits_try_catch 5 100 100); [by apply render_job_emits | |lia..].
      intros err. apply emits_silent. unfold mark_failed.
      repeat keeps_step keeps_call.
    - apply emits_silent. unfold cleanup, unlink_if_exists.
      repeat keeps_step keeps_call. }
  destruct (Hemits t) as [Hordered Hbounds]. split; [|done].
  by apply StronglySorted_Sorted.
Qed.

End Progress.

(** ** The handler *)

Section Handler.
Context `{JSRuntime}.
Variable e : env.

Lemma generate_video_rejects_falsy (body manifest : value) (t : task) :
  get body "manifest" = Ret manifest →
  truthy manifest = false →
  generate_video e body t
  = {| r_state := t; r_log := [E_respond 400 (error_body "Missing manifest")];
       r_out := Ret None |}.
Proof.
  intros Hbody Hfalsy. apply get_Ret_inv in Hbody as [-> Hget].
  unfold generate_video, bind, lift. cbn [r_out r_state r_log after].
  rewrite !Hget. cbn [r_out r_state r_log after]. by rewrite Hfalsy.
Qed.

Lemma generate_video_rejects_empty (body manifest : value) (m : Manifest) (t : task) :
  get body "manifest" = Ret manifest →
  transformManifest manifest = Ret (Some m) →
  manifest_scenes m = [] →
  generate_video e body t
  = {| r_state := t; r_log := [E_respond 400 (error_body "Invalid or empty manifest")];
       r_out := Ret None |}.
Proof.
  intros Hbody Hm Hempty. apply get_Ret_inv in Hbody as [-> Hget].
  assert (truthy (get_opt body "manifest") = true) as Htruthy.
  { unfold transformManifest in Hm. by destruct (truthy _). }
  unfold generate_video, bind, lift. cbn [r_out r_state r_log after].
  rewrite !Hget. cbn [r_out r_state r_log after].
  rewrite Htruthy, Hm. cbn [negb r_out r_state r_log after].
  by rewrite Hempty.
Qed.

(** C6. A submission without a manifest, or whose manifest normalises to
    no scene, is answered with status 400 and nothing else happens: no job
    id is drawn, no request reaches the database, no background work starts
    and the state is untouched. *)
Theorem empty_manifest_rejected (body manifest : value) (t : task) :
  get body "manifest" = Ret manifest →
  truthy manifest = false
  ∨ (∃ m, transformManifest manifest = Ret (Some m) ∧ manifest_scenes m = []) →
  ∃ msg,
    generate_video e body t
    = {| r_state := t; r_log := [E_respond 400 (error_body msg)]; r_out := Ret None |}
    ∧ handle_request e body t
      = {| r_state := t; r_log := [E_respond 400 (error_body msg)]; r_out := Ret tt |}.
Proof.
  intros Hbody [Hfalsy | (m & Hm & Hempty)].
  - exists "Missing manifest".
    pose proof (generate_video_rejects_falsy body manifest t Hbody Hfalsy) as Hrun.
    split; [done|]. unfold handle_request, bind. by rewrite Hrun.
  - exists "Invalid or empty manifest".
    pose proof (generate_video_rejects_empty body manifest m t Hbody Hm Hempty) as Hrun.
    split; [done|]. unfold handle_request, bind. by rewrite Hrun.
Qed.

(** C10. Normalisation throws on a manifest with a scene whose narration is
    [null], and the submission ends there: the handler throws before it
    draws a job id, answers or starts any work. *)
Theorem null_narration_throws
    (body : value) (fields o : list (string * value)) (l : list value) (t : task) :
  get body "manifest" = Ret (JObj fields) →
  own_property "scenes" fields = Some (JArr l) →
  JObj o ∈ l →
  own_property "narration" o = Some JNull →
  throws (transformManifest (JObj fields))
  ∧ throws (r_out (handle_request e body t))
  ∧ r_log (handle_request e body t) = []
  ∧ r_state (handle_request e body t) = t.
Proof.
  intros Hbody Hscenes Hin Hnull.
  destruct (transformManifest_null_narration fields o l Hscenes Hin Hnull) as [err Herr].
  split; [by exists err|].
  apply get_Ret_inv in Hbody as [Hmanifest Hget].
  unfold handle_request, generate_video, bind, lift. cbn [r_out r_state r_log after].
  rewrite !Hget, <- Hmanifest. cbn [r_out r_state r_log after truthy negb].
  rewrite Herr. cbn [r_out r_state r_log after]. split_and!; [by exists err | done..].
Qed.

End Handler.

(** ** The theorems at work *)

Lemma calm_database (silent : nat → bool) (audio video : upload_result)
    (unlink_fails : bool) (removal : remove_result) :
  job_store_reliable (example_env silent audio video unlink_fails removal).
Proof. intros n. by exists JNull. Qed.

(** C1: the video and the audio files outlive a run whose deletions fail. *)
Lemma temporary_files_outlive_failed_deletion :
  let r := @background_render example_runtime stubborn_env job1 task1 in
  outputLocation job1 ∈ files (r_state r)
  ∧ audioFiles (r_state r) = ["/app/public/audio/job-1_scene_0.mp3";
                              "/app/public/audio/job-1_scene_1.mp3"]
  ∧ "/app/public/audio/job-1_scene_0.mp3" ∈ files (r_state r)
  ∧ (BUCKET_NAME, "job-1_scene_0.mp3") ∈ objects (r_state r).
Proof.
  split_and!; [| reflexivity | |];
    apply (bool_decide_unpack _); vm_compute; exact I.
Qed.

(** The local audio file of a scene whose upload fails is written and not
    tracked: the cleanup, all of whose deletions succeed, leaves it. *)
Lemma untracked_audio_file_stays :
  let r := @background_render example_runtime audio_upload_error_env job1 task1 in
  audioFiles (r_state r) = []
  ∧ E_pipeline 0 "/app/public/audio/job-1_scene_0.mp3" ∈ r_log r
  ∧ "/app/public/audio/job-1_scene_0.mp3" ∈ files (r_state r).
Proof.
  split_and!; [reflexivity | |].
  - vm_compute. repeat first [apply list_elem_of_here | apply list_elem_of_further].
  - apply (bool_decide_unpack _). vm_compute. exact I.
Qed.

Lemma progress_never_decreases_witness :
  Sorted Qle (env_render_progress calm_env)
  ∧ Forall (fun progress => (0 <= progress)%Q ∧ (progress <= 1)%Q)
           (env_render_progress calm_env)
  ∧ Sorted Z.le (progress_written
                   (r_log (@background_render example_runtime calm_env job1 task1)))
  ∧ Forall (fun progress => 5 ≤ progress ≤ 100)
           (progress_written
              (r_log (@background_render example_runtime calm_env job1 task1))).
Proof.
  assert (Sorted Qle (env_render_progress calm_env)) as Hsorted.
  { repeat constructor; unfold Qle; simpl; lia. }
  assert (Forall (fun progress => (0 <= progress)%Q ∧ (progress <= 1)%Q)
                 (env_render_progress calm_env)) as Hrange.
  { repeat constructor; unfold Qle; simpl; lia. }
  split; [exact Hsorted|]. split; [exact Hrange|].
  exact (@progress_never_decreases example_runtime calm_env job1 task1 Hsorted Hrange).
Defined.

Lemma scene_audio_failure_absorbed_witness :
  job_store_reliable first_scene_silent_env
  ∧ @plan_render example_runtime (transformedManifest job1 task1) = Ret plan1
  ∧ env_bundle first_scene_silent_env = Ret "bundle"
  ∧ E_selectComposition "bundle" "LoanBriefing"
      {| manifest_meta := default_meta;
         manifest_scenes :=
           [spoken_scene "Hello" JNull;
            spoken_scene "World"
              (JStr "https://storage/narration-audio/job-1_scene_1.mp3")] |}
      JNull
    ∈ r_log (@background_render example_runtime first_scene_silent_env job1 task1).
Proof.
  split; [apply calm_database|]. split; [reflexivity|]. split; [reflexivity|].
  exact (proj1 (@scene_audio_failure_absorbed example_runtime first_scene_silent_env
                  job1 task1 plan1 "bundle"
                  (calm_database _ _ _ _ _) eq_refl eq_refl)).
Defined.


Lemma upload_failure_not_fatal_witness :
  job_store_reliable video_upload_error_env
  ∧ @plan_render example_runtime (transformedManifest job1 task1) = Ret plan1
  ∧ env_upload video_upload_error_env "videos" (videoId job1 ++ ".mp4") ≠ UploadStored
  ∧ let r := @background_render example_runtime video_upload_error_env job1 task1 in
    r_out r = Ret tt
    ∧ E_db (VideosUpdate "job-1"
              (completed_fields "http://localhost:3001/videos/job-1.mp4" plan1))
      ∈ r_log r
    ∧ last (omap status_of (r_log r)) = Some "completed"
    ∧ Forall (fun ev => status_of ev ≠ Some "failed") (r_log r).
Proof.
  assert (env_upload video_upload_error_env "videos" (videoId job1 ++ ".mp4")
          ≠ UploadStored) as Hfails by discriminate.
  split; [apply calm_database|]. split; [reflexivity|]. split; [exact Hfails|].
  exact (@upload_failure_not_fatal example_runtime video_upload_error_env job1 task1
           plan1 "bundle" (calm_database _ _ _ _ _) eq_refl eq_refl eq_refl eq_refl
           Hfails).
Defined.

Lemma empty_manifest_rejected_witness :
  get empty_manifest_body "manifest" = Ret (JObj [("scenes", JArr [])])
  ∧ ∃ msg,
      @generate_video example_runtime calm_env empty_manifest_body task1
      = {| r_state := task1; r_log := [E_respond 400 (error_body msg)];
           r_out := Ret None |}
      ∧ @handle_request example_runtime calm_env empty_manifest_body task1
        = {| r_state := task1; r_log := [E_respond 400 (error_body msg)];
             r_out := Ret tt |}.
Proof.
  split; [reflexivity|].
  apply (@empty_manifest_rejected example_runtime calm_env empty_manifest_body
           (JObj [("scenes", JArr [])]) task1 eq_refl).
  right. exists {| manifest_meta := default_meta; manifest_scenes := [] |}.
  split; reflexivity.
Defined.

(** C8: a negative duration stays negative. *)
Lemma negative_duration_kept :
  @transformScene example_runtime negative_duration_scene 0
  = Ret (normalized_scene "0" (-5))
  ∧ (inject_Z (-5) < 0)%Q.
Proof. split; reflexivity. Qed.

Lemma normalized_duration_witness :
  @transformScene example_runtime zero_duration_scene 0 = Ret (normalized_scene "0" 10)
  ∧ (truthy (get_opt zero_duration_scene "duration") = false →
     scene_duration (normalized_scene "0" 10) = JNum (num_of_Z 10))
  ∧ (∀ q, get_opt zero_duration_scene "duration" = JNum (Fin q) → ¬ (q == 0)%Q →
          scene_duration (normalized_scene "0" 10) = JNum (Fin q)).
Proof.
  split; [reflexivity|].
  exact (@normalized_duration example_runtime zero_duration_scene 0
           (normalized_scene "0" 10) eq_refl).
Defined.

(** C9: a meta that gives the theme only is left without version,
    resolution and frame rate. *)
Lemma partial_meta_gets_no_defaults :
  @transformManifest example_runtime partial_meta_manifest
  = Ret (Some {| manifest_meta := JObj [("theme", JStr "light")];
                 manifest_scenes := [normalized_scene "0" 10] |})
  ∧ get (JObj [("theme", JStr "light")]) "version" = Ret JUndefined
  ∧ get (JObj [("theme", JStr "light")]) "resolution" = Ret JUndefined
  ∧ get (JObj [("theme", JStr "light")]) "fps" = Ret JUndefined.
Proof. split_and!; reflexivity. Qed.

Lemma meta_defaults_witness :
  @transformManifest example_runtime no_meta_manifest
  = Ret (Some {| manifest_meta := default_meta;
                 manifest_scenes := [normalized_scene "0" 10] |})
  ∧ manifest_meta {| manifest_meta := default_meta;
                     manifest_scenes := [normalized_scene "0" 10] |}
    = default_meta.
Proof.
  split; [reflexivity|].
  exact (proj1 (@meta_defaults example_runtime no_meta_manifest
                  {| manifest_meta := default_meta;
                     manifest_scenes := [normalized_scene "0" 10] |} eq_refl)).
Defined.

Lemma null_narration_throws_witness :
  get (JObj [("manifest", JObj null_narration_fields)]) "manifest"
  = Ret (JObj null_narration_fields)
  ∧ throws (@transformManifest example_runtime (JObj null_narration_fields))
  ∧ throws (r_out (@handle_request example_runtime calm_env
                     (JObj [("manifest", JObj null_narration_fields)]) task1))
  ∧ r_log (@handle_request example_runtime calm_env
             (JObj [("manifest", JObj null_narration_fields)]) task1) = []
  ∧ r_state (@handle_request example_runtime calm_env
               (JObj [("manifest", JObj null_narration_fields)]) task1) = task1.
Proof.
  split; [reflexivity|].
  apply (@null_narration_throws example_runtime calm_env
           (JObj [("manifest", JObj null_narration_fields)]) null_narration_fields
           [("narration", JNull)] [plain_scene; JObj [("narration", JNull)]] task1);
    [reflexivity | reflexivity | | reflexivity].
  apply list_elem_of_further, list_elem_of_here.
Defined.

(** ** What normalisation keeps and when it returns *)

Lemma value_nested_ind (P : value → Prop) :
  P JUndefined → P JNull → (∀ b, P (JBool b)) → (∀ n, P (JNum n)) → (∀ s, P (JStr s)) →
  (∀ l, Forall P l → P (JArr l)) →
  (∀ o, P (JObj o)) →
  ∀ v, P v.
Proof.
  intros Hu Hn Hb Hnum Hs Harr Hobj. fix IH 1.
  intros [| |b|n|s|l|o];
    [exact Hu | exact Hn | apply Hb | apply Hnum | apply Hs | | apply Hobj].
  apply Harr. induction l as [|x l IHl]; constructor; [apply IH | apply IHl].
Qed.

Lemma map_indexed_lookup {A B} (f : A → nat → outcome B) (l : list A) (i : nat) (l' : list B) :
  map_indexed f l i = Ret l' →
  ∀ k x, l !! k = Some x → ∃ y, l' !! k = Some y ∧ f x (i + k)%nat = Ret y.
Proof.
  revert i l'. induction l as [|x0 l IH]; intros i l' Hmap k x Hk; [done|].
  simpl in Hmap.
  apply obind_Ret_inv in Hmap as (y & Hy & Hmap).
  apply obind_Ret_inv in Hmap as (ys & Hys & Hmap). simplify_eq.
  destruct k as [|k]; simpl in Hk.
  - simplify_eq. exists y. by rewrite Nat.add_0_r.
  - destruct (IH _ _ Hys k x Hk) as (y' & Hy' & Hf). exists y'. split; [done|].
    by replace (i + S k)%nat with (S i + k)%nat by lia.
Qed.

Lemma map_indexed_returns {A B} (f : A → nat → outcome B) (l : list A) (i : nat) :
  returns (map_indexed f l i) ↔ ∀ k x, l !! k = Some x → returns (f x (i + k)%nat).
Proof.
  revert i. induction l as [|x0 l IH]; intros i; simpl.
  - split; [by intros _ k x | intros _; by eexists].
  - split.
    + intros [l' Hl'] k x Hk.
      destruct (map_indexed_lookup f (x0 :: l) i l' Hl' k x Hk) as (y & _ & Hy).
      by exists y.
    + intros Hall. destruct (Hall 0%nat x0 eq_refl) as [y Hy].
      rewrite Nat.add_0_r in Hy. rewrite Hy. simpl.
      assert (returns (map_indexed f l (S i))) as [ys ->]; [|by eexists].
      apply IH. intros k x Hk.
      replace (S i + k)%nat with (i + S k)%nat by lia. by apply Hall.
Qed.

Section NormalisationFacts.
Context `{JSRuntime}.

Lemma to_string_printable (v : value) : returns (to_string v) ↔ printable v = true.
Proof.
  induction v as [| |b|n|s|l IH|o] using value_nested_ind; try (split; [done | by eexists]).
  - cbn [to_string printable].
    induction IH as [|x l Hx _ IHl]; [split; [done | by eexists]|].
    cbn [forallb]. rewrite andb_true_iff, <- Hx, <- IHl. clear Hx IHl.
    split.
    + intros [s Hs]. apply obind_Ret_inv in Hs as (sx & Hsx & Hs).
      split.
      * destruct x; try (by eexists).
      * destruct l as [|y l]; [by eexists|].
        apply obind_Ret_inv in Hs as (t & Ht & _). by exists t.
    + intros [[sx Hsx] [t Ht]].
      assert (match x with JUndefined | JNull => Ret "" | _ => to_string x end
              = Ret (match x with JUndefined | JNull => "" | _ => sx end)) as ->.
      { destruct x; try done. }
      cbn [obind]. destruct l as [|y l]; [by eexists|].
      rewrite Ht. by eexists.
  - cbn [to_string printable]. destruct (has_own "toString" o); split; try done.
    + by intros [? ?].
    + by eexists.
Qed.


Lemma join_printable (sep : string) (l : list value) :
  returns (join sep l) ↔ forallb printable l = true.
Proof.
  induction l as [|x l IHl]; [split; [done | by eexists]|].
  cbn [join forallb]. rewrite andb_true_iff, <- (to_string_printable x), <- IHl.
  clear IHl. split.
  - intros [s Hs]. apply obind_Ret_inv in Hs as (sx & Hsx & Hs). split.
    + destruct x; try (by eexists).
    + destruct l as [|y l]; [by eexists|].
      apply obind_Ret_inv in Hs as (t & Ht & _). by exists t.
  - intros [[sx Hsx] [t Ht]].
    assert (match x with JUndefined | JNull => Ret "" | _ => to_string x end
            = Ret (match x with JUndefined | JNull => "" | _ => sx end)) as ->.
    { destruct x; try done. }
    cbn [obind]. destruct l as [|y l]; [by eexists|].
    rewrite Ht. by eexists.
Qed.

Lemma join_strings (sep : string) (strs : list string) :
  join sep (JStr <$> strs) = Ret (String.concat sep strs).
Proof.
  induction strs as [|s strs IH]; [done|].
  cbn [fmap list_fmap join to_string obind]. fold (fmap JStr strs).
  destruct strs as [|s' strs]; [done|].
  rewrite IH. reflexivity.
Qed.

Lemma own_property_set_eq (prop : string) (v : value) (o : list (string * value)) :
  own_property prop (set_property prop v o) = Some v.
Proof.
  induction o as [|[k w] o IH]; simpl.
  - by rewrite String.eqb_refl.
  - destruct (String.eqb k prop) eqn:Hk; simpl; by rewrite Hk.
Qed.

Lemma own_property_set_ne (prop k : string) (v : value) (o : list (string * value)) :
  k ≠ prop → own_property k (set_property prop v o) = own_property k o.
Proof.
  intros Hne. induction o as [|[k' w] o IH]; simpl.
  - destruct (String.eqb_spec prop k); [congruence | done].
  - destruct (String.eqb_spec k' prop) as [->|Hk']; simpl.
    + destruct (String.eqb_spec prop k); [congruence | done].
    + by rewrite IH.
Qed.

Lemma set_property_keys (prop : string) (v : value) (o : list (string * value)) :
  has_own prop o = true → (set_property prop v o).*1 = o.*1.
Proof.
  unfold has_own. induction o as [|[k w] o IH]; simpl; [done|].
  destruct (String.eqb k prop); simpl; [done|]. intros Hown. f_equal. by apply IH.
Qed.

Lemma transformComponent_returns (component : value) :
  returns (transformComponent component) ↔ component_normalises component = true.
Proof.
  unfold transformComponent, component_normalises.
  destruct component as [| |b|n|s|l|o]; simpl;
    try (split; [by intros [? ?] | done]); try (split; [done | by eexists]).
  destruct (strict_eq_string _ _); [|split; [done | by eexists]].
  destruct (default JUndefined (own_property "rationale" o)) as [| |b|n|s|l|o'];
    try (split; [done | by eexists]).
  rewrite <- (join_printable ". " l).
  destruct (join ". " l) as [joined|err]; simpl; split; intros [? Heq];
    first [discriminate Heq | by eexists].
Qed.

Lemma transformScene_returns (scene : value) (idx : nat) :
  returns (transformScene scene idx) ↔ scene_normalises scene = true.
Proof.
  unfold transformScene, scene_normalises, rawComponents.
  assert ((scene = JUndefined ∨ scene = JNull)
          ∨ ((∀ prop, get scene prop = Ret (get_opt scene prop))
             ∧ ∀ b : bool, match scene with JUndefined | JNull => false | _ => b end = b))
    as [[-> | ->]|[Hget Hscene]] by (destruct scene; auto).
  - split; [by intros [? ?] | done].
  - split; [by intros [? ?] | done].
  - rewrite !Hget. cbn [obind].
    assert ((if truthy (get_opt scene "components") then Ret (get_opt scene "components")
             else Ret (js_or (get_opt (get_opt scene "visuals") "components") (JArr [])))
            = Ret (if truthy (get_opt scene "components") then get_opt scene "components"
                   else js_or (get_opt (get_opt scene "visuals") "components") (JArr [])))
      as -> by (by destruct (truthy _)).
    cbn [obind].
    set (rc := if truthy (get_opt scene "components") then _ else _).
    rewrite Hscene.
    assert (returns (js_map (fun component _ => transformComponent component) rc)
            ↔ match rc with JArr l => forallb component_normalises l | _ => false end = true)
      as Hcomponents.
    { destruct rc as [| |b|n|s|l|o]; simpl; try (split; [by intros [? ?] | done]).
      rewrite map_indexed_returns, forallb_forall. split.
      - intros Hall c Hc. apply list_elem_of_In, list_elem_of_lookup in Hc as [k Hk].
        apply transformComponent_returns. by apply (Hall k).
      - intros Hall k c Hk. apply transformComponent_returns, Hall.
        apply list_elem_of_In. by eapply list_elem_of_lookup_2. }
    rewrite andb_true_iff, <- Hcomponents. clear Hcomponents.
    destruct (js_map _ rc) as [components|err]; cbn [obind];
      [|split; [by intros [? ?] | by intros [[? ?] _]]].
    assert ((if truthy (get_opt scene "start") then Ret (get_opt scene "start")
             else Ret (js_or (get_opt scene "start_time") (JNum (num_of_Z 0))))
            = Ret (if truthy (get_opt scene "start") then get_opt scene "start"
                   else js_or (get_opt scene "start_time") (JNum (num_of_Z 0))))
      as -> by (by destruct (truthy (get_opt scene "start"))).
    cbn [obind].
    destruct (get_opt scene "narration") as [| |b|n|s|l|o]; simpl;
      split; try (by intros [? ?]); try (by intros [_ ?]); intros _;
      (split; [by eexists | done]) || by eexists.
Qed.



(** X1. Normalisation keeps the number and the order of the scenes: the
    k-th scene of the result is the k-th raw scene, normalised with the
    index k. *)
Theorem transformManifest_scene_by_scene (aiManifest : value) (m : Manifest) :
  transformManifest aiManifest = Ret (Some m) →
  ∃ l, js_or (get_opt aiManifest "scenes") (JArr []) = JArr l
       ∧ length (manifest_scenes m) = length l
       ∧ ∀ k scene, l !! k = Some scene →
           ∃ s, manifest_scenes m !! k = Some s ∧ transformScene scene k = Ret s.
Proof.
  unfold transformManifest. intros Hm.
  destruct (truthy aiManifest) eqn:Htruthy; simpl in Hm; [|done].
  rewrite !(get_truthy _ _ Htruthy) in Hm. cbn [obind] in Hm.
  apply obind_Ret_inv in Hm as (scs & Hscs & Hm). simplify_eq. cbn [manifest_scenes].
  destruct (js_or (get_opt aiManifest "scenes") (JArr [])) as [| |b|n|s|l|o];
    try done.
  exists l. split_and!; [done | by eapply map_indexed_length |].
  intros k scene Hk. by apply (map_indexed_lookup _ _ _ _ Hscs k scene Hk).
Qed.

(** X2. No field of a normalised scene is missing: the id, the duration and
    the layout are truthy, the start is truthy or 0, the text is truthy or
    the empty string, and a narration that is not an object gives the audio
    URL [null]. *)
Theorem normalized_scene_fields (scene : value) (idx : nat) (s : Scene) :
  transformScene scene idx = Ret s →
  truthy (scene_id s) = true
  ∧ truthy (scene_duration s) = true
  ∧ truthy (visuals_layout (scene_visuals s)) = true
  ∧ (truthy (scene_start s) = true ∨ scene_start s = JNum (num_of_Z 0))
  ∧ (truthy (narration_text (scene_narration s)) = true
     ∨ narration_text (scene_narration s) = JStr "")
  ∧ (typeof (get_opt scene "narration") ≠ TyObject →
     narration_audioUrl (scene_narration s) = JNull).
Proof.
  unfold transformScene. intros Hs.
  apply obind_Ret_inv in Hs as (c & Hc & Hs).
  apply get_Ret_inv in Hc as [_ Hget]. rewrite !Hget in Hs. cbn [obind] in Hs.
  apply obind_Ret_inv in Hs as (rc & _ & Hs).
  apply obind_Ret_inv in Hs as (components & _ & Hs).
  apply obind_Ret_inv in Hs as (start & Hstart & Hs).
  apply obind_Ret_inv in Hs as (text & Htext & Hs).
  apply obind_Ret_inv in Hs as (audioUrl & HaudioUrl & Hs).
  simplify_eq. cbn [scene_id scene_duration scene_visuals visuals_layout scene_start
                    scene_narration narration_text narration_audioUrl].
  assert (∀ a b, truthy b = true → truthy (js_or a b) = true) as Hor.
  { intros a b Hb. unfold js_or. by destruct (truthy a) eqn:Ha. }
  split_and!.
  - apply Hor. done.
  - apply Hor. done.
  - apply Hor. done.
  - destruct (truthy (get_opt scene "start")) eqn:Hst; simplify_eq; [by left|].
    unfold js_or. destruct (truthy (get_opt scene "start_time")) eqn:Hst'; auto.
  - destruct (get_opt scene "narration") as [| |b|n|txt|l|o] eqn:Hn;
      cbn [typeof js_type_eqb] in Htext; simplify_eq.
    all: try (right; reflexivity).
    + destruct (truthy (JStr txt)) eqn:Htxt; [by left|]. right.
      simpl in Htxt. by destruct (String.eqb_spec txt "") as [->|].
    + unfold js_or.
      destruct (truthy (default JUndefined (own_property "text" o))) eqn:Ht;
        [left; exact Ht | by right].
  - intros Hty. destruct (get_opt scene "narration") as [| |b|n|txt|l|o];
      cbn [typeof js_type_eqb] in HaudioUrl; by simplify_eq.
Qed.

(** X3. A recommendation whose rationale is an array of strings comes out
    with the strings joined by ". " as its rationale; its other properties
    and the order of its keys are unchanged. *)
Theorem rationale_flattened (o : list (string * value)) (strs : list string) :
  own_property "type" o = Some (JStr "recommendation") →
  own_property "rationale" o = Some (JArr (JStr <$> strs)) →
  ∃ o', transformComponent (JObj o) = Ret (JObj o')
        ∧ own_property "rationale" o' = Some (JStr (String.concat ". " strs))
        ∧ (∀ k, k ≠ "rationale" → own_property k o' = own_property k o)
        ∧ o'.*1 = o.*1.
Proof.
  intros Hty Hrationale. unfold transformComponent.
  rewrite !get_object, Hty, Hrationale.
  cbn [default from_option id obind strict_eq_string].
  rewrite String.eqb_refl, join_strings. cbn [obind spread].
  eexists. split_and!; [reflexivity | apply own_property_set_eq | |].
  - intros k Hk. by apply own_property_set_ne.
  - apply set_property_keys. unfold has_own. by rewrite Hrationale.
Qed.

(** X4. Every other component passes through the normalisation as it is, a
    component of a type the renderer does not know included; and no
    component changes its type. *)
Theorem other_components_unchanged (component component' : value) :
  transformComponent component = Ret component' →
  get_opt component' "type" = get_opt component "type"
  ∧ (strict_eq_string (get_opt component "type") "recommendation" = false
     ∨ (∀ l, get_opt component "rationale" ≠ JArr l) →
     component' = component).
Proof.
  unfold transformComponent. intros Hc.
  apply obind_Ret_inv in Hc as (ty & Hty & Hc).
  apply get_Ret_inv in Hty as [-> Hget].
  destruct (strict_eq_string (get_opt component "type") "recommendation") eqn:Hrec;
    [|simplify_eq; auto].
  rewrite Hget in Hc. cbn [obind] in Hc.
  destruct (get_opt component "rationale") as [| |b|n|s|l|o'] eqn:Hr;
    try (simplify_eq; split; [done | auto]).
  apply obind_Ret_inv in Hc as (joined & _ & Hc). simplify_eq. split.
  - destruct component as [| |b|n|s|l'|o]; try done.
    cbn [get_opt spread]. by rewrite own_property_set_ne.
  - intros [?|Hno]; [done|]. by destruct (Hno l).
Qed.

(** X5. [transformManifest] throws on exactly these inputs: a truthy manifest
    whose [scenes] is truthy and not an array, or has a scene that is
    [null], [undefined], has a [null] narration, has components that are not
    an array, or has a component that is [null], [undefined] or a
    recommendation whose rationale array holds an object with a [toString]
    key of its own. *)
Theorem transformManifest_returns (aiManifest : value) :
  returns (transformManifest aiManifest) ↔ manifest_normalises aiManifest = true.
Proof.
  unfold transformManifest, manifest_normalises.
  destruct (truthy aiManifest) eqn:Htruthy; simpl; [|split; [done | by eexists]].
  rewrite !(get_truthy _ _ Htruthy). cbn [obind].
  destruct (js_or (get_opt aiManifest "scenes") (JArr [])) as [| |b|n|s|l|o]; simpl;
    try (split; [by intros [? ?] | done]).
  rewrite forallb_forall. split.
  - intros [m Hm] sc Hsc. apply obind_Ret_inv in Hm as (scs & Hscs & _).
    apply list_elem_of_In, list_elem_of_lookup in Hsc as [k Hk].
    destruct (map_indexed_lookup _ _ _ _ Hscs k sc Hk) as (s' & _ & Hs').
    apply (transformScene_returns sc (0 + k)). by exists s'.
  - intros Hall.
    assert (returns (map_indexed transformScene l 0)) as [scs ->]; [|by eexists].
    apply map_indexed_returns. intros k sc Hk. apply transformScene_returns, Hall.
    apply list_elem_of_In. by eapply list_elem_of_lookup_2.
Qed.

End NormalisationFacts.

(** ** The responses of the handler *)

Section HandlerFacts.
Context `{JSRuntime}.
Variable e : env.

Lemma background_render_never_responds (j : job) :
  keeps (fun _ => True) (fun ev => response_of ev = None) (background_render e j).
Proof.
  unfold background_render, render_job, plan_and_bundle, generate_audio, scene_step,
    synthesize_scene, render_video, publish, publish_video, sync_artifacts, ensure_bucket,
    renderMedia, onProgress, mark_failed, cleanup, unlink_if_exists.
  repeat keeps_step keeps_call.
Qed.

Lemma responses_silent (l : list event) :
  Forall (fun ev => response_of ev = None) l → responses l = [].
Proof. induction 1 as [|ev l Hev _ IH]; simpl; [done | by rewrite Hev]. Qed.

(** The handler up to the start of the background render, case by case. *)
Lemma generate_video_run (body : value) (t : task) :
  wp (generate_video e body) t
     (fun r => match r_out r with
               | Ret (Some j) =>
                   r_log r = [E_randomUUID; E_respond 200 (accepted_body (videoId j))]
               | Ret None => ∃ msg, r_log r = [E_respond 400 (error_body msg)]
               | Throw _ => responses (r_log r) = []
               end).
Proof.
  unfold generate_video. repeat wp_head; try reflexivity; by eexists.
Qed.


(** X6. A request gets at most one response, and the background render
    sends none: a handler that starts a job has answered 200 with the id of
    that job, a handler that starts none has answered 400, and a handler
    that throws has not answered. *)
Theorem request_answered_once (body : value) (t : task) :
  match r_out (generate_video e body t) with
  | Ret (Some j) =>
      responses (r_log (handle_request e body t)) = [(200, accepted_body (videoId j))]
  | Ret None =>
      ∃ msg, responses (r_log (handle_request e body t)) = [(400, error_body msg)]
  | Throw _ => responses (r_log (handle_request e body t)) = []
  end.
Proof.
  pose proof (generate_video_run body t) as Hrun. unfold wp in Hrun.
  unfold handle_request, bind.
  destruct (r_out (generate_video e body t)) as [[j|]|err]; cbn [after r_log].
  - unfold responses. rewrite omap_app, Hrun.
    fold (responses (r_log (background_render e j (r_state (generate_video e body t))))).
    rewrite (responses_silent (r_log (background_render e j _))); [done|].
    by apply background_render_never_responds.
  - destruct Hrun as [msg ->]. by exists msg.
  - done.
Qed.

(** X7. An accepted submission: the handler draws one id, answers 200 with
    it and only then starts the background render, on the scenes of the
    normalised manifest, with the output file named after the id. *)
Theorem submission_accepted (body : value) (m : Manifest) (t : task) :
  transformManifest (get_opt body "manifest") = Ret (Some m) →
  manifest_scenes m ≠ [] →
  printable (get_opt body "manifest_id") = true →
  let j := {| videoId := env_randomUUID e;
              outputLocation := outputDir e ++ "/" ++ env_randomUUID e ++ ".mp4";
              manifest_id := get_opt body "manifest_id";
              analysis := get_opt body "analysis";
              meta := manifest_meta m |} in
  generate_video e body t
  = {| r_state := with_scenes (manifest_scenes m) t;
       r_log := [E_randomUUID; E_respond 200 (accepted_body (env_randomUUID e))];
       r_out := Ret (Some j) |}
  ∧ r_log (handle_request e body t)
    = ([E_randomUUID; E_respond 200 (accepted_body (env_randomUUID e))]
       ++ r_log (background_render e j (with_scenes (manifest_scenes m) t)))%list.
Proof.
  intros Hm Hscenes Hid j.
  assert (truthy (get_opt body "manifest") = true) as Htruthy.
  { unfold transformManifest in Hm. by destruct (truthy _). }
  assert (∀ prop, get body prop = Ret (get_opt body prop)) as Hget.
  { intros prop. destruct body; try done. }
  apply to_string_printable in Hid as [s Hs].
  assert (generate_video e body t
          = {| r_state := with_scenes (manifest_scenes m) t;
               r_log := [E_randomUUID; E_respond 200 (accepted_body (env_randomUUID e))];
               r_out := Ret (Some j) |}) as Hrun.
  { unfold generate_video, bind, lift. cbn [r_out r_state r_log after].
    rewrite !Hget. cbn [r_out r_state r_log after].
    rewrite Htruthy, Hm. cbn [negb r_out r_state r_log after].
    destruct (manifest_scenes m) as [|s0 scs] eqn:Hscs; [done|].
    cbn [length Nat.eqb randomUUID r_out r_state r_log after].
    rewrite Hs. reflexivity. }
  split; [exact Hrun|].
  unfold handle_request, bind. by rewrite Hrun.
Qed.

(** X8. A [manifest_id] that cannot be converted to a string (an object with
    a [toString] key, alone or inside an array) makes the handler throw in
    the template literal of its log line: the id is drawn, but no response
    is sent and no background work starts. *)
Theorem unprintable_manifest_id (body : value) (m : Manifest) (t : task) :
  transformManifest (get_opt body "manifest") = Ret (Some m) →
  manifest_scenes m ≠ [] →
  printable (get_opt body "manifest_id") = false →
  throws (r_out (handle_request e body t))
  ∧ r_log (handle_request e body t) = [E_randomUUID]
  ∧ r_state (handle_request e body t) = t.
Proof.
  intros Hm Hscenes Hid.
  assert (truthy (get_opt body "manifest") = true) as Htruthy.
  { unfold transformManifest in Hm. by destruct (truthy _). }
  assert (∀ prop, get body prop = Ret (get_opt body prop)) as Hget.
  { intros prop. destruct body; try done. }
  destruct (to_string (get_opt body "manifest_id")) as [s|err] eqn:Hs.
  { assert (printable (get_opt body "manifest_id") = true); [|congruence].
    apply to_string_printable. by exists s. }
  unfold handle_request, generate_video, bind, lift. cbn [r_out r_state r_log after].
  rewrite !Hget. cbn [r_out r_state r_log after].
  rewrite Htruthy, Hm. cbn [negb r_out r_state r_log after].
  destruct (manifest_scenes m) as [|s0 scs] eqn:Hscs; [done|].
  cbn [length Nat.eqb randomUUID r_out r_state r_log after].
  rewrite Hs. cbn [r_out r_state r_log after]. split_and!; [by exists err | done..].
Qed.

End HandlerFacts.

(** ** The background render, whatever the collaborators answer *)

(** A call to a collaborator whose event needs [tac]. *)
Ltac keeps_call_by tac :=
  let t := fresh "t" in
  let Ht := fresh "Ht" in
  lazymatch goal with
  | |- keeps _ _ ?m => let h := head_of m in try unfold h
  end;
  intros t Ht;
  repeat match goal with
         | |- context [match ?x with _ => _ end] => destruct x
         end;
  simpl; (split; [first [exact Ht | done] | repeat constructor; tac]).

(** A call to a collaborator that changes the outside world: [st] proves
    the invariant of the new state. *)
Ltac keeps_world st :=
  let t := fresh "t" in
  let Ht := fresh "Ht" in
  lazymatch goal with
  | |- keeps _ _ ?m => let h := head_of m in try unfold h
  end;
  intros t Ht;
  repeat match goal with
         | |- context [match ?x with _ => _ end] => destruct x
         end;
  simpl; (split; [first [exact Ht | st t Ht] | repeat constructor; done]).

Section BackgroundFacts.
Context `{JSRuntime}.
Variable e : env.
Variable j : job.

Ltac unfold_job :=
  unfold background_render, render_job, plan_and_bundle, generate_audio, scene_step,
    synthesize_scene, render_video, publish, publish_video, sync_artifacts, ensure_bucket,
    renderMedia, onProgress, mark_failed, cleanup, unlink_if_exists.

(** X9. Every request to the table [videos] addresses the row of the job. *)
Theorem requests_address_own_row (t : task) :
  Forall (fun ev => ∀ id, videos_row ev = Some id → id = videoId j)
         (r_log (background_render e j t)).
Proof.
  assert (keeps (fun _ => True) (fun ev => ∀ id, videos_row ev = Some id → id = videoId j)
                (background_render e j)) as Hkeeps.
  { unfold_job. repeat keeps_step ltac:(keeps_call_by ltac:(by simpl; intros; simplify_eq)). }
  by apply Hkeeps.
Qed.


(** X10. A job submitted without a [manifest_id] (or with a falsy one) only
    ever updates its row: it inserts no row, reads none and touches no
    artifact. *)
Theorem no_manifest_id_updates_only (t : task) :
  truthy (manifest_id j) = false →
  Forall update_only (r_log (background_render e j t)).
Proof.
  intros Hfalsy.
  assert (keeps (fun _ => True) update_only (background_render e j)) as Hkeeps.
  { unfold_job. rewrite !Hfalsy. cbv iota.
    repeat keeps_step keeps_call. }
  by apply Hkeeps.
Qed.

Lemma ensure_bucket_justified :
  keeps (fun _ => True) (creation_justified e) (ensure_bucket e).
Proof.
  intros t _.
  change (wp (ensure_bucket e) t
            (fun r => True ∧ Forall (creation_justified e) (r_log r))).
  unfold ensure_bucket. repeat wp_head; (split; [done|]); repeat constructor.
  all: eexists; split; [eassumption|];
    match goal with
    | Hin : bool_decide _ = false |- _ => by apply bool_decide_eq_false in Hin
    end.
Qed.

Lemma ensure_bucket_lists (t : task) :
  ∃ l, r_log (ensure_bucket e t) = E_listBuckets :: l
       ∧ (bucket_missing e → E_createBucket BUCKET_NAME ∈ l).
Proof.
  change (wp (ensure_bucket e) t
            (fun r => ∃ l, r_log r = E_listBuckets :: l
                           ∧ (bucket_missing e → E_createBucket BUCKET_NAME ∈ l))).
  unfold ensure_bucket. repeat wp_head.
  all: eexists; (split; [reflexivity|]); intros (buckets & Hlist & Hmissing).
  all: try apply list_elem_of_here.
  all: exfalso; rewrite Hlist in *; simplify_eq.
  match goal with
  | Hin : bool_decide _ = true |- _ => by apply bool_decide_eq_true in Hin
  end.
Qed.

Lemma log_bind_prefix {A B} (m : M A) (k : A → M B) (t : task) :
  ∃ l, r_log (bind m k t) = (r_log (m t) ++ l)%list.
Proof.
  unfold bind. destruct (r_out (m t)); simpl; [by eexists|].
  exists []. by rewrite app_nil_r.
Qed.

Lemma log_try_catch_prefix {A} (m : M A) (h : js_error → M A) (t : task) :
  ∃ l, r_log (try_catch m h t) = (r_log (m t) ++ l)%list.
Proof.
  unfold try_catch. destruct (r_out (m t)); simpl; [|by eexists].
  exists []. by rewrite app_nil_r.
Qed.

(** X11. The check of the bucket opens the run, and the bucket is created
    exactly when the listing returned without it, under its own name; no
    other call creates a bucket. *)
Theorem bucket_created_when_missing (t : task) :
  head (r_log (background_render e j t)) = Some E_listBuckets
  ∧ ∀ name, E_createBucket name ∈ r_log (background_render e j t)
            ↔ name = BUCKET_NAME ∧ bucket_missing e.
Proof.
  destruct (ensure_bucket_lists (fresh_task t)) as (l & Hlog & Hcreates).
  assert (∃ l', r_log (background_render e j t)
                = (r_log (ensure_bucket e (fresh_task t)) ++ l')%list) as [l' Hrun].
  { rewrite background_render_log. unfold guarded_render_job.
    destruct (log_try_catch_prefix (render_job e j) (fun _ => mark_failed e j)
                (fresh_task t)) as [l1 ->].
    unfold render_job at 1.
    destruct (log_bind_prefix (plan_and_bundle e j)
                (fun pb => bind (generate_audio e j)
                  (fun _ => bind (render_video e j pb.1 pb.2)
                    (fun _ => publish e j pb.1))) (fresh_task t)) as [l2 ->].
    unfold plan_and_bundle at 1.
    match goal with
    | |- context [r_log (bind (ensure_bucket e) ?k (fresh_task t))] =>
        destruct (log_bind_prefix (ensure_bucket e) k (fresh_task t)) as [l3 ->]
    end.
    rewrite <- !app_assoc. by eexists. }
  split.
  - by rewrite Hrun, Hlog.
  - intros name. split.
    + intros Hin.
      assert (keeps (fun _ => True) (creation_justified e) (background_render e j))
        as Hkeeps.
      { unfold background_render, render_job, plan_and_bundle, generate_audio, scene_step,
          synthesize_scene, render_video, publish, publish_video, sync_artifacts,
          renderMedia, onProgress, mark_failed, cleanup, unlink_if_exists.
        repeat first [apply ensure_bucket_justified | keeps_step keeps_call]. }
      destruct (Hkeeps t I) as [_ Hlogs]. rewrite Forall_forall in Hlogs.
      apply (Hlogs _ Hin).
    + intros [-> Hmissing]. rewrite Hrun, Hlog.
      apply elem_of_app. left. apply list_elem_of_further. by apply Hcreates.
Qed.


(** X12. An exception leaves the background task exactly when the [try] block
    throws and the request that writes the status failed throws as well;
    with a database that answers, none does. *)
Theorem background_render_escapes (t : task) :
  let body := render_job e j (fresh_task t) in
  (throws (r_out (background_render e j t))
   ↔ throws (r_out body) ∧ throws (env_db e (db_requests (r_state body))))
  ∧ (job_store_reliable e → r_out (background_render e j t) = Ret tt).
Proof.
  intros body.
  assert (r_out (background_render e j t)
          = match r_out body with
            | Ret _ => Ret tt
            | Throw _ => match env_db e (db_requests (r_state body)) with
                         | Ret _ => Ret tt
                         | Throw err => Throw err
                         end
            end) as ->.
  { rewrite background_render_out, cleanup_returns.
    unfold guarded_render_job. subst body.
    destruct (r_out (render_job e j (fresh_task t))) as [[]|err] eqn:Hbody.
    - by rewrite (try_catch_Ret _ _ _ tt Hbody).
    - unfold try_catch. rewrite Hbody.
      unfold mark_failed, bind, db. cbn [after r_out r_state].
      by destruct (env_db e (db_requests (r_state (render_job e j (fresh_task t))))). }
  split.
  - destruct (r_out body) as [[]|err].
    + split; [by intros [? ?] | by intros [[? ?] _]].
    + destruct (env_db e (db_requests (r_state body))) as [v|err'].
      * split; [by intros [? ?] | by intros [_ [? ?]]].
      * split; [intros _; split; by eexists | intros _; by eexists].
  - intros Hdb. destruct (r_out body) as [[]|err]; [done|].
    destruct (Hdb (db_requests (r_state body))) as [v ->]. done.
Qed.

Lemma bind_returns {A B} (m : M A) (k : A → M B) (t : task) (b : B) :
  r_out (bind m k t) = Ret b →
  ∃ a, r_out (m t) = Ret a
       ∧ r_out (k a (r_state (m t))) = Ret b
       ∧ r_log (bind m k t) = (r_log (m t) ++ r_log (k a (r_state (m t))))%list.
Proof.
  unfold bind. destruct (r_out (m t)) as [a|err]; [|done].
  intros Hout. by exists a.
Qed.

Lemma log_bind_inv {A B} (m : M A) (k : A → M B) (t : task) (ev : event) :
  ev ∈ r_log (bind m k t) →
  ev ∈ r_log (m t) ∨ ∃ a, r_out (m t) = Ret a ∧ ev ∈ r_log (k a (r_state (m t))).
Proof.
  unfold bind. destruct (r_out (m t)) as [a|err]; [|by left].
  cbn [after r_log]. intros [?|?]%elem_of_app; [by left | right; by exists a].
Qed.

Lemma publish_last_status (p : Plan) (t : task) :
  wp (publish e j p) t
     (fun r => r_out r = Ret tt → last (omap status_of (r_log r)) = Some "completed").
Proof.
  unfold publish, publish_video, sync_artifacts.
  repeat wp_head; intros Hout; first [discriminate Hout | reflexivity].
Qed.

Lemma render_job_last_status (t : task) :
  r_out (render_job e j t) = Ret tt →
  last (omap status_of (r_log (render_job e j t))) = Some "completed".
Proof.
  unfold render_job. intros Hout.
  apply bind_returns in Hout as (pb & _ & Hout & ->).
  apply bind_returns in Hout as ([] & _ & Hout & ->).
  apply bind_returns in Hout as ([] & _ & Hout & ->).
  do 3 apply last_status_app_r. by apply publish_last_status.
Qed.

(** X13. The last status a run writes is decided by its [try] block:
    completed, and no failed before it, when the block returns; failed when
    it throws, also when it had written completed before. *)
Theorem terminal_status (t : task) :
  match r_out (render_job e j (fresh_task t)) with
  | Ret _ =>
      last (omap status_of (r_log (background_render e j t))) = Some "completed"
      ∧ Forall (fun ev => status_of ev ≠ Some "failed") (r_log (background_render e j t))
  | Throw _ =>
      last (omap status_of (r_log (background_render e j t))) = Some "failed"
  end.
Proof.
  rewrite background_render_log.
  rewrite last_status_app_silent by (by apply cleanup_writes_no_status).
  unfold guarded_render_job, try_catch.
  destruct (r_out (render_job e j (fresh_task t))) as [[]|err] eqn:Hout.
  - split; [by apply render_job_last_status|].
    apply Forall_app. split.
    + by apply render_job_never_writes_failed.
    + eapply Forall_impl; [by apply cleanup_writes_no_status|].
      intros ev Hev. by rewrite Hev.
  - cbn [after r_log]. apply last_status_app_r.
    unfold mark_failed, bind, db. cbn [after r_out r_log r_state].
    by destruct (env_db e _).
Qed.

Lemma plan_and_bundle_returned (t : task) (pb : Plan * string) :
  r_out (plan_and_bundle e j t) = Ret pb →
  returns (plan_render (transformedManifest j t)) ∧ returns (env_bundle e).
Proof.
  unfold plan_and_bundle. intros Hout.
  apply bind_returns in Hout as ([] & Hbucket & Hout & _).
  destruct (ensure_bucket_spec e t) as [_ Hstate]. rewrite Hstate in Hout.
  apply bind_returns in Hout as (m & Hm & Hout & _).
  apply bind_returns in Hout as (p & Hplan & Hout & _).
  apply bind_returns in Hout as ([] & _ & Hout & _).
  apply bind_returns in Hout as (bundled & Hbundle & _).
  cbn [read lift r_out r_state] in Hm, Hplan. simplify_eq.
  split; [by exists p | by exists bundled].
Qed.

Lemma render_video_returned (t : task) (p : Plan) (bundled : string) :
  r_out (render_video e j p bundled t) = Ret tt →
  env_selectComposition e = Ret tt ∧ env_render e = RenderDone.
Proof.
  unfold render_video, renderMedia. intros Hout.
  apply bind_returns in Hout as (m & _ & Hout & _).
  apply bind_returns in Hout as ([] & Hselect & Hout & _).
  apply bind_returns in Hout as (now & _ & Hout & _).
  apply bind_returns in Hout as ([] & _ & Hout & _).
  apply bind_returns in Hout as (m' & _ & Hout & _).
  apply bind_returns in Hout as ([] & _ & Hout & _).
  apply bind_returns in Hout as ([] & _ & Hout & _).
  split; [exact Hselect|]. by destruct (env_render e).
Qed.

(** X14. A job is written as completed only after the plan, the bundle, the
    selection of the composition and the render have all succeeded. *)
Theorem completed_only_after_render (t : task) (ev : event) :
  ev ∈ r_log (background_render e j t) →
  status_of ev = Some "completed" →
  returns (plan_render (transformedManifest j t))
  ∧ returns (env_bundle e)
  ∧ env_selectComposition e = Ret tt
  ∧ env_render e = RenderDone.
Proof.
  intros Hev Hstatus. rewrite background_render_log in Hev.
  apply elem_of_app in Hev as [Hev|Hev]; cycle 1.
  { destruct (cleanup_writes_no_status e j
                (r_state (guarded_render_job e j (fresh_task t))) I) as [_ Hsilent].
    rewrite Forall_forall in Hsilent. rewrite (Hsilent ev Hev) in Hstatus. done. }
  assert (ev ∈ r_log (render_job e j (fresh_task t))) as Hjob.
  { unfold guarded_render_job, try_catch in Hev.
    destruct (r_out (render_job e j (fresh_task t))); [done|].
    cbn [after r_log] in Hev. apply elem_of_app in Hev as [Hev|Hev]; [done|].
    unfold mark_failed, bind, db in Hev. cbn [after r_log r_out] in Hev.
    assert (ev = E_db (VideosUpdate (videoId j) failed_fields)) as ->; [|done].
    destruct (env_db e _); cbn [after r_log ret app] in Hev; set_solver. }
  clear Hev.
  assert (∀ {A} (m : M A) t',
            keeps (fun _ => True) (fun ev => status_of ev ≠ Some "completed") m →
            ev ∈ r_log (m t') → False) as Hquiet.
  { intros A m t' Hkeeps Hin. destruct (Hkeeps t' I) as [_ Hlog].
    rewrite Forall_forall in Hlog. by apply (Hlog ev). }
  unfold render_job in Hjob.
  apply log_bind_inv in Hjob as [Hjob|(pb & Hpb & Hjob)].
  { exfalso. eapply Hquiet; [|exact Hjob].
    unfold plan_and_bundle, ensure_bucket. repeat keeps_step keeps_call. }
  apply log_bind_inv in Hjob as [Hjob|([] & _ & Hjob)].
  { exfalso. eapply Hquiet; [|exact Hjob].
    unfold generate_audio, scene_step, synthesize_scene. repeat keeps_step keeps_call. }
  apply log_bind_inv in Hjob as [Hjob|([] & Hrendered & _)].
  { exfalso. eapply Hquiet; [|exact Hjob].
    unfold render_video, renderMedia, onProgress. repeat keeps_step keeps_call. }
  apply plan_and_bundle_returned in Hpb as [Hplan Hbundle].
  apply render_video_returned in Hrendered as [Hselect Hrender].
  done.
Qed.


Lemma audio_only_alter (l0 l : list Scene) (i : nat) (s : Scene) :
  audio_only e j l0 l →
  l !! i = Some s →
  needs_audio s = true →
  audio_only e j l0
    (alter (set_audioUrl (JStr (env_publicUrl e BUCKET_NAME (audioFileName j i)))) i l).
Proof.
  intros [Hlen Hl] Hi Hneeds. split; [by rewrite length_alter|].
  intros k s' Hk. destruct (decide (i = k)) as [<-|Hne].
  - rewrite list_lookup_alter_eq, Hi in Hk. simpl in Hk. simplify_eq.
    destruct (Hl i s Hi) as (s0 & Hs0 & [->|[Hneeds0 ->]]); exists s0; (split; [done|]).
    + right. done.
    + right. done.
  - rewrite list_lookup_alter_ne in Hk by done. by apply Hl.
Qed.

Lemma scene_step_audio_only (l0 : list Scene) (totalScenes i : nat) :
  keeps (fun t => audio_only e j l0 (scenes t)) (fun _ => True)
        (scene_step e j totalScenes i).
Proof.
  intros t Ht.
  change (wp (scene_step e j totalScenes i) t
            (fun r => audio_only e j l0 (scenes (r_state r))
                      ∧ Forall (fun _ => True) (r_log r))).
  unfold scene_step, synthesize_scene.
  repeat wp_head; (split; [|by repeat constructor]); try exact Ht.
  all: eapply audio_only_alter; [exact Ht | eassumption | eassumption].
Qed.

(** X15. Whatever the collaborators answer, a run leaves the scenes of the
    manifest as they were but for the audio URL: a scene is untouched, or it
    passed the guard of the synthesis and now carries the public URL of its
    own audio object. *)
Theorem scenes_change_in_audioUrl_only (t : task) :
  audio_only e j (scenes t) (scenes (r_state (background_render e j t))).
Proof.
  assert (keeps (fun t' => audio_only e j (scenes t) (scenes t')) (fun _ => True)
                (background_render e j)) as Hkeeps.
  { unfold background_render, render_job, plan_and_bundle, generate_audio,
      render_video, publish, publish_video, sync_artifacts, ensure_bucket,
      renderMedia, onProgress, mark_failed, cleanup, unlink_if_exists.
    repeat first [apply scene_step_audio_only | keeps_step keeps_call]. }
  apply Hkeeps. split; [done|]. intros i s' Hi. exists s'. auto.
Qed.


Lemma track_audio_keeps (i : nat) :
  keeps (tracks_own e j) (fun _ => True)
        (bind (modify (fun t => with_audioFiles (audioFiles t ++ [audioPath e j i]) t))
              (fun _ => modify (fun t => with_supabaseAudioPaths
                                           (supabaseAudioPaths t ++ [audioFileName j i]) t))).
Proof.
  intros t [Hpaired Hown]. split; [|by repeat constructor].
  unfold tracks_own, bind, modify. wp_simpl. split.
  - by rewrite fmap_app, <- Hpaired.
  - apply Forall_app. split; [done|]. repeat constructor. by exists i.
Qed.

Lemma guarded_render_job_tracks_own :
  keeps (tracks_own e j) (fun _ => True) (guarded_render_job e j).
Proof.
  unfold guarded_render_job, render_job, plan_and_bundle, generate_audio, scene_step,
    synthesize_scene, render_video, publish, publish_video, sync_artifacts, ensure_bucket,
    renderMedia, onProgress, mark_failed.
  repeat first [apply track_audio_keeps | keeps_step keeps_call].
Qed.

(** X16. The two lists the cleanup works from stay paired and hold names of
    this job only: the k-th tracked local file is the k-th tracked remote
    name under the audio directory, and every tracked name is the audio file
    name of a scene of the job. *)
Theorem tracked_audio_is_own (t : task) :
  tracks_own e j (r_state (background_render e j t)).
Proof.
  rewrite background_render_state.
  set (t' := r_state (guarded_render_job e j (fresh_task t))).
  destruct (cleanup_spec e j t') as (_ & Hlocal & Hremote & _).
  unfold tracks_own. rewrite Hlocal, Hremote.
  apply guarded_render_job_tracks_own. split; [done | constructor].
Qed.

Lemma guarded_render_job_deletes_nothing (files0 : gset string)
    (objects0 : gset (string * string)) :
  keeps (nothing_deleted files0 objects0) (fun _ => True) (guarded_render_job e j).
Proof.
  unfold guarded_render_job, render_job, plan_and_bundle, generate_audio, scene_step,
    synthesize_scene, render_video, publish, publish_video, sync_artifacts, ensure_bucket,
    renderMedia, onProgress, mark_failed.
  repeat keeps_step
    ltac:(keeps_world ltac:(fun t Ht => destruct Ht; split; simpl; set_solver)).
Qed.

Lemma unlink_if_exists_leaves (path : string) (t : task) :
  wp (unlink_if_exists e path) t
     (fun r => r_out r = Ret tt
               ∧ r_state r = with_files (files (r_state r)) t
               ∧ files t ∖ {[path]} ⊆ files (r_state r)).
Proof.
  unfold unlink_if_exists. repeat wp_head.
  all: split_and!; [done | by destruct t | set_solver].
Qed.

Lemma unlink_all_leaves (paths : list string) (t : task) :
  wp (for_of paths (unlink_if_exists e)) t
     (fun r => r_out r = Ret tt
               ∧ r_state r = with_files (files (r_state r)) t
               ∧ files t ∖ list_to_set paths ⊆ files (r_state r)).
Proof.
  revert t. induction paths as [|path paths IH]; intros t.
  - unfold wp. simpl. split_and!; [done | by destruct t | set_solver].
  - cbn [for_of]. apply wp_bind.
    eapply wp_mono; [apply unlink_if_exists_leaves|].
    intros r (Hout & Hstate & Hleft). rewrite Hout.
    eapply wp_mono; [apply IH|].
    intros r' (Hout' & Hstate' & Hleft'). wp_simpl.
    split_and!; [done | | set_solver].
    rewrite Hstate', Hstate. by destruct t.
Qed.

Lemma cleanup_leaves (t : task) :
  files t ∖ ({[outputLocation j]} ∪ list_to_set (audioFiles t))
    ⊆ files (r_state (cleanup e j t))
  ∧ objects t ∖ list_to_set ((fun n => (BUCKET_NAME, n)) <$> supabaseAudioPaths t)
    ⊆ objects (r_state (cleanup e j t)).
Proof.
  change (wp (cleanup e j) t
            (fun r => files t ∖ ({[outputLocation j]} ∪ list_to_set (audioFiles t))
                        ⊆ files (r_state r)
                      ∧ objects t
                          ∖ list_to_set ((fun n => (BUCKET_NAME, n)) <$> supabaseAudioPaths t)
                        ⊆ objects (r_state r))).
  unfold cleanup. apply wp_bind.
  eapply wp_mono; [apply unlink_if_exists_leaves|].
  intros r (Hout & Hstate & Hvideo). rewrite Hout.
  apply wp_bind. unfold wp at 1, read. wp_simpl. apply wp_bind.
  eapply wp_mono; [apply unlink_all_leaves|].
  intros r' (Hout' & Hstate' & Haudio). rewrite Hout'.
  assert (audioFiles (r_state r) = audioFiles t) as Hfiles by (by rewrite Hstate).
  assert (r_state r' = with_files (files (r_state r')) t) as Hstate''.
  { rewrite Hstate', Hstate. by destruct t. }
  rewrite Hfiles in *. clear Hstate'.
  apply wp_bind. unfold wp at 1, read. wp_simpl.
  assert (supabaseAudioPaths (r_state r') = supabaseAudioPaths t) as ->
    by (by rewrite Hstate'').
  assert (objects (r_state r') = objects t) as Hobjects by (by rewrite Hstate'').
  repeat wp_head.
  all: rewrite ?Hobjects.
  all: split; set_solver.
Qed.

(** X17. A run deletes nothing but its own temporaries: a local file that is
    neither the rendered video nor an audio file of the job, and a remote
    object that is not an audio object of the job, are still there at the
    end. *)
Theorem only_own_temporaries_deleted (t : task) :
  let t' := r_state (background_render e j t) in
  (∀ path, path ∈ files t → path ≠ outputLocation j → (∀ i, path ≠ audioPath e j i) →
           path ∈ files t')
  ∧ (∀ bucket name, (bucket, name) ∈ objects t →
       (bucket = BUCKET_NAME → ∀ i, name ≠ audioFileName j i) →
       (bucket, name) ∈ objects t').
Proof.
  intros t'. subst t'. rewrite background_render_state.
  set (t1 := r_state (guarded_render_job e j (fresh_task t))).
  destruct (guarded_render_job_deletes_nothing (files t) (objects t) (fresh_task t))
    as [[Hfiles Hobjects] _]; [done|].
  destruct (guarded_render_job_tracks_own (fresh_task t)) as [[Hpaired Hown] _];
    [split; [done | constructor]|].
  fold t1 in Hfiles, Hobjects, Hpaired, Hown.
  destruct (cleanup_leaves t1) as [Hlocal Hremote].
  rewrite Forall_forall in Hown. split.
  - intros path Hpath Hvideo Haudio. apply Hlocal.
    apply elem_of_difference. split; [by apply Hfiles|].
    intros [Hin|Hin]%elem_of_union; [set_solver|].
    apply elem_of_list_to_set in Hin. rewrite Hpaired in Hin.
    apply list_elem_of_fmap in Hin as (name & -> & Hname).
    destruct (Hown name Hname) as [i ->]. by apply (Haudio i).
  - intros bucket name Hobject Hforeign. apply Hremote.
    apply elem_of_difference. split; [by apply Hobjects|].
    intros Hin. apply elem_of_list_to_set, list_elem_of_fmap in Hin as (n & Heq & Hn).
    simplify_eq. destruct (Hown n Hn) as [i ->]. by apply (Hforeign eq_refl i).
Qed.


Lemma publish_stored_spec (t : task) (p : Plan) :
  job_store_reliable e →
  env_upload e "videos" (videoId j ++ ".mp4") = UploadStored →
  wp (publish e j p) t
     (fun r => r_out r = Ret tt
               ∧ E_db (VideosUpdate (videoId j)
                         (completed_fields
                            (env_publicUrl e "videos" (videoId j ++ ".mp4")) p))
                 ∈ r_log r
               ∧ ("videos", videoId j ++ ".mp4") ∈ objects (r_state r)).
Proof.
  intros Hdb Hstored. unfold publish, publish_video, sync_artifacts, storage_upload.
  rewrite Hstored.
  repeat wp_head; try db_absurd Hdb; try done.
  all: try match goal with
           | Hget : get _ _ = Throw _, Htruthy : truthy _ = true |- _ =>
               apply get_Throw_opt in Hget; rewrite Hget in Htruthy; done
           end.
  all: split_and!; [done | set_solver | set_solver].
Qed.

(** X18. When the upload of the rendered video succeeds, the job is written
    as completed with the public URL of the object store, and the cleanup
    leaves the published object where it is. *)
Theorem video_published (t : task) (p : Plan) (bundled : string) :
  job_store_reliable e →
  plan_render (transformedManifest j t) = Ret p →
  env_bundle e = Ret bundled →
  env_selectComposition e = Ret tt →
  env_render e = RenderDone →
  env_upload e "videos" (videoId j ++ ".mp4") = UploadStored →
  let r := background_render e j t in
  E_db (VideosUpdate (videoId j)
          (completed_fields (env_publicUrl e "videos" (videoId j ++ ".mp4")) p))
  ∈ r_log r
  ∧ ("videos", videoId j ++ ".mp4") ∈ objects (r_state r).
Proof.
  intros Hdb Hplan Hbundle Hselect Hrender Hstored r. subst r.
  assert (r_out (render_job e j (fresh_task t)) = Ret tt
          ∧ E_db (VideosUpdate (videoId j)
                    (completed_fields (env_publicUrl e "videos" (videoId j ++ ".mp4")) p))
            ∈ r_log (render_job e j (fresh_task t))
          ∧ ("videos", videoId j ++ ".mp4")
            ∈ objects (r_state (render_job e j (fresh_task t)))) as (Hout & Hlog & Hobject).
  { unfold render_job.
    destruct (plan_and_bundle_spec e j (fresh_task t) p bundled Hdb Hplan Hbundle)
      as [Hout0 _].
    rewrite (bind_Ret _ _ _ _ Hout0). cbn [fst snd].
    set (t1 := r_state (plan_and_bundle e j (fresh_task t))).
    destruct (generate_audio_spec e j Hdb t1) as (Hout1 & _ & _).
    rewrite (bind_Ret _ _ _ _ Hout1).
    set (t2 := r_state (generate_audio e j t1)).
    rewrite (bind_Ret _ _ _ tt) by (by apply render_video_returns).
    set (t3 := r_state (render_video e j p bundled t2)).
    destruct (publish_stored_spec t3 p Hdb Hstored) as (Hout3 & Hcompleted & Hstoredobj).
    cbn [after r_out r_log r_state]. split_and!; [done | | done].
    rewrite !elem_of_app. auto. }
  pose proof (try_catch_Ret (render_job e j) (fun _ => mark_failed e j)
                (fresh_task t) tt Hout) as Hguarded.
  rewrite background_render_state, background_render_log.
  unfold guarded_render_job. rewrite Hguarded. split.
  - apply elem_of_app. by left.
  - apply cleanup_leaves. apply elem_of_difference. split; [done|].
    intros Hin. apply elem_of_list_to_set, list_elem_of_fmap in Hin as (n & Heq & _).
    discriminate Heq.
Qed.


Lemma callback_quiet (progress : Q) (t : task) :
  (∀ n m, env_now e n - env_now e m ≤ 1000) →
  written_at_reading e t →
  wp (try_catch (onProgress e j progress) (fun _ => ret tt)) t
     (fun r => r_out r = Ret tt ∧ r_log r = [] ∧ written_at_reading e (r_state r)).
Proof.
  intros Hclock (k & Hk & Hlast). unfold onProgress. repeat wp_head.
  all: try match goal with
           | Hlate : (1000 <? _) = true |- _ =>
               apply Z.ltb_lt in Hlate; rewrite Hlast in Hlate;
               pose proof (Hclock (clock_reads t) k); lia
           end.
  split_and!; [done..|]. exists k. split; [simpl; lia | done].
Qed.

Lemma callbacks_quiet (l : list Q) (t : task) :
  (∀ n m, env_now e n - env_now e m ≤ 1000) →
  written_at_reading e t →
  wp (for_of l (fun progress => try_catch (onProgress e j progress) (fun _ => ret tt))) t
     (fun r => r_out r = Ret tt ∧ r_log r = []).
Proof.
  intros Hclock. revert t. induction l as [|progress l IH]; intros t Ht; [done|].
  cbn [for_of]. apply wp_bind.
  eapply wp_mono; [by apply callback_quiet|].
  intros r (Hout & Hlog & Hr). rewrite Hout.
  eapply wp_mono; [by apply IH|].
  intros r' (Hout' & Hlog'). wp_simpl. by rewrite Hlog, Hlog'.
Qed.

(** X19. The throttle of the render callback: when no two readings of the
    clock are more than 1000 ms apart, the render makes no request to the
    database, however many times the engine reports progress. *)
Theorem quiet_clock_no_progress_written (t : task) (p : Plan) (bundled : string) :
  (∀ n m, env_now e n - env_now e m ≤ 1000) →
  Forall no_request (r_log (render_video e j p bundled t)).
Proof.
  intros Hclock.
  change (wp (render_video e j p bundled) t (fun r => Forall no_request (r_log r))).
  unfold render_video, renderMedia. repeat wp_head; try (by repeat constructor).
  all: eapply wp_mono;
    [apply (callbacks_quiet _ _ Hclock); exists (clock_reads t); simpl;
     split; [lia | done]|].
  all: intros r (Hout & Hlog); rewrite Hout.
  all: unfold wp; wp_simpl; rewrite Hlog; by repeat constructor.
Qed.





End BackgroundFacts.

(** ** The series of the composition *)






Section CompositionFacts.
Context `{JSRuntime}.





Lemma audio_sequences (e : env) (j : job) (l : list Scene) (sequences : list Sequence) :
  Main (Some {| manifest_meta := meta j; manifest_scenes := with_audio e j 0 l |})
  = Ret (Some sequences) →
  ∀ i s txt, l !! i = Some s → wants_speech s txt →
    ∃ sq, sequences !! i = Some sq
          ∧ sequence_audio sq
            = let url := env_publicUrl e BUCKET_NAME (audioFileName j i) in
              if audio_ready e j i s && negb (String.eqb url "")
              then Some (JStr url) else None.
Proof.
  unfold Main. cbn [manifest_meta manifest_scenes]. intros Hmain i s txt Hs Hwants.
  apply obind_Ret_inv in Hmain as (f & _ & Hmain).
  apply obind_Ret_inv in Hmain as (sqs & Hrun & Hmain). simplify_eq.
  assert (with_audio e j 0 l !! i = Some (audio_result e j i s)) as Hi.
  { by rewrite with_audio_lookup, Hs. }
  destruct (map_indexed_lookup _ _ _ _ Hrun i _ Hi) as (sq & Hsq & Hsequence).
  exists sq. split; [done|].
  unfold scene_sequence in Hsequence.
  apply obind_Ret_inv in Hsequence as (prod & _ & Hsequence). simplify_eq.
  cbn [sequence_audio]. destruct Hwants as (_ & _ & Hsilent).
  unfold audio_result. destruct (audio_ready e j i s); cbn [andb].
  - cbn [set_audioUrl scene_narration narration_audioUrl truthy].
    by destruct (String.eqb _ "").
  - by rewrite Hsilent.
Qed.

Lemma background_render_selects (e : env) (j : job) (t : task) (p : Plan)
    (bundled : string) :
  job_store_reliable e →
  plan_render (transformedManifest j t) = Ret p →
  env_bundle e = Ret bundled →
  E_selectComposition bundled "LoanBriefing"
    {| manifest_meta := meta j; manifest_scenes := with_audio e j 0 (scenes t) |}
    (analysis j)
  ∈ r_log (background_render e j t).
Proof.
  intros Hdb Hplan Hbundle.
  rewrite background_render_log. apply elem_of_app. left.
  apply log_try_catch_l. unfold render_job.
  destruct (plan_and_bundle_spec e j (fresh_task t) p bundled Hdb Hplan Hbundle)
    as [Hout Hscenes].
  eapply log_bind_r; [exact Hout|]. cbn [fst snd].
  set (t1 := r_state (plan_and_bundle e j (fresh_task t))) in *.
  destruct (generate_audio_spec e j Hdb t1) as (Hout1 & Hscenes1 & _).
  eapply log_bind_r; [exact Hout1|]. apply log_bind_l.
  set (t2 := r_state (generate_audio e j t1)) in *.
  pose proof (render_video_selects e j t2 p bundled) as Hselects.
  unfold transformedManifest in Hselects.
  by rewrite Hscenes1, Hscenes in Hselects.
Qed.

(** X22. What the loop over the scenes leaves is what plays. When the
    database answers and the bundle is built, the composition is selected
    with a manifest in which [Main] gives a scene that wanted speech an
    [Audio] exactly when every step of its synthesis succeeded and the
    public URL is not empty; the source of the [Audio] is that URL. *)
Theorem synthesized_scenes_sound (e : env) (j : job) (t : task) (p : Plan)
    (bundled : string) :
  job_store_reliable e →
  plan_render (transformedManifest j t) = Ret p →
  env_bundle e = Ret bundled →
  ∃ m, E_selectComposition bundled "LoanBriefing" m (analysis j)
       ∈ r_log (background_render e j t)
       ∧ ∀ sequences, Main (Some m) = Ret (Some sequences) →
         ∀ i s txt, scenes t !! i = Some s → wants_speech s txt →
           ∃ sq, sequences !! i = Some sq
                 ∧ sequence_audio sq
                   = let url := env_publicUrl e BUCKET_NAME (audioFileName j i) in
                     if audio_ready e j i s && negb (String.eqb url "")
                     then Some (JStr url) else None.
Proof.
  intros Hdb Hplan Hbundle.
  exists {| manifest_meta := meta j; manifest_scenes := with_audio e j 0 (scenes t) |}.
  split; [by eapply background_render_selects|].
  intros sequences Hmain. by apply audio_sequences.
Qed.

End CompositionFacts.

(** ** The layout of a scene *)

Lemma indexed_app (i : nat) (l1 l2 : list value) :
  indexed i (l1 ++ l2) = (indexed i l1 ++ indexed (i + length l1) l2)%list.
Proof.
  unfold indexed. rewrite imap_app. f_equal. apply imap_ext.
  intros k c _. simpl. f_equal. lia.
Qed.

Lemma indexed_cons (i : nat) (c : value) (l : list value) :
  indexed i (c :: l) = (c, i) :: indexed (S i) l.
Proof.
  unfold indexed. rewrite imap_cons. rewrite Nat.add_0_r. f_equal.
  apply imap_ext. intros k c' _. simpl. f_equal. lia.
Qed.


Section Layout.
Variable components : list value.

Lemma collect_data_cards_spec (fuel : nat) (dataCards : list value) (j : nat) :
  (j ≤ length components)%nat →
  (length components - j < fuel)%nat →
  (∃ j', (j ≤ j' ≤ length components)%nat
         ∧ collect_data_cards fuel components dataCards j
           = Some (Ret ((dataCards ++ take (j' - j) (drop j components))%list, j'))
         ∧ Forall (fun c => is_data_card c = Ret true) (take (j' - j) (drop j components))
         ∧ ∀ c, components !! j' = Some c → is_data_card c = Ret false)
  ∨ (∃ err c, collect_data_cards fuel components dataCards j = Some (Throw err)
              ∧ c ∈ components ∧ is_data_card c = Throw err).
Proof.
  revert dataCards j. induction fuel as [|fuel IH]; intros dataCards j Hj Hfuel; [lia|].
  cbn [collect_data_cards].
  destruct (components !! j) as [c|] eqn:Hc.
  - destruct (is_data_card c) as [[]|err] eqn:Hcard.
    + assert (j < length components)%nat by (by eapply lookup_lt_Some).
      destruct (IH (dataCards ++ [c])%list (S j)) as
        [(j' & Hj' & Hrun & Hcards & Hstop)|(err & c' & Hrun & Hin & Hthrow)]; [lia..| |].
      * left. exists j'. split; [lia|].
        assert (take (j' - j) (drop j components)
                = c :: take (j' - S j) (drop (S j) components)) as Htake.
        { rewrite (drop_S _ c j Hc). by replace (j' - j)%nat with (S (j' - S j)) by lia. }
        rewrite Htake. split_and!; [|by constructor|done].
        by rewrite Hrun, <- app_assoc.
      * right. by exists err, c'.
    + left. exists j. split; [by apply lookup_lt_Some in Hc; lia|].
      rewrite Nat.sub_diag, take_0, app_nil_r. split_and!; [done | constructor |].
      intros c' Hc'. by simplify_eq.
    + right. exists err, c. split_and!; [done | by eapply list_elem_of_lookup_2 | done].
  - left. exists j. split; [lia|].
    rewrite Nat.sub_diag, take_0, app_nil_r. split_and!; [done | constructor |].
    intros c' Hc'. by simplify_eq.
Qed.


Lemma group_components_spec (fuel : nat) (groupedElements : list element) (i : nat) :
  (i ≤ length components)%nat →
  (length components - i < fuel)%nat →
  (∃ elems, group_components fuel components groupedElements i
            = Some (Ret (groupedElements ++ elems)%list)
            ∧ concat (rendered <$> elems) = indexed i (drop i components)
            ∧ Forall well_grouped elems
            ∧ rows_apart elems
            ∧ ∀ el, head elems = Some el → is_row el = true →
                    ∃ c, components !! i = Some c ∧ is_data_card c = Ret true)
  ∨ (∃ err c, group_components fuel components groupedElements i = Some (Throw err)
              ∧ c ∈ components ∧ is_data_card c = Throw err).
Proof.
  revert groupedElements i.
  induction fuel as [|fuel IH]; intros groupedElements i Hi Hfuel; [lia|].
  cbn [group_components].
  destruct (components !! i) as [c|] eqn:Hc; cycle 1.
  { left. exists []. rewrite app_nil_r.
    apply lookup_ge_None in Hc. rewrite drop_ge by done.
    split_and!; [done | done | constructor | done | by intros el]. }
  pose proof (lookup_lt_Some _ _ _ Hc) as Hlt.
  destruct (is_data_card c) as [[]|err] eqn:Hcard.
  - destruct (collect_data_cards_spec (S (length components)) [c] (S i))
      as [(j & Hj & -> & Hcards & Hstop)|(err & c' & -> & Hin & Hthrow)]; [lia..| |];
      cycle 1.
    { right. by exists err, c'. }
    assert (([c] ++ take (j - S i) (drop (S i) components))%list
            = take (j - i) (drop i components)) as ->.
    { rewrite (drop_S _ c i Hc). by replace (j - i)%nat with (S (j - S i)) by lia. }
    assert (Forall (fun c => is_data_card c = Ret true) (take (j - i) (drop i components)))
      as Hrow.
    { rewrite (drop_S _ c i Hc). replace (j - i)%nat with (S (j - S i)) by lia.
      by constructor. }
    set (row := DataCards i (imap (fun cardIdx card => (card, (i + cardIdx)%nat))
                                  (take (j - i) (drop i components)))).
    destruct (IH (groupedElements ++ [row])%list j)
      as [(elems & -> & Hrendered & Hgrouped & Hapart & Hhead)
         |(err & c' & -> & Hin & Hthrow)]; [lia..| |]; cycle 1.
    { right. by exists err, c'. }
    left. exists (row :: elems). split_and!.
    + by rewrite <- app_assoc.
    + rewrite fmap_cons. cbn [concat rendered row]. rewrite Hrendered.
      fold (indexed i (take (j - i) (drop i components))).
      assert (drop i components
              = (take (j - i) (drop i components) ++ drop j components)%list) as Hsplit.
      { rewrite <- (take_drop (j - i) (drop i components)) at 1.
        rewrite drop_drop. do 2 f_equal. lia. }
      rewrite (f_equal (indexed i) Hsplit), indexed_app. do 2 f_equal.
      rewrite length_take, length_drop. lia.
    + constructor; [|done]. split.
      * exists c. subst row. rewrite (drop_S _ c i Hc).
        replace (j - i)%nat with (S (j - S i)) by lia. simpl. by rewrite Nat.add_0_r.
      * apply Forall_forall. intros [card k] Hin.
        apply elem_of_lookup_imap in Hin as (idx & card' & Heq & Hidx). simplify_eq.
        rewrite Forall_forall in Hrow. apply Hrow. by eapply list_elem_of_lookup_2.
    + cbn [rows_apart]. split; [|done].
      destruct elems as [|next elems]; [done|]. cbn [is_row row andb].
      destruct (is_row next) eqn:Hnext; [|done].
      destruct (Hhead next eq_refl Hnext) as (c' & Hc' & Hcard').
      rewrite (Hstop c' Hc') in Hcard'. discriminate.
    + intros el _ _. by exists c.
  - destruct (IH (groupedElements ++ [Fragment i c])%list (S i))
      as [(elems & -> & Hrendered & Hgrouped & Hapart & Hhead)
         |(err & c' & -> & Hin & Hthrow)]; [lia..| |]; cycle 1.
    { right. by exists err, c'. }
    left. exists (Fragment i c :: elems). split_and!.
    + by rewrite <- app_assoc.
    + rewrite fmap_cons. cbn [concat rendered]. rewrite Hrendered.
      by rewrite (drop_S _ c i Hc), indexed_cons.
    + by constructor.
    + cbn [rows_apart]. split; [|done]. by destruct elems.
    + intros el Hel Hrow'. cbn in Hel. by simplify_eq.
  - right. exists err, c. split_and!; [done | by eapply list_elem_of_lookup_2 | done].
Qed.

End Layout.




(** X24. The grouping drops and repeats nothing: the elements render every
    component of the scene once, in the order of the scene, each with its
    own index. *)
Theorem each_component_rendered_once (scene : Scene) (elems : list element) :
  Scene_elements scene = Some (Ret elems) →
  concat (rendered <$> elems) = indexed 0 (visuals_components (scene_visuals scene)).
Proof.
  unfold Scene_elements. set (components := visuals_components (scene_visuals scene)).
  intros Hrun.
  destruct (group_components_spec components (S (length components)) [] 0)
    as [(elems' & Hrun' & Hrendered & _)|(err & c & Hrun' & _)]; [lia..| |];
    rewrite Hrun' in Hrun; simplify_eq.
  by rewrite drop_0 in Hrendered.
Qed.

(** X25. The rows are the maximal runs of [data_card] components: a row holds
    data cards only and is keyed by the index of its first card, a fragment
    holds a component that is no data card, and no row follows a row. *)
Theorem data_cards_grouped_in_rows (scene : Scene) (elems : list element) :
  Scene_elements scene = Some (Ret elems) →
  Forall well_grouped elems ∧ rows_apart elems.
Proof.
  unfold Scene_elements. set (components := visuals_components (scene_visuals scene)).
  intros Hrun.
  destruct (group_components_spec components (S (length components)) [] 0)
    as [(elems' & Hrun' & _ & Hgrouped & Hapart & _)|(err & c & Hrun' & _)]; [lia..| |];
    rewrite Hrun' in Hrun; by simplify_eq.
Qed.


Section LayoutOfNormalised.
Context `{JSRuntime}.




(** X27. The renderer prints the rationale of a component as the normaliser
    leaves it: for every component the text printed after the normalisation
    is the text printed before, and the rationale of a normalised
    recommendation is never an array. *)
Theorem normalisation_keeps_rationale_text (component component' : value) :
  transformComponent component = Ret component' →
  rationale_text component' = rationale_text component
  ∧ (strict_eq_string (get_opt component "type") "recommendation" = true →
     ∀ l, get_opt component' "rationale" ≠ JArr l).
Proof.
  unfold transformComponent. intros Hc.
  apply obind_Ret_inv in Hc as (ty & Hty & Hc).
  apply get_Ret_inv in Hty as [-> Hget].
  destruct (strict_eq_string (get_opt component "type") "recommendation") eqn:Hrec;
    [|by simplify_eq].
  rewrite Hget in Hc. cbn [obind] in Hc.
  destruct (get_opt component "rationale") as [| |b|n|s|l|o'] eqn:Hr;
    try (simplify_eq; split; [done | intros _ l'; by rewrite Hr]).
  apply obind_Ret_inv in Hc as (joined & Hjoined & Hc). simplify_eq.
  unfold rationale_text. rewrite Hget, Hr. cbn [obind get get_opt].
  destruct component as [| |b|n|s|l'|o]; try done. cbn [spread].
  rewrite own_property_set_eq. cbn [default from_option id obind]. split; [done|].
  by intros _ l'.
Qed.

End LayoutOfNormalised.

(** ** The further theorems at work *)

Lemma transformManifest_scene_by_scene_witness :
  @transformManifest example_runtime no_meta_manifest = Ret (Some no_meta_normalised)
  ∧ ∃ l, js_or (get_opt no_meta_manifest "scenes") (JArr []) = JArr l
         ∧ length (manifest_scenes no_meta_normalised) = length l
         ∧ ∀ k scene, l !! k = Some scene →
             ∃ s, manifest_scenes no_meta_normalised !! k = Some s
                  ∧ @transformScene example_runtime scene k = Ret s.
Proof.
  split; [reflexivity|].
  exact (@transformManifest_scene_by_scene example_runtime no_meta_manifest
           no_meta_normalised eq_refl).
Defined.

Lemma normalized_scene_fields_witness :
  @transformScene example_runtime plain_scene 0 = Ret (normalized_scene "0" 10)
  ∧ truthy (scene_id (normalized_scene "0" 10)) = true
  ∧ truthy (scene_duration (normalized_scene "0" 10)) = true
  ∧ truthy (visuals_layout (scene_visuals (normalized_scene "0" 10))) = true.
Proof.
  split; [reflexivity|].
  pose proof (@normalized_scene_fields example_runtime plain_scene 0
                (normalized_scene "0" 10) eq_refl) as (Hid & Hduration & Hlayout & _).
  exact (conj Hid (conj Hduration Hlayout)).
Defined.

Lemma rationale_flattened_witness :
  own_property "type" recommendation_fields = Some (JStr "recommendation")
  ∧ own_property "rationale" recommendation_fields
    = Some (JArr (JStr <$> ["Strong cash flow"; "Low leverage"]))
  ∧ ∃ o', @transformComponent example_runtime (JObj recommendation_fields) = Ret (JObj o')
          ∧ own_property "rationale" o' = Some (JStr "Strong cash flow. Low leverage")
          ∧ (∀ k, k ≠ "rationale" → own_property k o' = own_property k recommendation_fields)
          ∧ o'.*1 = recommendation_fields.*1.
Proof.
  split; [reflexivity|]. split; [reflexivity|].
  exact (@rationale_flattened example_runtime recommendation_fields
           ["Strong cash flow"; "Low leverage"] eq_refl eq_refl).
Defined.

Lemma other_components_unchanged_witness :
  @transformComponent example_runtime hologram = Ret hologram
  ∧ get_opt hologram "type" = JStr "hologram".
Proof.
  split; [reflexivity|].
  exact (proj1 (@other_components_unchanged example_runtime hologram hologram eq_refl)).
Defined.

Lemma submission_accepted_witness :
  @transformManifest example_runtime (get_opt accepted_request "manifest")
  = Ret (Some no_meta_normalised)
  ∧ manifest_scenes no_meta_normalised ≠ []
  ∧ printable (get_opt accepted_request "manifest_id") = true
  ∧ @generate_video example_runtime calm_env accepted_request task1
    = {| r_state := with_scenes [normalized_scene "0" 10] task1;
         r_log := [E_randomUUID; E_respond 200 (accepted_body "job-1")];
         r_out := Ret (Some {| videoId := "job-1";
                               outputLocation := "/app/public/videos/job-1.mp4";
                               manifest_id := JStr "m1";
                               analysis := JUndefined;
                               meta := default_meta |}) |}.
Proof.
  assert (manifest_scenes no_meta_normalised ≠ []) as Hscenes by discriminate.
  split; [reflexivity|]. split; [exact Hscenes|]. split; [reflexivity|].
  exact (proj1 (@submission_accepted example_runtime calm_env accepted_request
                  no_meta_normalised task1 eq_refl Hscenes eq_refl)).
Defined.

Lemma unprintable_manifest_id_witness :
  @transformManifest example_runtime (get_opt unprintable_request "manifest")
  = Ret (Some no_meta_normalised)
  ∧ manifest_scenes no_meta_normalised ≠ []
  ∧ printable (get_opt unprintable_request "manifest_id") = false
  ∧ throws (r_out (@handle_request example_runtime calm_env unprintable_request task1))
  ∧ r_log (@handle_request example_runtime calm_env unprintable_request task1)
    = [E_randomUUID]
  ∧ r_state (@handle_request example_runtime calm_env unprintable_request task1) = task1.
Proof.
  assert (manifest_scenes no_meta_normalised ≠ []) as Hscenes by discriminate.
  split; [reflexivity|]. split; [exact Hscenes|]. split; [reflexivity|].
  exact (@unprintable_manifest_id example_runtime calm_env unprintable_request
           no_meta_normalised task1 eq_refl Hscenes eq_refl).
Defined.

Lemma no_manifest_id_updates_only_witness :
  truthy (manifest_id anonymous_job) = false
  ∧ Forall update_only (r_log (@background_render example_runtime calm_env anonymous_job task1)).
Proof.
  split; [reflexivity|].
  exact (@no_manifest_id_updates_only example_runtime calm_env anonymous_job task1 eq_refl).
Defined.

Lemma completed_only_after_render_witness :
  E_db (VideosUpdate "job-1" (completed_fields "https://storage/videos/job-1.mp4" plan1))
  ∈ r_log (@background_render example_runtime calm_env job1 task1)
  ∧ status_of (E_db (VideosUpdate "job-1"
                       (completed_fields "https://storage/videos/job-1.mp4" plan1)))
    = Some "completed"
  ∧ returns (@plan_render example_runtime (transformedManifest job1 task1))
  ∧ returns (env_bundle calm_env)
  ∧ env_selectComposition calm_env = Ret tt
  ∧ env_render calm_env = RenderDone.
Proof.
  assert (E_db (VideosUpdate "job-1"
                  (completed_fields "https://storage/videos/job-1.mp4" plan1))
          ∈ r_log (@background_render example_runtime calm_env job1 task1)) as Hwritten.
  { vm_compute. repeat first [apply list_elem_of_here | apply list_elem_of_further]. }
  split; [exact Hwritten|]. split; [reflexivity|].
  exact (@completed_only_after_render example_runtime calm_env job1 task1 _
           Hwritten eq_refl).
Defined.

Lemma video_published_witness :
  job_store_reliable calm_env
  ∧ @plan_render example_runtime (transformedManifest job1 task1) = Ret plan1
  ∧ env_upload calm_env "videos" (videoId job1 ++ ".mp4") = UploadStored
  ∧ E_db (VideosUpdate "job-1" (completed_fields "https://storage/videos/job-1.mp4" plan1))
    ∈ r_log (@background_render example_runtime calm_env job1 task1)
  ∧ ("videos", "job-1.mp4")
    ∈ objects (r_state (@background_render example_runtime calm_env job1 task1)).
Proof.
  split; [apply calm_database|]. split; [reflexivity|]. split; [reflexivity|].
  exact (@video_published example_runtime calm_env job1 task1 plan1 "bundle"
           (calm_database _ _ _ _ _) eq_refl eq_refl eq_refl eq_refl eq_refl).
Defined.

Lemma quiet_clock_no_progress_written_witness :
  (∀ n m, env_now frozen_clock_env n - env_now frozen_clock_env m ≤ 1000)
  ∧ Forall no_request
      (r_log (@render_video example_runtime frozen_clock_env job1 plan1 "bundle" task1)).
Proof.
  assert (∀ n m, env_now frozen_clock_env n - env_now frozen_clock_env m ≤ 1000) as Hclock.
  { intros n m. simpl. lia. }
  split; [exact Hclock|].
  exact (@quiet_clock_no_progress_written example_runtime frozen_clock_env job1 task1
           plan1 "bundle" Hclock).
Defined.



Lemma synthesized_scenes_sound_witness :
  job_store_reliable first_scene_silent_env
  ∧ @plan_render example_runtime (transformedManifest job1 task1) = Ret plan1
  ∧ env_bundle first_scene_silent_env = Ret "bundle"
  ∧ ∃ m, E_selectComposition "bundle" "LoanBriefing" m (analysis job1)
         ∈ r_log (@background_render example_runtime first_scene_silent_env job1 task1)
         ∧ ∀ sequences, @Main example_runtime (Some m) = Ret (Some sequences) →
           ∀ i s txt, scenes task1 !! i = Some s → wants_speech s txt →
             ∃ sq, sequences !! i = Some sq
                   ∧ sequence_audio sq
                     = let url := env_publicUrl first_scene_silent_env BUCKET_NAME
                                    (@audioFileName example_runtime job1 i) in
                       if @audio_ready example_runtime first_scene_silent_env job1 i s
                          && negb (String.eqb url "")
                       then Some (JStr url) else None.
Proof.
  split; [apply calm_database|]. split; [reflexivity|]. split; [reflexivity|].
  exact (@synthesized_scenes_sound example_runtime first_scene_silent_env job1 task1
           plan1 "bundle" (calm_database _ _ _ _ _) eq_refl eq_refl).
Defined.

(** The series of that run: the first scene plays without sound. *)
Lemma half_spoken_series_plays :
  @Main example_runtime
    (Some {| manifest_meta := meta job1;
             manifest_scenes := @with_audio example_runtime first_scene_silent_env job1 0
                                  (scenes task1) |})
  = Ret (Some half_spoken_series).
Proof. reflexivity. Qed.

Lemma each_component_rendered_once_witness :
  Scene_elements dashboard_scene = Some (Ret dashboard_elements)
  ∧ concat (rendered <$> dashboard_elements) = indexed 0 dashboard_components.
Proof.
  split; [reflexivity|].
  exact (each_component_rendered_once dashboard_scene dashboard_elements eq_refl).
Defined.

Lemma data_cards_grouped_in_rows_witness :
  Scene_elements dashboard_scene = Some (Ret dashboard_elements)
  ∧ Forall well_grouped dashboard_elements
  ∧ rows_apart dashboard_elements.
Proof.
  split; [reflexivity|].
  exact (data_cards_grouped_in_rows dashboard_scene dashboard_elements eq_refl).
Defined.


Lemma normalisation_keeps_rationale_text_witness :
  @transformComponent example_runtime (JObj recommendation_fields)
  = Ret (JObj [("type", JStr "recommendation"); ("decision", JStr "approve");
               ("rationale", JStr "Strong cash flow. Low leverage")])
  ∧ @rationale_text example_runtime
      (JObj [("type", JStr "recommendation"); ("decision", JStr "approve");
             ("rationale", JStr "Strong cash flow. Low leverage")])
    = @rationale_text example_runtime (JObj recommendation_fields).
Proof.
  split; [reflexivity|].
  exact (proj1 (@normalisation_keeps_rationale_text example_runtime
                  (JObj recommendation_fields) _ eq_refl)).
Defined.
